(** * InvoceProject: extraction and reconciliation engine

    A shallow embedding of [Moldularversion/logic.py] (Folio resolver,
    reference extractors, record assembler, batch loop, output file name,
    text normalisation) and of [pdf_processor.py] (oracle client, id parser,
    Folio patterns, rows of a file), together with the properties stated
    about them.

    Conventions of the model.
    - A Python [str] is a [string] of 8-bit characters read as Latin-1 code
      points; [\d], [\s], [\w], [\b], [str.isdigit], [str.strip] and case
      folding are the Unicode ones restricted to that range.
    - [re] is embedded as a backtracking matcher over a first-order syntax of
      the patterns; each pattern of the source is transcribed constructor by
      constructor.
    - An exception that the source does not catch is an explicit outcome of
      the model ([Raise] in [raising] computations), so that "does not raise"
      is a statement that can be proved; an exception that the source catches
      is modelled by the value its handler leaves.
    - Calls that leave the program (reading the PDF, the HTTP exchange,
      [json.loads], the file system) are parameters of the functions that
      make them. *)

From stdpp Require Import gmap strings list.
From Stdlib Require Import ZArith Ascii String List Lia DecimalString DecimalPos DecimalZ
  Permutation Sorted.
Import ListNotations.
Open Scope string_scope.

(** ** Python string primitives *)

Module Py.

Definition code (a : ascii) : nat := nat_of_ascii a.

Definition between (lo hi n : nat) : bool := (lo <=? n)%nat && (n <=? hi)%nat.

(** [\d] for a str pattern: the decimal digits (category Nd). *)
Definition is_decimal (a : ascii) : bool := between 48 57 (code a).

(** [str.isdigit] on one character: decimal digits and the superscripts
    U+00B2, U+00B3, U+00B9. *)
Definition is_digit_char (a : ascii) : bool :=
  is_decimal a || (code a =? 178)%nat || (code a =? 179)%nat || (code a =? 185)%nat.

(** [str.isspace] on one character, also the class [\s]. *)
Definition is_space (a : ascii) : bool :=
  between 9 13 (code a) || between 28 32 (code a)
  || (code a =? 133)%nat || (code a =? 160)%nat.

Definition is_alpha (a : ascii) : bool :=
  let n := code a in
  between 65 90 n || between 97 122 n
  || (n =? 170)%nat || (n =? 181)%nat || (n =? 186)%nat
  || between 192 214 n || between 216 246 n || between 248 255 n.

(** [\w]: alphanumeric (in the sense of [str.isalnum]) or underscore. *)
Definition is_word (a : ascii) : bool :=
  is_alpha a || is_digit_char a || between 188 190 (code a) || (code a =? 95)%nat.

Definition lower (a : ascii) : ascii :=
  let n := code a in
  if between 65 90 n || (between 192 222 n && negb (n =? 215)%nat)
  then ascii_of_nat (n + 32) else a.

Definition upper (a : ascii) : ascii :=
  let n := code a in
  if between 97 122 n || (between 224 254 n && negb (n =? 247)%nat)
  then ascii_of_nat (n - 32) else a.

Fixpoint all_chars (p : ascii -> bool) (s : string) : bool :=
  match s with
  | EmptyString => true
  | String a t => p a && all_chars p t
  end.

(** [s.isdigit()]: false on the empty string. *)
Definition isdigit (s : string) : bool :=
  match s with
  | EmptyString => false
  | _ => all_chars is_digit_char s
  end.

(** A non-empty run of the decimal digits 0-9. *)
Definition decimal_string (s : string) : bool :=
  match s with
  | EmptyString => false
  | _ => all_chars is_decimal s
  end.

(** Truthiness of a str. *)
Definition truthy (s : string) : bool :=
  match s with EmptyString => false | _ => true end.

Fixpoint lstrip_by (p : ascii -> bool) (s : string) : string :=
  match s with
  | String a t => if p a then lstrip_by p t else s
  | EmptyString => EmptyString
  end.

Fixpoint rstrip_by (p : ascii -> bool) (s : string) : string :=
  match s with
  | EmptyString => EmptyString
  | String a t =>
      match rstrip_by p t with
      | EmptyString => if p a then EmptyString else String a EmptyString
      | t' => String a t'
      end
  end.

(** [s.strip()]. *)
Definition strip (s : string) : string := rstrip_by is_space (lstrip_by is_space s).

(** [len(s)]. *)
Definition len (s : string) : nat := String.length s.

(** [s[:n]] and [s[n:]] for [0 <= n]. *)
Fixpoint take (n : nat) (s : string) : string :=
  match n, s with
  | S n', String a t => String a (take n' t)
  | _, _ => EmptyString
  end.

Fixpoint drop (n : nat) (s : string) : string :=
  match n, s with
  | S n', String _ t => drop n' t
  | _, _ => s
  end.

(** [s[i:j]] for [0 <= i]. *)
Definition slice (i j : nat) (s : string) : string := take (j - i) (drop i s).

(** [str(n)] for an int. It raises beyond the limit of digits of [int] below;
    the ints printed here are counters, or lie between two results of [int],
    or come from [json.loads], which all stay within it. *)
Definition str_of_int (z : Z) : string := NilZero.string_of_int (Z.to_int z).

Definition digit_val (a : ascii) : Z := Z.of_nat (code a - 48).

Fixpoint digits_val (acc : Z) (s : string) : Z :=
  match s with
  | EmptyString => acc
  | String a t => digits_val (10 * acc + digit_val a) t
  end.

(** The digit part of an int literal: runs of decimal digits separated by
    single underscores. [after_digit] tells whether an underscore may come. *)
Fixpoint int_body_ok (after_digit : bool) (s : string) : bool :=
  match s with
  | EmptyString => after_digit
  | String a t =>
      if is_decimal a then int_body_ok true t
      else if (code a =? 95)%nat then after_digit && int_body_ok false t
      else false
  end.

Fixpoint drop_underscores (s : string) : string :=
  match s with
  | EmptyString => EmptyString
  | String a t =>
      if (code a =? 95)%nat then drop_underscores t else String a (drop_underscores t)
  end.

(** The default of [sys.int_max_str_digits] (CPython 3.11 and later, and the
    security releases of 3.7 to 3.10): [int] raises [ValueError] for a
    literal with more digits than this, leading zeros counted, underscores,
    sign and blanks not. *)
Definition int_max_str_digits : nat := 4300.

Definition int_unsigned (s : string) : option Z :=
  if int_body_ok false s then
    let digits := drop_underscores s in
    if (int_max_str_digits <? len digits)%nat then None
    else Some (digits_val 0 digits)
  else None.

(** The blanks [int] skips around the literal: the ASCII ones and the
    spaces beyond ASCII, but not the separators U+001C to U+001F. *)
Definition is_int_space (a : ascii) : bool :=
  between 9 13 (code a) || (code a =? 32)%nat
  || (code a =? 133)%nat || (code a =? 160)%nat.

(** [int(s)] in base 10: [None] stands for [ValueError], also the one for a
    literal over the limit of digits. *)
Definition int_of_str (s : string) : option Z :=
  match rstrip_by is_int_space (lstrip_by is_int_space s) with
  | String "+" t => int_unsigned t
  | String "-" t => option_map Z.opp (int_unsigned t)
  | t => int_unsigned t
  end.

End Py.

(** ** The [re] module: patterns and the backtracking matcher *)

Module Re.

(** Members of a bracketed class; [\d], [\s] and [\w] are one-member classes. *)
Inductive cls : Type :=
| CChar (a : ascii)
| CRange (lo hi : ascii)
| CDigit
| CSpace
| CWord.

(** Pattern syntax, as far as the patterns of the source use it. Quantifiers
    are greedy except [LazyStar]; [Group n] is the n-th capturing group;
    [Bound] is [\b]; [NotAhead] is [(?!...)]. *)
Inductive regex : Type :=
| Empty
| Str (s : string)
| Any
| Set_ (l : list cls)
| Cat (r1 r2 : regex)
| Or (r1 r2 : regex)
| Opt (r : regex)
| Star (r : regex)
| Plus (r : regex)
| LazyStar (r : regex)
| Repeat (lo hi : nat) (r : regex)
| Group (n : nat) (r : regex)
| Bound
| NotAhead (r : regex).

Record flags : Type := { ignorecase : bool; dotall : bool }.

(** A position in the subject: the character before it (for [\b]) and what
    is left to read. *)
Record cursor : Type := { prev : option ascii; rest : string }.

(** Captured groups, most recent binding first. *)
Definition caps : Type := list (nat * string).

Fixpoint lookup_cap (n : nat) (c : caps) : option string :=
  match c with
  | [] => None
  | (i, s) :: c' => if (i =? n)%nat then Some s else lookup_cap n c'
  end.

Definition in_cls_raw (cl : cls) (a : ascii) : bool :=
  match cl with
  | CChar b => Ascii.eqb a b
  | CRange lo hi => Py.between (Py.code lo) (Py.code hi) (Py.code a)
  | CDigit => Py.is_decimal a
  | CSpace => Py.is_space a
  | CWord => Py.is_word a
  end.

Definition in_cls (fl : flags) (cl : cls) (a : ascii) : bool :=
  in_cls_raw cl a
  || (ignorecase fl && (in_cls_raw cl (Py.lower a) || in_cls_raw cl (Py.upper a))).

Definition in_set (fl : flags) (l : list cls) (a : ascii) : bool :=
  existsb (fun cl => in_cls fl cl a) l.

Definition chr_eq (fl : flags) (a b : ascii) : bool :=
  if ignorecase fl then Ascii.eqb (Py.lower a) (Py.lower b) else Ascii.eqb a b.

Definition dot_ok (fl : flags) (a : ascii) : bool :=
  dotall fl || negb (Py.code a =? 10)%nat.

(** Read the literal [s] at the cursor. *)
Fixpoint eat (fl : flags) (s : string) (cu : cursor) : option cursor :=
  match s with
  | EmptyString => Some cu
  | String b s' =>
      match rest cu with
      | String a t =>
          if chr_eq fl a b then eat fl s' {| prev := Some a; rest := t |} else None
      | EmptyString => None
      end
  end.

Definition word_opt (o : option ascii) : bool :=
  match o with Some a => Py.is_word a | None => false end.

Definition next_char (cu : cursor) : option ascii :=
  match rest cu with String a _ => Some a | EmptyString => None end.

Definition at_boundary (cu : cursor) : bool :=
  xorb (word_opt (prev cu)) (word_opt (next_char cu)).

(** The text read between two cursors of one subject. *)
Definition taken (cu cu' : cursor) : string :=
  Py.take (Py.len (rest cu) - Py.len (rest cu')) (rest cu).

Definition advanced (cu cu' : cursor) : bool :=
  (Py.len (rest cu') <? Py.len (rest cu))%nat.

Definition mres : Type := (cursor * caps)%type.

Definition orelse (a b : option mres) : option mres :=
  match a with Some x => Some x | None => b end.

(** A matcher in continuation-passing style. *)
Definition matcher : Type :=
  (cursor -> caps -> option mres) -> cursor -> caps -> option mres.

(** Greedy [r*], at most [n] iterations: one more iteration first, the
    continuation otherwise. An iteration has to read at least one character. *)
Fixpoint star_loop (mr : matcher) (k : cursor -> caps -> option mres) (n : nat)
    (cu : cursor) (c : caps) {struct n} : option mres :=
  match n with
  | O => k cu c
  | S n' =>
      orelse
        (mr (fun cu' c' => if advanced cu cu' then star_loop mr k n' cu' c' else None) cu c)
        (k cu c)
  end.

(** Lazy [r*?]: the continuation first. *)
Fixpoint lazy_loop (mr : matcher) (k : cursor -> caps -> option mres) (n : nat)
    (cu : cursor) (c : caps) {struct n} : option mres :=
  match n with
  | O => k cu c
  | S n' =>
      orelse
        (k cu c)
        (mr (fun cu' c' => if advanced cu cu' then lazy_loop mr k n' cu' c' else None) cu c)
  end.

(** Greedy [r{lo,hi}]: [n] iterations are still allowed, [count] are done. *)
Fixpoint rep_loop (mr : matcher) (k : cursor -> caps -> option mres) (lo n count : nat)
    (cu : cursor) (c : caps) {struct n} : option mres :=
  match n with
  | O => if (count <? lo)%nat then None else k cu c
  | S n' =>
      if (count <? lo)%nat
      then mr (fun cu' c' => rep_loop mr k lo n' (S count) cu' c') cu c
      else orelse (mr (fun cu' c' => rep_loop mr k lo n' (S count) cu' c') cu c) (k cu c)
  end.

Section Matcher.

Variable fl : flags.

(** [m r k cu c]: match [r] at [cu] with captures [c], then run the
    continuation [k] on where the match ended; alternatives are tried in the
    order of a backtracking engine, and the first success is returned. The
    number of iterations of a star is bounded by the length of what is left
    to read, which is no restriction as each iteration reads a character. *)
Fixpoint m (r : regex) (k : cursor -> caps -> option mres)
    (cu : cursor) (c : caps) {struct r} : option mres :=
  match r with
  | Empty => k cu c
  | Str s =>
      match eat fl s cu with Some cu' => k cu' c | None => None end
  | Any =>
      match rest cu with
      | String a t =>
          if dot_ok fl a then k {| prev := Some a; rest := t |} c else None
      | EmptyString => None
      end
  | Set_ l =>
      match rest cu with
      | String a t =>
          if in_set fl l a then k {| prev := Some a; rest := t |} c else None
      | EmptyString => None
      end
  | Cat r1 r2 => m r1 (fun cu' c' => m r2 k cu' c') cu c
  | Or r1 r2 => orelse (m r1 k cu c) (m r2 k cu c)
  | Opt r1 => orelse (m r1 k cu c) (k cu c)
  | Star r1 => star_loop (m r1) k (Py.len (rest cu)) cu c
  | Plus r1 => m r1 (fun cu1 c1 => star_loop (m r1) k (Py.len (rest cu1)) cu1 c1) cu c
  | LazyStar r1 => lazy_loop (m r1) k (Py.len (rest cu)) cu c
  | Repeat lo hi r1 => rep_loop (m r1) k lo hi 0 cu c
  | Group n r1 => m r1 (fun cu' c' => k cu' ((n, taken cu cu') :: c')) cu c
  | Bound => if at_boundary cu then k cu c else None
  | NotAhead r1 =>
      match m r1 (fun cu' c' => Some (cu', c')) cu c with
      | Some _ => None
      | None => k cu c
      end
  end.

Definition match_here (r : regex) (cu : cursor) : option mres :=
  m r (fun cu' c' => Some (cu', c')) cu [].

End Matcher.

(** A match object: its span and its groups. *)
Record Match : Type := { m_start : nat; m_end : nat; m_caps : caps }.

(** [match.group(i)]: [None] when the group took no part in the match. *)
Definition group (mt : Match) (i : nat) : option string := lookup_cap i (m_caps mt).

(** Leftmost match at or after the cursor, which stands at offset [pos];
    returned with the cursor at its end. *)
Fixpoint search_from (fl : flags) (r : regex) (pos : nat) (pv : option ascii)
    (s : string) {struct s} : option (Match * cursor) :=
  match match_here fl r {| prev := pv; rest := s |} with
  | Some (cu', c) =>
      Some ({| m_start := pos; m_end := pos + (Py.len s - Py.len (rest cu')); m_caps := c |}, cu')
  | None =>
      match s with
      | EmptyString => None
      | String a t => search_from fl r (S pos) (Some a) t
      end
  end.

(** [re.search(r, s, flags)]. *)
Definition search (fl : flags) (r : regex) (s : string) : option Match :=
  option_map fst (search_from fl r 0 None s).

(** The matches of [re.finditer]: leftmost first, not overlapping. After an
    empty match the scan resumes one character further. *)
Fixpoint finditer_from (fuel : nat) (fl : flags) (r : regex) (pos : nat)
    (pv : option ascii) (s : string) {struct fuel} : list Match :=
  match fuel with
  | O => []
  | S fuel' =>
      match search_from fl r pos pv s with
      | None => []
      | Some (mt, cu') =>
          mt ::
          (if (m_start mt <? m_end mt)%nat
           then finditer_from fuel' fl r (m_end mt) (prev cu') (rest cu')
           else match rest cu' with
                | EmptyString => []
                | String a t => finditer_from fuel' fl r (S (m_end mt)) (Some a) t
                end)
      end
  end.

Definition finditer (fl : flags) (r : regex) (s : string) : list Match :=
  finditer_from (S (Py.len s)) fl r 0 None s.

(** [re.sub(r, repl, s, flags)] for a replacement without group references:
    the text between the matches, with [repl] in place of each match. *)
Fixpoint splice (repl : string) (pos : nat) (s : string) (ms : list Match) : string :=
  match ms with
  | [] => s
  | mt :: ms' =>
      Py.take (m_start mt - pos) s ++ repl
      ++ splice repl (m_end mt) (Py.drop (m_end mt - pos) s) ms'
  end.

Definition sub (fl : flags) (r : regex) (repl : string) (s : string) : string :=
  splice repl 0 s (finditer fl r s).

(** Pattern-building helpers. *)
Definition seq (l : list regex) : regex := fold_right Cat Empty l.
Definition d : regex := Set_ [CDigit].
Definition s : regex := Set_ [CSpace].
Definition w : regex := Set_ [CWord].
Definition I : flags := {| ignorecase := true; dotall := false |}.
Definition IS : flags := {| ignorecase := true; dotall := true |}.
Definition S_ : flags := {| ignorecase := false; dotall := true |}.

End Re.

(** ** Exceptions that leave a function *)

(** The built-in exceptions the model meets, and those of [requests]:
    [HTTPError] is what [raise_for_status] raises, [RequestException] stands
    for the remaining ones of the library. *)
Inductive exn : Type :=
| TypeError
| AttributeError
| KeyError
| Timeout
| ConnectionError
| HTTPError
| RequestException.

Inductive raising (A : Type) : Type :=
| Ret (x : A)
| Raise (e : exn).

Arguments Ret {A} x.
Arguments Raise {A} e.

Definition bind {A B : Type} (x : raising A) (f : A -> raising B) : raising B :=
  match x with
  | Ret a => f a
  | Raise e => Raise e
  end.

Notation "'do' x <- e ; k" := (bind e (fun x => k))
  (at level 10, x name, e at level 100, k at level 200).

(** A [for] loop whose body may raise. *)
Fixpoint for_each {A S : Type} (body : A -> S -> raising S) (l : list A) (st : S)
    : raising S :=
  match l with
  | [] => Ret st
  | x :: l' => do st' <- body x st; for_each body l' st'
  end.

(** [x.strip()] and [x.isdigit()] on the result of [match.group]: on [None]
    they raise [AttributeError]; [int(None)] raises [TypeError]. *)
Definition strip_of (g : option string) : raising string :=
  match g with
  | Some x => Ret (Py.strip x)
  | None => Raise AttributeError
  end.

(** ** The pattern table of [logic.py] *)

Module Pat.
Import Re.

Definition u_acute : ascii := "250"%char.
Definition degree : ascii := "176"%char.

(** [(?:Escritura|Esc)\s*(?:P[úu]blica)?\s*] *)
Definition escritura_head : regex :=
  seq [Or (Str "Escritura") (Str "Esc"); Star s;
       Opt (seq [Str "P"; Set_ [CChar u_acute; CChar "u"]; Str "blica"]); Star s].

(** [Acta\s+Fuera\s+de\s+Protocolo\s+] *)
Definition acta_head : regex :=
  seq [Str "Acta"; Plus s; Str "Fuera"; Plus s; Str "de"; Plus s; Str "Protocolo"; Plus s].

(** [Acta(?:s)?\s+Fuera\s+de\s+Protocolo\s+] *)
Definition actas_head : regex :=
  seq [Str "Acta"; Opt (Str "s"); Plus s; Str "Fuera"; Plus s; Str "de"; Plus s;
       Str "Protocolo"; Plus s].

(** [N[uú]meros?] *)
Definition numeros : regex :=
  seq [Str "N"; Set_ [CChar "u"; CChar u_acute]; Str "mero"; Opt (Str "s")].

(** [(?:N[uú]meros?|Nos.?|N°)] *)
Definition numeros_nos : regex :=
  Or (Or numeros (seq [Str "Nos"; Opt Any])) (Str (String "N" (String degree ""))).

(** [(?:N[uú]mero|No.?|N°)?] *)
Definition numero_no_opt : regex :=
  Opt (Or (Or (seq [Str "N"; Set_ [CChar "u"; CChar u_acute]; Str "mero"])
              (seq [Str "No"; Opt Any]))
          (Str (String "N" (String degree "")))).

(** [(\d+)\s+KW\s+(\d+)\b] *)
Definition pair_of (kw : string) : regex :=
  seq [Group 1 (Plus d); Plus s; Str kw; Plus s; Group 2 (Plus d); Bound].

Definition REGEX_ESCRITURA_RANGE : regex :=
  seq [escritura_head; numeros_nos; Plus s; pair_of "A"].

Definition REGEX_ACTA_RANGE : regex :=
  seq [actas_head; numeros_nos; Plus s; pair_of "A"].

Definition REGEX_ACTA_RANGE_AL : regex :=
  seq [actas_head; numeros; Plus s; pair_of "AL"].

Definition REGEX_ESCRITURA_LIST_Y : regex :=
  seq [escritura_head; numeros_nos; Plus s; pair_of "Y"].

Definition REGEX_ACTA_LIST_Y : regex :=
  seq [actas_head; numeros_nos; Plus s; pair_of "Y"].

(** [(?:/(\d+))?] *)
Definition slash_group (n : nat) : regex := Opt (seq [Str "/"; Group n (Plus d)]).

Definition REGEX_ACTA_SPECIAL : regex :=
  seq [acta_head; Str "N"; Set_ [CChar "u"; CChar u_acute]; Str "mero"; Plus s;
       Group 1 (Plus d);
       slash_group 2; slash_group 3; slash_group 4; slash_group 5; slash_group 6;
       slash_group 7; slash_group 8; slash_group 9; slash_group 10; Bound].

(** [\s*[-:\s]?\s*(\d+)\b] *)
Definition single_tail : regex :=
  seq [Star s; Opt (Set_ [CChar "-"; CChar ":"; CSpace]); Star s; Group 1 (Plus d); Bound].

Definition REGEX_ESCRITURA_SINGLE : regex :=
  seq [escritura_head; numero_no_opt; single_tail;
       NotAhead (seq [Plus s; Str "A"; Plus s; Plus d]);
       NotAhead (Str "/")].

Definition REGEX_ACTA_SINGLE : regex :=
  seq [acta_head; numero_no_opt; single_tail;
       NotAhead (seq [Plus s; Or (Str "A") (Str "AL"); Plus s; Plus d])].

(** [Instrumentos\s*-\s*] *)
Definition instrumentos : regex := seq [Str "Instrumentos"; Star s; Str "-"; Star s].

(** [Act(?:a)?\s+] *)
Definition act : regex := seq [Str "Act"; Opt (Str "a"); Plus s].

(** [(?:\s*,\s*(\d+))?] *)
Definition comma_group (n : nat) : regex :=
  Opt (seq [Star s; Str ","; Star s; Group n (Plus d)]).

(** [(?:\s*,\s*(?:LABEL)?(\d+))?] *)
Definition comma_label_group (label : regex) (n : nat) : regex :=
  Opt (seq [Star s; Str ","; Star s; Opt label; Group n (Plus d)]).

Definition REGEX_INSTRUMENTOS_ESC_SINGLE : regex :=
  seq [instrumentos; Str "Esc"; Plus s; Group 1 (Plus d); Bound;
       NotAhead (seq [Star s; Str ","])].

Definition REGEX_INSTRUMENTOS_ESC_COMMA : regex :=
  seq [instrumentos; Str "Esc"; Plus s; Group 1 (Plus d);
       Opt (seq [Star s; Str ","; Star s; Str "Esc"; Plus s; Group 2 (Plus d)]);
       comma_group 3; comma_group 4; comma_group 5].

Definition REGEX_INSTRUMENTOS_ACT_SINGLE : regex :=
  seq [instrumentos; act; Group 1 (Plus d); Bound; NotAhead (seq [Star s; Str ","])].

Definition REGEX_INSTRUMENTOS_ACT_COMMA : regex :=
  seq [instrumentos; act; Group 1 (Plus d);
       Opt (seq [Star s; Str ","; Star s; act; Group 2 (Plus d)]);
       comma_group 3; comma_group 4; comma_group 5].

Definition REGEX_INSTRUMENTOS_COMBINED : regex :=
  seq [instrumentos;
       Opt (seq [Str "Esc"; Plus s; Group 1 (Plus d);
                 comma_label_group (seq [Str "Esc"; Plus s]) 2;
                 comma_label_group (seq [Str "Esc"; Plus s]) 3]);
       Opt (seq [Star s; Str ","; Star s; act; Group 4 (Plus d);
                 comma_label_group act 5;
                 comma_label_group act 6])].

Definition REGEX_FOLIO_DBA : regex :=
  seq [Bound; Str "Serie"; s; Opt (Str "RP"); s; Str "Folio"; s; Group 1 (Plus d); Bound].

Definition REGEX_FOLIO_DBA_ALT : regex :=
  seq [Str "DATOS"; Plus s; Str "CFDI"; Opt Any; Str "Folio:"; s; Group 1 (Plus d)].

Definition REGEX_FOLIO_TOTALNOT : regex :=
  seq [Str "Folio"; Plus s; Str "interno:"; Star s; Group 1 (Plus w); Bound].

Definition REGEX_FOLIO_DBA_FILENAME : regex :=
  seq [Str "_"; Group 1 (Repeat 1 5 d); Str "_"].

(** The two patterns local to the CONTPAQ branch of [find_folio]. *)
Definition contpaq_simple_pattern : regex :=
  seq [Bound; Str "FOLIO:"; Star s; Group 1 (Plus w); Bound].

Definition folio_fiscal_pattern : regex :=
  seq [Bound; Str "Folio"; Plus s; Str "fiscal"; Bound].

(** [\d{1,2}/\d{1,2}/\d{2,4}] *)
Definition date : regex :=
  seq [Repeat 1 2 d; Str "/"; Repeat 1 2 d; Str "/"; Repeat 2 4 d].

(** [exclude_patterns] of [find_references_dba]. *)
Definition exclude_patterns : list regex :=
  [seq [Str "Fecha"; Plus s; Opt (seq [Str "de"; Plus s]); Str "Escritura"; Star s;
        Str ":"; Star s; date];
   seq [Str "Fecha"; Plus s; Opt (seq [Str "de"; Plus s]); Str "Acta"; Star s;
        Str ":"; Star s; date]].

(** [len(match.groups())]: the number of capturing groups of the pattern. *)
Fixpoint ngroups (r : regex) : nat :=
  match r with
  | Cat r1 r2 | Or r1 r2 => ngroups r1 + ngroups r2
  | Opt r1 | Star r1 | Plus r1 | LazyStar r1 | Repeat _ _ r1 | NotAhead r1 => ngroups r1
  | Group _ r1 => S (ngroups r1)
  | _ => 0
  end.

End Pat.

(** ** [logic.py]: Folio resolver *)

Import Pat.

(** The three values [find_folio] returns in place of a Folio. *)
Definition NOT_FOUND : string := "NOT_FOUND".
Definition FOLIO_FISCAL_SUSPECTED : string := "FOLIO_FISCAL_SUSPECTED".

(** Truthiness of a value that is a str or [None]. *)
Definition truthy_opt (o : option string) : bool :=
  match o with Some x => Py.truthy x | None => false end.

(** The DBA branch, first half: the Folio embedded in the file name. *)
Definition folio_from_filename (filename : option string) : raising (option string) :=
  match filename with
  | Some fn =>
      if Py.truthy fn then
        match Re.search Re.I REGEX_FOLIO_DBA_FILENAME fn with
        | Some filename_match =>
            match Re.group filename_match 1 with
            | Some folio_candidate =>
                if Py.isdigit folio_candidate && (Py.len folio_candidate <? 20)%nat
                then Ret (Some folio_candidate)
                else Ret None
            | None => Raise AttributeError
            end
        | None => Ret None
        end
      else Ret None
  | None => Ret None
  end.

(** The DBA branch, second half: the two text patterns. *)
Definition folio_from_dba_text (text : string) : option string :=
  match Re.search Re.I REGEX_FOLIO_DBA text with
  | Some mt => Re.group mt 1
  | None =>
      match Re.search Re.IS REGEX_FOLIO_DBA_ALT text with
      | Some match_alt => Re.group match_alt 1
      | None => None
      end
  end.

(** [preceding_text = text[max(0, start_index - 30) : start_index]] *)
Definition preceding_text (text : string) (start_index : nat) : string :=
  Py.slice (start_index - 30) start_index text.

(** The test of the CONTPAQ loop: no "Folio fiscal" right before the match. *)
Definition not_after_folio_fiscal (text : string) (mt : Re.Match) : bool :=
  match Re.search Re.I folio_fiscal_pattern (preceding_text text (Re.m_start mt)) with
  | Some _ => false
  | None => true
  end.

(** [for match in reversed(matches): if ...: candidate_folio = ...; break] *)
Fixpoint contpaq_scan (text : string) (reversed_matches : list Re.Match) : option string :=
  match reversed_matches with
  | [] => None
  | mt :: others =>
      if not_after_folio_fiscal text mt then Re.group mt 1
      else contpaq_scan text others
  end.

Definition contpaq_candidate (text : string) : option string :=
  let matches := Re.finditer Re.I contpaq_simple_pattern text in
  let candidate_folio := contpaq_scan text (rev matches) in
  if truthy_opt candidate_folio then candidate_folio else None.

(** The value of the variable [folio] when the "Final Checks" are reached;
    [text] is known to be usable for the types other than DBA. *)
Definition folio_before_checks (text : option string) (invoice_type : string)
    (filename : option string) : raising (option string) :=
  if String.eqb invoice_type "DBA" then
    do folio <- folio_from_filename filename;
    if negb (truthy_opt folio) && truthy_opt text
    then Ret (match text with Some t => folio_from_dba_text t | None => None end)
    else Ret folio
  else if String.eqb invoice_type "TOTALNOT" then
    match text with
    | Some t =>
        if Py.truthy t then
          match Re.search Re.I REGEX_FOLIO_TOTALNOT t with
          | Some mt => Ret (Re.group mt 1)
          | None => Ret None
          end
        else Ret None
    | None => Ret None
    end
  else if String.eqb invoice_type "CONTPAQ" then
    match text with
    | Some t => if Py.truthy t then Ret (contpaq_candidate t) else Ret None
    | None => Ret None
    end
  else Ret None.

(** "Final Checks & Return". *)
Definition final_checks (folio : option string) : string :=
  match folio with
  | Some f =>
      if Py.truthy f && (20 <? Py.len f)%nat then FOLIO_FISCAL_SUSPECTED
      else if negb (Py.truthy f) then NOT_FOUND
      else f
  | None => NOT_FOUND
  end.

Definition find_folio (text : option string) (invoice_type : string)
    (filename : option string) : raising string :=
  if negb (truthy_opt text) && negb (String.eqb invoice_type "DBA") then Ret NOT_FOUND
  else
    do folio <- folio_before_checks text invoice_type filename;
    Ret (final_checks folio).

(** ** [logic.py]: reference extractors *)

(** A reference: the dict [{"Type": ..., "Number": ...}]. *)
Record Ref : Type := { Type_ : string; Number : string }.

#[global] Instance Ref_eq_dec : EqDecision Ref.
Proof. solve_decision. Defined.

(** The two rows of every pattern table pair a type name with one of the
    two sets of claimed numbers; [category] names the pair. *)
Inductive category : Type := Escritura | Acta.

Definition type_name (c : category) : string :=
  match c with
  | Escritura => "Escritura"
  | Acta => "Acta Fuera de Protocolo"
  end.

(** The mutable locals of a reference finder. *)
Record state : Type := {
  references : list Ref;
  found_escritura_numbers : gset string;
  found_acta_numbers : gset string
}.

Definition initial : state :=
  {| references := []; found_escritura_numbers := ∅; found_acta_numbers := ∅ |}.

Definition found_set (c : category) (st : state) : gset string :=
  match c with
  | Escritura => found_escritura_numbers st
  | Acta => found_acta_numbers st
  end.

(** [references.append({"Type": type_name, "Number": num_str});
     found_set.add(num_str)] *)
Definition append_ref (c : category) (num_str : string) (st : state) : state :=
  let item := {| Type_ := type_name c; Number := num_str |} in
  match c with
  | Escritura =>
      {| references := (references st ++ [item])%list;
         found_escritura_numbers := found_escritura_numbers st ∪ {[num_str]};
         found_acta_numbers := found_acta_numbers st |}
  | Acta =>
      {| references := (references st ++ [item])%list;
         found_escritura_numbers := found_escritura_numbers st;
         found_acta_numbers := found_acta_numbers st ∪ {[num_str]} |}
  end.

(** [if num_str not in found_set: append; add] *)
Definition claim (c : category) (num_str : string) (st : state) : state :=
  if bool_decide (num_str ∈ found_set c st) then st else append_ref c num_str st.

(** [if num_str and num_str.isdigit() and num_str not in found_set: ...] *)
Definition accept (c : category) (num_str : string) (st : state) : state :=
  if Py.truthy num_str && Py.isdigit num_str then claim c num_str st else st.

(** [for i in idxs: if match.group(i): num_str = match.group(i).strip(); ...] *)
Definition accept_groups (c : category) (mt : Re.Match) (idxs : list nat) (st : state)
    : state :=
  fold_left
    (fun st i => if truthy_opt (Re.group mt i)
                 then match Re.group mt i with
                      | Some g => accept c (Py.strip g) st
                      | None => st
                      end
                 else st)
    idxs st.

(** [range(a, b)] *)
Definition py_range (a b : Z) : list Z :=
  map (fun i => (a + Z.of_nat i)%Z) (seq 0 (Z.to_nat (b - a))).

(** [for num in range(start, end + 1): num_str = str(num); ...] *)
Definition expand (c : category) (start end_ : Z) (st : state) : state :=
  fold_left (fun st num => claim c (Py.str_of_int num) st) (py_range start (end_ + 1)) st.

(** The range branch. [int] of a group that is [None] raises [TypeError],
    which the [except (ValueError, IndexError)] clause lets through; a
    [ValueError] is caught, and nothing has been appended by then. *)
Definition range_step (c : category) (mt : Re.Match) (st : state) : raising state :=
  match Re.group mt 1 with
  | None => Raise TypeError
  | Some g1 =>
      match Py.int_of_str g1 with
      | None => Ret st
      | Some start =>
          match Re.group mt 2 with
          | None => Raise TypeError
          | Some g2 =>
              match Py.int_of_str g2 with
              | None => Ret st
              | Some end_ => Ret (if (start <=? end_)%Z then expand c start end_ st else st)
              end
          end
      end
  end.

(** The list ("Y") branch. *)
Definition list_step (c : category) (mt : Re.Match) (st : state) : raising state :=
  do num1_str <- strip_of (Re.group mt 1);
  let st1 := accept c num1_str st in
  do num2_str <- strip_of (Re.group mt 2);
  Ret (accept c num2_str st1).

(** The special branch of [find_references_dba]: every group. *)
Definition special_step_all (r : Re.regex) (c : category) (mt : Re.Match) (st : state)
    : raising state :=
  Ret (accept_groups c mt (seq 1 (ngroups r)) st).

(** The special branch of the other two finders: group 1 only. *)
Definition special_step_first (c : category) (mt : Re.Match) (st : state) : raising state :=
  do num_str <- strip_of (Re.group mt 1);
  Ret (accept c num_str st).

(** A row [(pattern, type_name, found_set, is_range, *special)]. *)
Record entry : Type := {
  pattern : Re.regex;
  cat : category;
  is_range : bool;
  special : bool
}.

Definition patterns_and_types : list entry :=
  [ {| pattern := REGEX_ESCRITURA_RANGE; cat := Escritura; is_range := true; special := false |};
    {| pattern := REGEX_ACTA_RANGE; cat := Acta; is_range := true; special := false |};
    {| pattern := REGEX_ACTA_RANGE_AL; cat := Acta; is_range := true; special := false |};
    {| pattern := REGEX_ESCRITURA_LIST_Y; cat := Escritura; is_range := false; special := false |};
    {| pattern := REGEX_ACTA_LIST_Y; cat := Acta; is_range := false; special := false |};
    {| pattern := REGEX_ACTA_SPECIAL; cat := Acta; is_range := false; special := true |} ].

(** The body of the loop over the matches of one row; [all_groups] is the
    one difference between the DBA finder and the other two. *)
Definition standard_step (all_groups : bool) (e : entry) (mt : Re.Match) (st : state)
    : raising state :=
  if is_range e then range_step (cat e) mt st
  else if special e then
    if all_groups then special_step_all (pattern e) (cat e) mt st
    else special_step_first (cat e) mt st
  else list_step (cat e) mt st.

Definition standard_pass (all_groups : bool) (text : string) (st : state) : raising state :=
  for_each
    (fun e st => for_each (standard_step all_groups e) (Re.finditer Re.I (pattern e) text) st)
    patterns_and_types st.

Definition single_patterns : list (Re.regex * category) :=
  [ (REGEX_ESCRITURA_SINGLE, Escritura); (REGEX_ACTA_SINGLE, Acta) ].

(** [potential_singles] of one single pattern. *)
Definition potential_singles (ms : list Re.Match) : raising (list string) :=
  for_each
    (fun mt acc =>
       do num_candidate <- strip_of (Re.group mt 1);
       Ret (if Py.truthy num_candidate && Py.isdigit num_candidate
            then (acc ++ [num_candidate])%list else acc))
    ms [].

Definition singles_pass (text : string) (st : state) : raising state :=
  for_each
    (fun '(pat, c) st =>
       do singles <- potential_singles (Re.finditer Re.I pat text);
       Ret (fold_left (fun st num_str => claim c num_str st) singles st))
    single_patterns st.

(** [sort_key]: the number is [None] for [float('inf')]. *)
Definition sort_key (item : Ref) : string * option Z :=
  (Type_ item, Py.int_of_str (Number item)).

Definition num_le (a b : option Z) : bool :=
  match a, b with
  | Some x, Some y => (x <=? y)%Z
  | _, None => true
  | None, Some _ => false
  end.

(** Order of the key tuples: by str, then by number. *)
Definition key_le (k1 k2 : string * option Z) : bool :=
  match String.compare (fst k1) (fst k2) with
  | Lt => true
  | Eq => num_le (snd k1) (snd k2)
  | Gt => false
  end.

(** [list.sort(key=...)] is a stable sort: an item goes after the items
    whose key is not greater. *)
Fixpoint insert_by {A K : Type} (le : K -> K -> bool) (key : A -> K) (x : A) (l : list A)
    : list A :=
  match l with
  | [] => [x]
  | y :: l' => if le (key y) (key x) then y :: insert_by le key x l' else x :: l
  end.

Definition sort_by {A K : Type} (le : K -> K -> bool) (key : A -> K) (l : list A) : list A :=
  fold_left (fun acc x => insert_by le key x acc) l [].

Definition sort_references (refs : list Ref) : list Ref := sort_by key_le sort_key refs.

(** The Instrumentos rows of [find_references_dba]. *)
Definition instrumentos_patterns : list (Re.regex * category) :=
  [ (REGEX_INSTRUMENTOS_ESC_SINGLE, Escritura);
    (REGEX_INSTRUMENTOS_ESC_COMMA, Escritura);
    (REGEX_INSTRUMENTOS_ACT_SINGLE, Acta);
    (REGEX_INSTRUMENTOS_ACT_COMMA, Acta) ].

Definition instrumentos_pass (text : string) (st : state) : state :=
  fold_left
    (fun st '(pat, c) =>
       fold_left (fun st mt => accept_groups c mt (seq 1 (ngroups pat)) st)
                 (Re.finditer Re.I pat text) st)
    instrumentos_patterns st.

Definition combined_pass (text : string) (st : state) : state :=
  fold_left
    (fun st mt => accept_groups Acta mt [4; 5; 6] (accept_groups Escritura mt [1; 2; 3] st))
    (Re.finditer Re.I REGEX_INSTRUMENTOS_COMBINED text) st.

Definition text_for_processing (text : string) : string :=
  fold_left (fun t pat => Re.sub Re.I pat "EXCLUDED_DATE" t) exclude_patterns text.

Definition find_references_dba (text : string) : raising (list Ref) :=
  if negb (Py.truthy text) then Ret []
  else
    let t := text_for_processing text in
    let st := combined_pass t (instrumentos_pass t initial) in
    do st <- standard_pass true t st;
    do st <- singles_pass t st;
    Ret (sort_references (references st)).

Definition find_references_totalnot (text : string) : raising (list Ref) :=
  if negb (Py.truthy text) then Ret []
  else
    do st <- standard_pass false text initial;
    do st <- singles_pass text st;
    Ret (sort_references (references st)).

Definition find_references_contpaq (text : string) : raising (list Ref) :=
  if negb (Py.truthy text) then Ret []
  else
    do st <- standard_pass false text initial;
    do st <- singles_pass text st;
    Ret (sort_references (references st)).

(** ** [logic.py]: record assembler *)

(** An output row: the dict with the keys "Document Type", "Reference
    Number", "Invoice Folio", "Source PDF" and "Full PDF Path". *)
Record Row : Type := {
  Document_Type : string;
  Reference_Number : string;
  Invoice_Folio : string;
  Source_PDF : string;
  Full_PDF_Path : string
}.

Definition mem_str (x : string) (l : list string) : bool :=
  existsb (String.eqb x) l.

Definition is_none {A : Type} (o : option A) : bool :=
  match o with None => true | Some _ => false end.

Definition is_nil {A : Type} (l : list A) : bool :=
  match l with [] => true | _ => false end.

Section Assembler.

(** The two calls that reach outside the program: [os.path.basename] and
    [extract_text_from_pdf], which returns the text or [None]. *)
Variable basename : string -> string.
Variable extract_text_from_pdf : string -> option string.

(** The dispatch on [invoice_type] under [if text:]. *)
Definition references_for (text : option string) (invoice_type : string)
    : raising (list Ref) :=
  match text with
  | Some t =>
      if Py.truthy t then
        if String.eqb invoice_type "DBA" then find_references_dba t
        else if String.eqb invoice_type "TOTALNOT" then find_references_totalnot t
        else if String.eqb invoice_type "CONTPAQ" then find_references_contpaq t
        else Ret []
      else Ret []
  | None => Ret []
  end.

(** "Assemble Output Rows": cases 1 to 3, then the catch-all. *)
Definition assemble (pdf_path filename invoice_type : string) (text : option string)
    (folio : string) (references : list Ref) : list Row :=
  let row ty num fo :=
    {| Document_Type := ty; Reference_Number := num; Invoice_Folio := fo;
       Source_PDF := filename; Full_PDF_Path := pdf_path |} in
  let output_rows :=
    if is_none text && String.eqb invoice_type "DBA"
       && negb (mem_str folio [NOT_FOUND; "ERROR"; FOLIO_FISCAL_SUSPECTED])
    then [row "N/A" "TEXT_EXTRACTION_FAILED" folio]
    else if negb (is_none text) && is_nil references
    then [row "N/A" "N/A" folio]
    else if negb (is_nil references)
    then map (fun ref => row (Type_ ref) (Number ref) folio) references
    else [] in
  if is_nil output_rows && is_none text && mem_str folio [NOT_FOUND; "ERROR"]
  then
    let err_ref_num := if is_none text then "Text Extraction Failed" else "Processing Error" in
    let err_folio := if String.eqb folio NOT_FOUND then folio else "ERROR" in
    (output_rows ++ [row "ERROR" err_ref_num err_folio])%list
  else if is_nil output_rows
  then (output_rows ++ [row "N/A" "N/A" folio])%list
  else output_rows.

Definition process_single_pdf (pdf_path invoice_type : string) : raising (list Row) :=
  let filename := basename pdf_path in
  let text := extract_text_from_pdf pdf_path in
  if is_none text && negb (String.eqb invoice_type "DBA")
  then Ret [ {| Document_Type := "ERROR"; Reference_Number := "Text Extraction Failed";
                Invoice_Folio := "ERROR"; Source_PDF := filename;
                Full_PDF_Path := pdf_path |} ]
  else
    do folio <- find_folio text invoice_type (Some filename);
    do references <- references_for text invoice_type;
    Ret (assemble pdf_path filename invoice_type text folio references).

End Assembler.

(** ** [pdf_processor.py]: the fallback oracle client *)

(** What [json.loads] and [response.json()] return: [None], a bool, an int,
    a float (kept as the text [str] prints for it), a str, a list or a dict
    (its items in order, keys distinct). *)
#[warnings="-register-all"]
Inductive json : Type :=
| JNull
| JBool (b : bool)
| JInt (z : Z)
| JFloat (shown : string)
| JStr (s : string)
| JArr (items : list json)
| JObj (members : list (string * json)).

(** The dict returned by [query_llm_for_details]. *)
Record validated : Type := {
  folio_number : string;
  document_type : string;
  document_id : string
}.

(** The parts of the request that vary: the truncated text and the hint. *)
Record request : Type := { truncated_text : string; filename_hint : string }.

(** [```json\s*(\{.*?\})\s*```] and [(\{.*?\})] *)
Definition fenced_json_pattern : Re.regex :=
  Re.seq [Re.Str "```json"; Re.Star Re.s;
          Re.Group 1 (Re.seq [Re.Str "{"; Re.LazyStar Re.Any; Re.Str "}"]);
          Re.Star Re.s; Re.Str "```"].

Definition braces_pattern : Re.regex :=
  Re.Group 1 (Re.seq [Re.Str "{"; Re.LazyStar Re.Any; Re.Str "}"]).

(** Truthiness of a JSON value. *)
Definition truthy_json (v : json) : bool :=
  match v with
  | JNull => false
  | JBool b => b
  | JInt z => negb (z =? 0)%Z
  | JFloat shown => negb (mem_str shown ["0.0"; "-0.0"])
  | JStr x => Py.truthy x
  | JArr items => negb (is_nil items)
  | JObj members => negb (is_nil members)
  end.

(** [d.get(key)] on a dict. *)
Fixpoint dict_get (members : list (string * json)) (key : string) : option json :=
  match members with
  | [] => None
  | (k, v) :: members' => if String.eqb k key then Some v else dict_get members' key
  end.

(** [s.lower()] *)
Fixpoint lower_str (x : string) : string :=
  match x with
  | EmptyString => EmptyString
  | String a t => String (Py.lower a) (lower_str t)
  end.

(** [{k.lower(): k for k in keys}.get(req_key)]: the last key wins. *)
Fixpoint keys_lower_get (keys : list string) (req_key : string) : option string :=
  match keys with
  | [] => None
  | k :: keys' =>
      match keys_lower_get keys' req_key with
      | Some k' => Some k'
      | None => if String.eqb (lower_str k) req_key then Some k else None
      end
  end.

Definition allowed_types : list string :=
  ["Escritura"; "Acta Fuera de Protocolo"; "Both"; "N/A"].

(** The whitelist on [document_type]. *)
Definition check_type (v : validated) : validated :=
  if mem_str (document_type v) allowed_types then v
  else {| folio_number := folio_number v; document_type := "N/A";
          document_id := document_id v |}.

(** "If type is N/A, ID should also be N/A"; a type without an ID is only
    logged. *)
Definition check_id (v : validated) : validated :=
  if String.eqb (document_type v) "N/A" then
    if negb (String.eqb (document_id v) "N/A")
    then {| folio_number := folio_number v; document_type := document_type v;
            document_id := "N/A" |}
    else v
  else v.

Section OracleClient.

(** The library calls: [json.loads] ([None] for [JSONDecodeError]); [str] of
    a list or dict; and the exchange [requests.post], [raise_for_status],
    [response.json()], which returns the decoded body or raises. *)
Variable json_loads : string -> option json.
Variable str_of_container : json -> string.
Variable send : request -> raising json.

(** [str(v)] *)
Definition str_of (v : json) : string :=
  match v with
  | JNull => "None"
  | JBool true => "True"
  | JBool false => "False"
  | JInt z => Py.str_of_int z
  | JFloat shown => shown
  | JStr x => x
  | JArr _ | JObj _ => str_of_container v
  end.

(** The loop over [required_keys]: the value of one key, or "N/A". *)
Definition required (members : list (string * json)) (req_key : string) : string :=
  match keys_lower_get (map fst members) req_key with
  | Some original_key =>
      if Py.truthy original_key then
        match dict_get members original_key with
        | Some JNull | None => "N/A"
        | Some v =>
            let value := Py.strip (str_of v) in
            if Py.truthy value then value else "N/A"
        end
      else "N/A"
  | None => "N/A"
  end.

Definition required_fields (members : list (string * json)) : validated :=
  {| folio_number := required members "folio_number";
     document_type := required members "document_type";
     document_id := required members "document_id" |}.

(** "Validation and Normalization" of a parsed dict. *)
Definition validate (members : list (string * json)) : validated :=
  check_id (check_type (required_fields members)).

(** The string handed to the second [json.loads]: the fenced block if there
    is one, else the first brace span. *)
Definition json_string_found (message_content : string) : option string :=
  match Re.search Re.IS fenced_json_pattern message_content with
  | Some json_match => Re.group json_match 1
  | None =>
      match Re.search Re.S_ braces_pattern message_content with
      | Some json_match => Re.group json_match 1
      | None => None
      end
  end.

(** "Attempt to extract JSON robustly": [None] where the source returns
    [None] at once. *)
Definition extract_json (message_content : string) : option json :=
  match json_loads message_content with
  | Some extracted_data => Some extracted_data
  | None =>
      match json_string_found message_content with
      | Some found => if Py.truthy found then json_loads found else None
      | None => None
      end
  end.

(** From the stripped, non-empty content to the result. *)
Definition parse_content (message_content : string) : raising (option validated) :=
  match extract_json message_content with
  | None => Ret None
  | Some extracted_data =>
      if truthy_json extracted_data then
        match extracted_data with
        | JObj members => Ret (Some (validate members))
        | _ => Raise AttributeError
        end
      else Ret None
  end.

(** [response_data["choices"][0].get("message", {}).get("content")] behind
    the test [response_data.get("choices") and len(...) > 0]; [None] also
    when that test fails, as the source returns [None] either way. *)
Definition message_content_of (response_data : json) : raising (option json) :=
  match response_data with
  | JObj top =>
      match dict_get top "choices" with
      | None => Ret None
      | Some choices =>
          if truthy_json choices then
            match choices with
            | JArr (JObj first :: _) =>
                match dict_get first "message" with
                | Some (JObj message) => Ret (dict_get message "content")
                | Some _ => Raise AttributeError
                | None => Ret None
                end
            | JArr (_ :: _) => Raise AttributeError
            | JArr [] => Ret None
            | JStr _ => Raise AttributeError
            | JObj _ => Raise KeyError
            | _ => Raise TypeError
            end
          else Ret None
      end
  | _ => Raise AttributeError
  end.

(** The body of the [try] after the exchange. *)
Definition handle_response (response_data : json) : raising (option validated) :=
  do content <- message_content_of response_data;
  match content with
  | Some (JStr message_content) =>
      let message_content := Py.strip message_content in
      if Py.truthy message_content then parse_content message_content else Ret None
  | _ => Ret None
  end.

(** The four [except] clauses, in order. *)
Definition except_clauses (r : raising (option validated)) : raising (option validated) :=
  match r with
  | Ret x => Ret x
  | Raise Timeout => Ret None
  | Raise ConnectionError => Ret None
  | Raise HTTPError | Raise RequestException => Ret None
  | Raise _ => Ret None
  end.

Definition max_chars : nat := 15 * 1000.

Definition query_llm_for_details (pdf_text filename_hint : string)
    : raising (option validated) :=
  let request := {| truncated_text := Py.take max_chars pdf_text;
                    filename_hint := filename_hint |} in
  except_clauses (do response_data <- send request; handle_response response_data).

End OracleClient.

(** ** [pdf_processor.py]: the rows [analyze_pdfs] adds for one file *)

Module Processor.

(** A row of [all_extracted_data]: the dict with the keys "Filename",
    "Folio_Number", "Type" and "ID_Number". *)
Record Row : Type := {
  Filename : string;
  Folio_Number : string;
  Type_ : string;
  ID_Number : string
}.

(** [x.split(';', 1)] when [';' in x]: the text before the first semicolon
    and the text after it. *)
Fixpoint split_semicolon (x : string) : option (string * string) :=
  match x with
  | EmptyString => None
  | String a t =>
      if Ascii.eqb a ";" then Some (EmptyString, t)
      else match split_semicolon t with
           | Some (before, after) => Some (String a before, after)
           | None => None
           end
  end.

Definition has_ids (ids_str : string) : bool :=
  Py.truthy ids_str && negb (String.eqb ids_str "N/A").

(** "Add LLM data to results": the rows for a successful oracle answer. *)
Definition llm_rows (filename regex_folio_number : string) (llm_result : validated)
    : list Row :=
  let llm_folio := folio_number llm_result in
  let llm_type := document_type llm_result in
  let llm_id := document_id llm_result in
  let final_folio :=
    if negb (String.eqb llm_folio "N/A") then llm_folio else regex_folio_number in
  let row ty id :=
    {| Filename := filename; Folio_Number := final_folio; Type_ := ty; ID_Number := id |} in
  let other :=
    [row (if String.eqb llm_type "Both" then "Both" else "N/A") "N/A"] in
  if String.eqb llm_type "Both" && negb (String.eqb llm_id "N/A") then
    match split_semicolon llm_id with
    | Some (before, after) =>
        let esc_ids_str := Py.strip before in
        let act_ids_str := Py.strip after in
        ((if has_ids esc_ids_str then [row "Escritura" esc_ids_str] else [])
         ++ (if has_ids act_ids_str then [row "Acta Fuera de Protocolo" act_ids_str]
             else if negb (has_ids esc_ids_str) && negb (has_ids act_ids_str)
             then [row "Both" "N/A"]
             else []))%list
    | None => other
    end
  else if mem_str llm_type ["Escritura"; "Acta Fuera de Protocolo"] then [row llm_type llm_id]
  else other.

(** "Add Regex findings (ONLY if LLM wasn't successfully used)";
    [findings] is [sorted(list(regex_file_findings))]. *)
Definition regex_rows (filename regex_folio_number : string)
    (findings : list (string * string)) : list Row :=
  match findings with
  | [] =>
      [ {| Filename := filename; Folio_Number := regex_folio_number;
           Type_ := "N/A"; ID_Number := "N/A" |} ]
  | _ =>
      map (fun '(type_found, id_found) =>
             {| Filename := filename; Folio_Number := regex_folio_number;
                Type_ := type_found; ID_Number := id_found |})
          findings
  end.

Section FileRows.

Variable json_loads : string -> option json.
Variable str_of_container : json -> string.
Variable send : request -> raising json.

(** From "Check Regex Success & LLM Fallback" to the end of the [try], for a
    file whose text [clean_text] is not empty. *)
Definition file_rows (filename clean_text regex_folio_number : string)
    (findings : list (string * string)) : raising (list Row) :=
  let is_incomplete := String.eqb regex_folio_number "Not Found" || is_nil findings in
  if is_incomplete && Py.truthy clean_text then
    do llm_result <-
      query_llm_for_details json_loads str_of_container send clean_text filename;
    match llm_result with
    | Some result => Ret (llm_rows filename regex_folio_number result)
    | None => Ret (regex_rows filename regex_folio_number findings)
    end
  else Ret (regex_rows filename regex_folio_number findings).

End FileRows.

End Processor.

(** ** [logic.py]: the batch loop of [run_processing] *)

(** The loop over the PDF files found (lines 609-661): the rows collected
    and the three counters. The status messages sent to the window are left
    out; [str_of_exn] stands for the text of an exception in an f-string. *)
Module Batch.

Record progress : Type := {
  all_data : list Row;
  files_processed_count : nat;
  files_with_errors : nat;
  rows_added_count : nat
}.

Definition start : progress :=
  {| all_data := []; files_processed_count := 0; files_with_errors := 0;
     rows_added_count := 0 |}.

Definition error_row (reference_number current_filename pdf_path : string) : Row :=
  {| Document_Type := "ERROR"; Reference_Number := reference_number;
     Invoice_Folio := "ERROR"; Source_PDF := current_filename;
     Full_PDF_Path := pdf_path |}.

(** [any(row.get("Document Type") == "ERROR" for row in results)] *)
Definition had_error_in (results : list Row) : bool :=
  existsb (fun row => String.eqb (Document_Type row) "ERROR") results.

Section Loop.

Variable basename : string -> string.
Variable extract_text_from_pdf : string -> option string.
Variable str_of_exn : exn -> string.

(** The body of the loop, with its [try] and [except Exception], for
    whatever the function called at line 625 does: [process pdf_path
    invoice_type] is what the call returns or raises (a result that is not
    truthy, [None] or an empty list, is the empty list). *)
Definition step_with (process : string -> string -> raising (list Row))
    (invoice_type : string) (b : progress) (pdf_path : string) : progress :=
  let current_filename := basename pdf_path in
  match process pdf_path invoice_type with
  | Ret results =>
      if negb (is_nil results) then
        let had_error_in_results := had_error_in results in
        {| all_data := (all_data b ++ results)%list;
           rows_added_count := rows_added_count b + length results;
           files_with_errors :=
             if had_error_in_results then files_with_errors b + 1 else files_with_errors b;
           files_processed_count :=
             if had_error_in_results then files_processed_count b
             else files_processed_count b + 1 |}
      else
        {| all_data :=
             (all_data b
              ++ [error_row "Processing Function Returned Nothing" current_filename pdf_path])%list;
           rows_added_count := rows_added_count b + 1;
           files_with_errors := files_with_errors b + 1;
           files_processed_count := files_processed_count b |}
  | Raise e =>
      {| all_data :=
           (all_data b
            ++ [error_row ("Runtime Error: " ++ str_of_exn e) current_filename pdf_path])%list;
         rows_added_count := rows_added_count b + 1;
         files_with_errors := files_with_errors b + 1;
         files_processed_count := files_processed_count b |}
  end.

(** [for i, pdf_path in enumerate(pdf_files): ...] *)
Definition process_files_with (process : string -> string -> raising (list Row))
    (invoice_type : string) (pdf_files : list string) : progress :=
  fold_left (step_with process invoice_type) pdf_files start.

(** The loop as the program runs it: the call is to [process_single_pdf]. *)
Definition step (invoice_type : string) (b : progress) (pdf_path : string) : progress :=
  step_with (process_single_pdf basename extract_text_from_pdf) invoice_type b pdf_path.

Definition process_files (invoice_type : string) (pdf_files : list string) : progress :=
  fold_left (step invoice_type) pdf_files start.

End Loop.

End Batch.

(** ** [logic.py]: [find_unique_output_filename] *)

(** The file system is seen through [os.path.exists]; [os.getcwd],
    [os.path.join] and [os.path.splitext] are parameters, and [posix_join]
    and [posix_splitext] are what they are on a POSIX system. The [while] loop
    has no bound of its own: [fuel] bounds the number of paths tested, and
    [None] says that the bound was reached. *)
(** [posixpath.join(a, b)], the [os.path.join] of a POSIX system: a second
    part that starts with a slash replaces the first; otherwise the parts
    are put together, with a slash between them unless the first is empty
    or ends with one. *)
Fixpoint endswith_char (c : ascii) (s : string) : bool :=
  match s with
  | EmptyString => false
  | String a EmptyString => Ascii.eqb a c
  | String _ t => endswith_char c t
  end.

Definition startswith_char (c : ascii) (s : string) : bool :=
  match s with
  | EmptyString => false
  | String a _ => Ascii.eqb a c
  end.

Definition posix_join (a b : string) : string :=
  if startswith_char "/" b then b
  else if negb (Py.truthy a) || endswith_char "/" a then a ++ b
  else a ++ "/" ++ b.

(** [p.rfind(c)]: the last index of [c] in [p], or -1. *)
Fixpoint rfind_from (c : ascii) (p : string) (pos : Z) : Z :=
  match p with
  | EmptyString => (-1)%Z
  | String a t =>
      let later := rfind_from c t (pos + 1) in
      if (0 <=? later)%Z then later
      else if Ascii.eqb a c then pos else (-1)%Z
  end.

Definition rfind (c : ascii) (p : string) : Z := rfind_from c p 0.

(** The [while] loop of [genericpath._splitext]: is there, from
    [filenameIndex] up to [dotIndex], a character that is not a dot? *)
Fixpoint not_only_dots (p : string) (filenameIndex count : nat) : bool :=
  match count with
  | O => false
  | S count' =>
      match Py.slice filenameIndex (S filenameIndex) p with
      | String a _ =>
          if negb (Ascii.eqb a ".") then true
          else not_only_dots p (S filenameIndex) count'
      | EmptyString => true
      end
  end.

(** [posixpath.splitext(p)]: the extension starts at the last dot of the
    last component, leading dots of the component apart. *)
Definition posix_splitext (p : string) : string * string :=
  let sepIndex := rfind "/" p in
  let dotIndex := rfind "." p in
  if (sepIndex <? dotIndex)%Z then
    let filenameIndex := Z.to_nat (sepIndex + 1) in
    if not_only_dots p filenameIndex (Z.to_nat dotIndex - filenameIndex)
    then (Py.take (Z.to_nat dotIndex) p, Py.drop (Z.to_nat dotIndex) p)
    else (p, "")
  else (p, "").

Section OutputName.

Variable directory : string.
Variable join : string -> string -> string.
Variable splitext : string -> string * string.
Variable path_exists : string -> bool.

(** [os.path.join(directory, f"{name}_{counter}{ext}")]; the counter is
    printed as [str] does. *)
Definition numbered_path (name ext : string) (counter : Z) : string :=
  join directory (name ++ "_" ++ Py.str_of_int counter ++ ext).

(** The loop, entered with the current [output_path] and [counter]. *)
Fixpoint probe (fuel : nat) (name ext : string) (counter : Z) (output_path : string)
    : option string :=
  match fuel with
  | O => None
  | S fuel' =>
      if path_exists output_path
      then probe fuel' name ext (counter + 1) (numbered_path name ext counter)
      else Some output_path
  end.

Definition find_unique_output_filename (fuel : nat) (base_name : string) : option string :=
  let output_path := join directory base_name in
  let counter := 1%Z in
  let '(name, ext) := splitext base_name in
  probe fuel name ext counter output_path.

End OutputName.

(** ** [json.loads] on a fragment of JSON

    The properties below hold for any [json_loads]; this parser is the one
    the examples run. It reads JSON texts as [json.loads] does as long as
    they hold no number with a fraction or an exponent or with more digits
    than [Py.int_max_str_digits], no [NaN] or [Infinity] and no [\u]
    escape; it answers [None] on those. *)

Module Json.

Definition is_ws (a : ascii) : bool :=
  let n := Py.code a in
  (n =? 32)%nat || (n =? 9)%nat || (n =? 10)%nat || (n =? 13)%nat.

Fixpoint skip_ws (x : string) : string :=
  match x with
  | String a t => if is_ws a then skip_ws t else x
  | EmptyString => EmptyString
  end.

Definition quote : ascii := "034"%char.
Definition backslash : ascii := "092"%char.

(** The character an escape letter stands for. *)
Definition unescape (e : ascii) : option ascii :=
  if Ascii.eqb e quote then Some quote
  else if Ascii.eqb e backslash then Some backslash
  else if Ascii.eqb e "/" then Some "/"%char
  else if Ascii.eqb e "b" then Some "008"%char
  else if Ascii.eqb e "f" then Some "012"%char
  else if Ascii.eqb e "n" then Some "010"%char
  else if Ascii.eqb e "r" then Some "013"%char
  else if Ascii.eqb e "t" then Some "009"%char
  else None.

Definition cons_fst (a : ascii) (r : option (string * string)) : option (string * string) :=
  match r with
  | Some (x, rest) => Some (String a x, rest)
  | None => None
  end.

(** A string, from after its opening quote: its content and what follows
    the closing quote. Control characters are refused. *)
Fixpoint scan_string (x : string) : option (string * string) :=
  match x with
  | EmptyString => None
  | String a t =>
      if Ascii.eqb a quote then Some (EmptyString, t)
      else if Ascii.eqb a backslash then
        match t with
        | String e t' =>
            match unescape e with
            | Some ch => cons_fst ch (scan_string t')
            | None => None
            end
        | EmptyString => None
        end
      else if (Py.code a <? 32)%nat then None
      else cons_fst a (scan_string t)
  end.

Fixpoint span_digits (x : string) : string * string :=
  match x with
  | String a t =>
      if Py.is_decimal a then let '(ds, rest) := span_digits t in (String a ds, rest)
      else (EmptyString, x)
  | EmptyString => (EmptyString, EmptyString)
  end.

Definition starts_float (rest : string) : bool :=
  match rest with
  | String a _ => Ascii.eqb a "." || Ascii.eqb a "e" || Ascii.eqb a "E"
  | EmptyString => false
  end.

(** An integer [0|[1-9][0-9]*] without sign. *)
Definition scan_nat (x : string) : option (Z * string) :=
  match x with
  | String "0" t => if starts_float t then None else Some (0%Z, t)
  | _ =>
      let '(ds, rest) := span_digits x in
      match ds with
      | EmptyString => None
      | _ =>
          if starts_float rest || (Py.int_max_str_digits <? Py.len ds)%nat then None
          else Some (Py.digits_val 0 ds, rest)
      end
  end.

Fixpoint strip_prefix (p x : string) : option string :=
  match p, x with
  | EmptyString, _ => Some x
  | String a p', String b x' => if Ascii.eqb a b then strip_prefix p' x' else None
  | _, _ => None
  end.

(** [d[k] = v] on a dict. *)
Fixpoint dict_set (members : list (string * json)) (k : string) (v : json)
    : list (string * json) :=
  match members with
  | [] => [(k, v)]
  | (k', v') :: members' =>
      if String.eqb k' k then (k, v) :: members' else (k', v') :: dict_set members' k v
  end.

Definition value_parser : Type := string -> option (json * string).

(** The items of an array after its first one: [, value]* and the bracket. *)
Fixpoint scan_items (pv : value_parser) (n : nat) (x : string) (acc : list json)
    : option (json * string) :=
  match n with
  | O => None
  | S n' =>
      match skip_ws x with
      | String "]" rest => Some (JArr acc, rest)
      | String "," rest =>
          match pv (skip_ws rest) with
          | Some (v, rest') => scan_items pv n' rest' (acc ++ [v])%list
          | None => None
          end
      | _ => None
      end
  end.

(** One ["key" : value] pair, from its opening quote. *)
Definition scan_pair (pv : value_parser) (x : string) : option (string * json * string) :=
  match x with
  | String a t =>
      if Ascii.eqb a quote then
        match scan_string t with
        | Some (k, rest) =>
            match skip_ws rest with
            | String ":" rest' =>
                match pv (skip_ws rest') with
                | Some (v, rest'') => Some (k, v, rest'')
                | None => None
                end
            | _ => None
            end
        | None => None
        end
      else None
  | EmptyString => None
  end.

(** The pairs of an object after its first one, and the brace. *)
Fixpoint scan_pairs (pv : value_parser) (n : nat) (x : string)
    (acc : list (string * json)) : option (json * string) :=
  match n with
  | O => None
  | S n' =>
      match skip_ws x with
      | String "}" rest => Some (JObj acc, rest)
      | String "," rest =>
          match scan_pair pv (skip_ws rest) with
          | Some (k, v, rest') => scan_pairs pv n' rest' (dict_set acc k v)
          | None => None
          end
      | _ => None
      end
  end.

(** A value at the start of [x]. *)
Fixpoint scan_value (fuel : nat) (x : string) : option (json * string) :=
  match fuel with
  | O => None
  | S fuel' =>
      match x with
      | String "{" t =>
          match skip_ws t with
          | String "}" rest => Some (JObj [], rest)
          | t' =>
              match scan_pair (scan_value fuel') t' with
              | Some (k, v, rest) =>
                  scan_pairs (scan_value fuel') (S (Py.len rest)) rest [(k, v)]
              | None => None
              end
          end
      | String "[" t =>
          match skip_ws t with
          | String "]" rest => Some (JArr [], rest)
          | t' =>
              match scan_value fuel' t' with
              | Some (v, rest) =>
                  scan_items (scan_value fuel') (S (Py.len rest)) rest [v]
              | None => None
              end
          end
      | String "-" t =>
          match scan_nat t with
          | Some (z, rest) => Some (JInt (- z), rest)
          | None => None
          end
      | String a t =>
          if Ascii.eqb a quote then
            match scan_string t with
            | Some (str, rest) => Some (JStr str, rest)
            | None => None
            end
          else
            match strip_prefix "null" x, strip_prefix "true" x, strip_prefix "false" x with
            | Some rest, _, _ => Some (JNull, rest)
            | _, Some rest, _ => Some (JBool true, rest)
            | _, _, Some rest => Some (JBool false, rest)
            | _, _, _ =>
                match scan_nat x with
                | Some (z, rest) => Some (JInt z, rest)
                | None => None
                end
            end
      | EmptyString => None
      end
  end.

(** [json.loads(x)]; [None] stands for [JSONDecodeError]. *)
Definition loads (x : string) : option json :=
  match scan_value (S (Py.len x)) (skip_ws x) with
  | Some (v, rest) =>
      match skip_ws rest with
      | EmptyString => Some v
      | _ => None
      end
  | None => None
  end.

(** A text with double quotes: each apostrophe of [x] becomes one. *)
Fixpoint dq (x : string) : string :=
  match x with
  | EmptyString => EmptyString
  | String a t => String (if Ascii.eqb a "'" then quote else a) (dq t)
  end.

End Json.

(** ** [pdf_processor.py]: [parse_potentially_multiple_ids] *)

Module Ids.
Import Re.

(** A pattern used without flags. *)
Definition plain : flags := {| ignorecase := false; dotall := false |}.

(** [re.match(r, s)]: a match at the start of [s]. *)
Definition re_match (fl : flags) (r : regex) (s : string) : option mres :=
  match_here fl r {| prev := None; rest := s |}.

(** [re.fullmatch(r, s)]: a match at the start of [s] that ends where [s]
    ends. *)
Definition at_end (cu : cursor) (c : caps) : option mres :=
  match rest cu with
  | EmptyString => Some (cu, c)
  | String _ _ => None
  end.

Definition fullmatch (fl : flags) (r : regex) (s : string) : option mres :=
  m fl r at_end {| prev := None; rest := s |} [].

(** [re.findall(r, s)] for a pattern without groups: the matched texts. *)
Definition findall (fl : flags) (r : regex) (s : string) : list string :=
  map (fun mt => Py.slice (m_start mt) (m_end mt) s) (finditer fl r s).

(** [\s+] *)
Definition whitespace_run : regex := Plus s.

(** [\s+\b(Y|A)\b\s+] *)
Definition word_separator : regex :=
  seq [Plus s; Bound; Group 1 (Or (Str "Y") (Str "A")); Bound; Plus s].

(** [\s*,\s*] *)
Definition comma : regex := seq [Star s; Str ","; Star s].

(** [\s+-\s+] *)
Definition spaced_hyphen : regex := seq [Plus s; Str "-"; Plus s].

(** [(\d+)\s*-\s*(\d+)] *)
Definition range_pattern : regex :=
  seq [Group 1 (Plus d); Star s; Str "-"; Star s; Group 2 (Plus d)].

(** [[\d/-]{2,}]: two of the set, then as many as there are. *)
Definition id_chars : list cls := [CDigit; CChar "/"; CChar "-"].
Definition id_run : regex := seq [Set_ id_chars; Set_ id_chars; Star (Set_ id_chars)].

(** [\d{4}-\d{2}-\d{2}] *)
Definition date_pattern : regex :=
  seq [Repeat 4 4 d; Str "-"; Repeat 2 2 d; Str "-"; Repeat 2 2 d].

(** [[\dA-Za-z/-]{2,}] *)
Definition plausible_chars : list cls :=
  [CDigit; CRange "A" "Z"; CRange "a" "z"; CChar "/"; CChar "-"].
Definition plausible_id : regex :=
  seq [Set_ plausible_chars; Set_ plausible_chars; Star (Set_ plausible_chars)].

(** [x.split(',')] *)
Fixpoint split_comma (x : string) : list string :=
  match x with
  | EmptyString => [EmptyString]
  | String a t =>
      if Ascii.eqb a "," then EmptyString :: split_comma t
      else match split_comma t with
           | first :: others => String a first :: others
           | [] => [String a EmptyString]
           end
  end.

(** [x.upper()]: the sharp s becomes "SS"; the micro sign and the y with
    diaeresis, whose capitals lie outside Latin-1, are kept, which no result
    of the function depends on, as neither they nor their capitals are
    digits, separators, white space or ASCII letters. *)
Fixpoint upper_str (x : string) : string :=
  match x with
  | EmptyString => EmptyString
  | String a t =>
      if (Py.code a =? 223)%nat then String "S" (String "S" (upper_str t))
      else String (Py.upper a) (upper_str t)
  end.

(** The loop over [range(start, end + 1)]. *)
Definition add_range (start end_ : Z) (ids_found : gset string) : gset string :=
  fold_left
    (fun ids_found i =>
       if (Py.len (Py.str_of_int i) <? 10)%nat
       then ids_found ∪ {[ Py.str_of_int i ]} else ids_found)
    (py_range start (end_ + 1)) ids_found.

(** The loop over [potential_ids_in_part]. *)
Definition add_runs (part : string) (ids_found : gset string) : gset string :=
  fold_left
    (fun ids_found pid =>
       if Py.truthy pid && negb (is_none (search plain d pid)) && (Py.len pid <? 30)%nat
       then if is_none (fullmatch plain date_pattern pid)
            then ids_found ∪ {[ pid ]} else ids_found
       else ids_found)
    (findall plain id_run part) ids_found.

(** The body of [for part in parts]. A [ValueError] of [int] is caught and
    leads on to the search for runs; [int(None)] would raise [TypeError]. *)
Definition part_step (part : string) (ids_found : gset string) : raising (gset string) :=
  let part := upper_str (Py.strip part) in
  match re_match plain range_pattern part with
  | Some (_, range_match) =>
      match lookup_cap 1 range_match with
      | None => Raise TypeError
      | Some g1 =>
          match Py.int_of_str g1 with
          | None => Ret (add_runs part ids_found)
          | Some start =>
              match lookup_cap 2 range_match with
              | None => Raise TypeError
              | Some g2 =>
                  match Py.int_of_str g2 with
                  | None => Ret (add_runs part ids_found)
                  | Some end_ =>
                      Ret (if (start <=? end_)%Z then add_range start end_ ids_found
                           else ids_found)
                  end
              end
          end
      end
  | None => Ret (add_runs part ids_found)
  end.

(** "Fallback": the whole string, if nothing was found. *)
Definition fallback (id_str : string) (ids_found : gset string) : gset string :=
  if bool_decide (ids_found = ∅) then
    let original_cleaned := upper_str (Py.strip id_str) in
    if negb (is_none (search plain d original_cleaned))
       && negb (is_none (fullmatch plain plausible_id original_cleaned))
       && (Py.len original_cleaned <? 30)%nat
    then ids_found ∪ {[ original_cleaned ]} else ids_found
  else ids_found.

(** The order of [sorted] on strs: by code points. *)
Definition str_le (a b : string) : bool :=
  match String.compare a b with Gt => false | _ => true end.

Definition normalize (id_str : string) : string :=
  let text := Py.strip (sub plain whitespace_run " " id_str) in
  let text := sub I word_separator "," text in
  let text := sub plain comma "," text in
  sub plain spaced_hyphen "-" text.

Definition parse_potentially_multiple_ids (id_str : string) : raising (list string) :=
  let text := normalize id_str in
  let parts := split_comma text in
  do ids_found <- for_each part_step parts ∅;
  let ids_found := fallback id_str ids_found in
  let ids_found := base.filter (fun id_val => Py.truthy id_val = true) ids_found in
  Ret (sort_by str_le (fun id_val => id_val) (elements ids_found)).

End Ids.

(** ** [pdf_processor.py]: the Folio patterns of [analyze_pdfs] *)

Module RegexFolio.
Import Re.

(** [[A-Za-z0-9/-]{2,}] *)
Definition folio_chars : list cls :=
  [CRange "A" "Z"; CRange "a" "z"; CRange "0" "9"; CChar "/"; CChar "-"].
Definition folio_run : regex :=
  seq [Set_ folio_chars; Set_ folio_chars; Star (Set_ folio_chars)].

(** [[A-F0-9]{n}] *)
Definition hex (n : nat) : regex := Repeat n n (Set_ [CRange "A" "F"; CRange "0" "9"]).

(** [[A-F0-9]{8}-[A-F0-9]{4}-[A-F0-9]{4}-[A-F0-9]{4}-[A-F0-9]{12}] *)
Definition uuid : regex :=
  seq [hex 8; Str "-"; hex 4; Str "-"; hex 4; Str "-"; hex 4; Str "-"; hex 12].

(** [\bFOLIO\s*:\s*([A-Za-z0-9/-]{2,})\b] *)
Definition folio_colon : regex :=
  seq [Bound; Str "FOLIO"; Star s; Str ":"; Star s; Group 1 folio_run; Bound].

(** [\bFolio\s*Interno\s*:?\s+(<uuid>)\b] *)
Definition folio_interno_uuid : regex :=
  seq [Bound; Str "Folio"; Star s; Str "Interno"; Star s; Opt (Str ":"); Plus s;
       Group 1 uuid; Bound].

(** [\b(?:Folio|Factura)\s*(?:N[oO]\.?|#)?\s*:?\s+([A-Za-z0-9/-]{2,})\b] *)
Definition folio_or_factura : regex :=
  seq [Bound; Or (Str "Folio") (Str "Factura"); Star s;
       Opt (Or (seq [Str "N"; Set_ [CChar "o"; CChar "O"]; Opt (Str ".")]) (Str "#"));
       Star s; Opt (Str ":"); Plus s; Group 1 folio_run; Bound].

(** [\bFolio\s+interno\s*:\s*(\d+)\b] *)
Definition folio_interno_digits : regex :=
  seq [Bound; Str "Folio"; Plus s; Str "interno"; Star s; Str ":"; Star s;
       Group 1 (Plus d); Bound].

(** All four are compiled with [re.IGNORECASE]. *)
Definition FOLIO_PATTERNS : list regex :=
  [folio_colon; folio_interno_uuid; folio_or_factura; folio_interno_digits].

Definition NOT_FOUND : string := "Not Found".

(** [pattern.search(clean_text[:3000])], then the whole text if that fails. *)
Definition search_twice (pattern : regex) (clean_text : string) : option Match :=
  let search_area := Py.take 3000 clean_text in
  match search I pattern search_area with
  | Some mt => Some mt
  | None => search I pattern clean_text
  end.

(** The test on a candidate: not empty, and short unless it is a UUID. *)
Definition acceptable (potential_folio : string) : bool :=
  let is_uuid := Ids.fullmatch I uuid potential_folio in
  Py.truthy potential_folio
  && ((Py.len potential_folio <? 20)%nat || negb (is_none is_uuid)).

(** "1. Folio Number": the loop over the patterns, left at the first
    acceptable candidate. *)
Fixpoint scan (patterns : list regex) (clean_text : string) : raising string :=
  match patterns with
  | [] => Ret NOT_FOUND
  | pattern :: others =>
      match search_twice pattern clean_text with
      | Some mt =>
          do potential_folio <- strip_of (group mt 1);
          if acceptable potential_folio then Ret potential_folio
          else scan others clean_text
      | None => scan others clean_text
      end
  end.

Definition regex_folio_number (clean_text : string) : raising string :=
  scan FOLIO_PATTERNS clean_text.

End RegexFolio.

(** ** [logic.py]: [extract_text_from_pdf] *)

Module Text.

Section Extraction.

(** The part played by the PDF library: the text of the pages, each followed
    by a newline, or [None] when opening or reading the file raises. *)
Variable read_pages : string -> option string.

(** [re.sub(r'\s+', ' ', full_text).strip()] *)
Definition normalize_whitespace (full_text : string) : string :=
  Py.strip (Re.sub Ids.plain Ids.whitespace_run " " full_text).

Definition extract_text_from_pdf (pdf_path : string) : option string :=
  match read_pages pdf_path with
  | Some full_text => Some (normalize_whitespace full_text)
  | None => None
  end.

End Extraction.

End Text.

(** ** Vocabulary of the properties *)

(** The groups a match of the pattern is sure to set. *)
Fixpoint sets (r : Re.regex) : list nat :=
  match r with
  | Re.Group n _ => [n]
  | Re.Cat r1 r2 => (sets r1 ++ sets r2)%list
  | _ => []
  end.

Definition is_digits (r : Re.regex) : bool :=
  match r with
  | Re.Plus (Re.Set_ [Re.CDigit]) => true
  | _ => false
  end.

(** Every capturing group of the pattern is [(\d+)]. *)
Fixpoint digit_groups (r : Re.regex) : bool :=
  match r with
  | Re.Group _ r1 => is_digits r1
  | Re.Cat r1 r2 | Re.Or r1 r2 => digit_groups r1 && digit_groups r2
  | Re.Opt r1 | Re.Star r1 | Re.Plus r1 | Re.LazyStar r1 | Re.Repeat _ _ r1
  | Re.NotAhead r1 => digit_groups r1
  | _ => true
  end.

(** What a match adds to the captures: runs of decimal digits when [ok],
    and a binding for each group of [req]. *)
Definition adds (ok : bool) (req : list nat) (new : Re.caps) : Prop :=
  (ok = true -> Forall (fun p => Py.decimal_string (snd p) = true) new)
  /\ (forall n, In n req -> Re.lookup_cap n new <> None).

(** A matcher only ever calls its continuation with more captures. *)
Definition frames (P : Re.caps -> Prop) (f : Re.matcher) : Prop :=
  forall k cu c x, f k cu c = Some x ->
    exists cu' new, k cu' (new ++ c)%list = Some x /\ P new.

(** The groups of a match object are as [adds] says. *)
Definition match_ok (r : Re.regex) (mt : Re.Match) : Prop :=
  adds (digit_groups r) (sets r) (Re.m_caps mt).

(** [reach st st']: [st'] comes from [st] by claiming runs of decimal digits. *)
Inductive reach (st : state) : state -> Prop :=
| reach_refl : reach st st
| reach_claim st' c num_str :
    reach st st' -> Py.decimal_string num_str = true -> reach st (claim c num_str st').

(** The references are exactly the claimed numbers, each once. *)
Definition inv (st : state) : Prop :=
  NoDup (references st)
  /\ forall r, In r (references st) <->
       exists c, Type_ r = type_name c /\ Number r ∈ found_set c st.

Definition decimal_ref (r : Ref) : Prop := Py.decimal_string (Number r) = true.

(** A step of a loop that returns, having only claimed numbers. *)
Definition steps {A : Type} (body : A -> state -> raising state) (x : A) : Prop :=
  forall st, exists st', body x st = Ret st' /\ reach st st'.

(** [(start, end)] of a range match, when both groups convert. *)
Definition range_bounds (mt : Re.Match) : option (Z * Z) :=
  match Re.group mt 1, Re.group mt 2 with
  | Some g1, Some g2 =>
      match Py.int_of_str g1, Py.int_of_str g2 with
      | Some start, Some end_ => Some (start, end_)
      | _, _ => None
      end
  | _, _ => None
  end.

(** Two keys that compare equal. *)
Definition same_key {K : Type} (le : K -> K -> bool) (k1 k2 : K) : bool :=
  le k1 k2 && le k2 k1.

(** [l] is in the order of [le] on the keys. *)
Definition sorted_by {A K : Type} (le : K -> K -> bool) (key : A -> K) (l : list A) : Prop :=
  StronglySorted (fun x y => le (key x) (key y) = true) l.

(** A row of a pattern table is well formed: its groups are [(\d+)], group 1
    is always set, and so is group 2 unless the row is special. *)
Definition entry_ok (e : entry) : bool :=
  digit_groups (pattern e)
  && existsb (Nat.eqb 1) (sets (pattern e))
  && (special e || existsb (Nat.eqb 2) (sets (pattern e))).

Definition single_ok (p : Re.regex * category) : bool :=
  digit_groups (fst p) && existsb (Nat.eqb 1) (sets (fst p)).

(** The [(category, number)] pair of a reference. *)
Definition pair_of_ref (r : Ref) : string * string := (Type_ r, Number r).



(** The numbers 100 to 103 as [str] prints them. *)
Definition hundred_to_103 : list string := ["100"; "101"; "102"; "103"].

Definition escritura (num_str : string) : Ref :=
  {| Type_ := "Escritura"; Number := num_str |}.

Definition is_some {A : Type} (o : option A) : bool := negb (is_none o).

(** Some Folio pattern of the invoice type matches: in the file name or the
    text for DBA, in the text for the other two types. *)
Definition pattern_matches (text : option string) (invoice_type : string)
    (filename : option string) : bool :=
  let in_text r fl :=
    match text with Some t => is_some (Re.search fl r t) | None => false end in
  if String.eqb invoice_type "DBA" then
    match filename with
    | Some fn => is_some (Re.search Re.I REGEX_FOLIO_DBA_FILENAME fn)
    | None => false
    end
    || in_text REGEX_FOLIO_DBA Re.I || in_text REGEX_FOLIO_DBA_ALT Re.IS
  else if String.eqb invoice_type "TOTALNOT" then in_text REGEX_FOLIO_TOTALNOT Re.I
  else if String.eqb invoice_type "CONTPAQ" then
    match text with
    | Some t => negb (is_nil (Re.finditer Re.I contpaq_simple_pattern t))
    | None => false
    end
  else false.

(** The first, and the last, match that "Folio fiscal" does not precede. *)
Fixpoint first_accepted (text : string) (ms : list Re.Match) : option Re.Match :=
  match ms with
  | [] => None
  | mt :: ms' => if not_after_folio_fiscal text mt then Some mt else first_accepted text ms'
  end.

Fixpoint last_accepted (text : string) (ms : list Re.Match) : option Re.Match :=
  match ms with
  | [] => None
  | mt :: ms' =>
      match last_accepted text ms' with
      | Some later => Some later
      | None => if not_after_folio_fiscal text mt then Some mt else None
      end
  end.

(** The sentinel row of a document. *)
Definition sentinel_row (pdf_path filename folio : string) : Row :=
  {| Document_Type := "N/A"; Reference_Number := "N/A"; Invoice_Folio := folio;
     Source_PDF := filename; Full_PDF_Path := pdf_path |}.





(** A response whose first choice carries the content [c]. *)
Definition response_with (c : string) : json :=
  JObj [("choices", JArr [JObj [("message", JObj [("content", JStr c)])]])].

(** [s * n]: [n] copies of [s]. *)
Fixpoint repeat_str (s : string) (n : nat) : string :=
  match n with
  | O => ""
  | S n => s ++ repeat_str s n
  end.




(** The [str] of lists and dicts is not needed by the examples. *)
Definition no_containers (v : json) : string := "".

(** The types other than "N/A" that the whitelist lets through. *)
Definition concrete_types : list string := ["Escritura"; "Acta Fuera de Protocolo"; "Both"].

(** ** Vocabulary of the further properties *)

(** [reach_within P st st']: [st'] comes from [st] by claiming numbers that
    [P] allows for their category. *)
Inductive reach_within (P : category -> string -> Prop) (st : state) : state -> Prop :=
| within_refl : reach_within P st st
| within_claim st' c num_str :
    reach_within P st st' -> P c num_str -> reach_within P st (claim c num_str st').

Definition steps_within {A : Type} (P : category -> string -> Prop)
    (body : A -> state -> raising state) (x : A) : Prop :=
  forall st, exists st', body x st = Ret st' /\ reach_within P st st'.

(** A number of the range that a range match spans, as [str] prints it. *)
Definition range_mention (mt : Re.Match) (n : string) : Prop :=
  exists start end_ z,
    range_bounds mt = Some (start, end_) /\ (start <= z <= end_)%Z /\ n = Py.str_of_int z.

(** The groups a finder reads from a match of a list or special row. *)
Definition reported_groups (all_groups : bool) (e : entry) : list nat :=
  if special e then (if all_groups then seq 1 (ngroups (pattern e)) else [1])
  else [1; 2].

(** What a match of a row of [patterns_and_types] mentions. *)
Definition entry_mentions (all_groups : bool) (e : entry) (mt : Re.Match) (n : string)
    : Prop :=
  if is_range e then range_mention mt n
  else exists i, In i (reported_groups all_groups e) /\ Re.group mt i = Some n.

(** The numbers a text mentions for a category, by kind of pattern. *)
Definition mention_standard (all_groups : bool) (text : string) (c : category) (n : string)
    : Prop :=
  exists e mt,
    In e patterns_and_types /\ cat e = c
    /\ In mt (Re.finditer Re.I (pattern e) text)
    /\ entry_mentions all_groups e mt n.

Definition mention_single (text : string) (c : category) (n : string) : Prop :=
  exists pat mt,
    In (pat, c) single_patterns /\ In mt (Re.finditer Re.I pat text)
    /\ Re.group mt 1 = Some n.

Definition mention_instrumentos (text : string) (c : category) (n : string) : Prop :=
  exists pat mt i,
    In (pat, c) instrumentos_patterns /\ In mt (Re.finditer Re.I pat text)
    /\ In i (seq 1 (ngroups pat)) /\ Re.group mt i = Some n.

Definition combined_groups (c : category) : list nat :=
  match c with Escritura => [1; 2; 3] | Acta => [4; 5; 6] end.

Definition mention_combined (text : string) (c : category) (n : string) : Prop :=
  exists mt i,
    In mt (Re.finditer Re.I REGEX_INSTRUMENTOS_COMBINED text)
    /\ In i (combined_groups c) /\ Re.group mt i = Some n.

(** The numbers the TOTALNOT and CONTPAQ finders have to report. *)
Definition mentioned_generic (text : string) (c : category) (n : string) : Prop :=
  mention_standard false text c n \/ mention_single text c n.

(** The numbers the DBA finder has to report, read off the text with its
    dates masked. *)
Definition mentioned_dba (text : string) (c : category) (n : string) : Prop :=
  let t := text_for_processing text in
  mention_instrumentos t c n \/ mention_combined t c n
  \/ mention_standard true t c n \/ mention_single t c n.

Definition ref_of (c : category) (n : string) : Ref :=
  {| Type_ := type_name c; Number := n |}.

(** The Folio in the name of a DBA file: the group of the first match of
    [REGEX_FOLIO_DBA_FILENAME]. *)
Definition file_name_folio (fn : string) : option string :=
  match Re.search Re.I REGEX_FOLIO_DBA_FILENAME fn with
  | Some filename_match => Re.group filename_match 1
  | None => None
  end.

(** The row of a reference, and the rows of a document whose text was read. *)
Definition row_of (pdf_path filename folio : string) (ref : Ref) : Row :=
  {| Document_Type := Type_ ref; Reference_Number := Number ref; Invoice_Folio := folio;
     Source_PDF := filename; Full_PDF_Path := pdf_path |}.

Definition reference_rows (pdf_path filename folio : string) (refs : list Ref) : list Row :=
  if is_nil refs then [sentinel_row pdf_path filename folio]
  else map (row_of pdf_path filename folio) refs.

Definition pair_of_row (row : Row) : string * string :=
  (Document_Type row, Reference_Number row).

(** The one row of a document whose text could not be read. *)
Definition unreadable_row (pdf_path filename invoice_type : string) : Row :=
  if String.eqb invoice_type "DBA" then
    match file_name_folio filename with
    | Some folio =>
        {| Document_Type := "N/A"; Reference_Number := "TEXT_EXTRACTION_FAILED";
           Invoice_Folio := folio; Source_PDF := filename; Full_PDF_Path := pdf_path |}
    | None =>
        {| Document_Type := "ERROR"; Reference_Number := "Text Extraction Failed";
           Invoice_Folio := NOT_FOUND; Source_PDF := filename; Full_PDF_Path := pdf_path |}
    end
  else
    {| Document_Type := "ERROR"; Reference_Number := "Text Extraction Failed";
       Invoice_Folio := "ERROR"; Source_PDF := filename; Full_PDF_Path := pdf_path |}.

Definition known_type (invoice_type : string) : bool :=
  mem_str invoice_type ["DBA"; "TOTALNOT"; "CONTPAQ"].

(** A file that the batch loop counts among the files with errors: its text
    could not be read and its name gave no Folio. *)
Definition counts_as_error (basename : string -> string)
    (extract_text_from_pdf : string -> option string) (invoice_type pdf_path : string)
    : bool :=
  is_none (extract_text_from_pdf pdf_path)
  && negb (String.eqb invoice_type "DBA" && is_some (file_name_folio (basename pdf_path))).

(** What the counters of the batch loop satisfy after [n] files. *)
Definition counted (n : nat) (b : Batch.progress) : Prop :=
  Batch.files_processed_count b + Batch.files_with_errors b = n
  /\ Batch.rows_added_count b = length (Batch.all_data b)
  /\ n <= length (Batch.all_data b).

(** A file that the batch loop counts among the files with errors, for
    whatever the call does: the call raised, returned nothing, or returned
    a row of type "ERROR". *)
Definition file_failed (process : string -> string -> raising (list Row))
    (invoice_type pdf_path : string) : bool :=
  match process pdf_path invoice_type with
  | Ret results => is_nil results || Batch.had_error_in results
  | Raise _ => true
  end.

(** The rows that the batch loop collects for one file. *)
Definition collected_rows (basename : string -> string) (str_of_exn : exn -> string)
    (process : string -> string -> raising (list Row))
    (invoice_type pdf_path : string) : list Row :=
  match process pdf_path invoice_type with
  | Ret [] =>
      [Batch.error_row "Processing Function Returned Nothing" (basename pdf_path) pdf_path]
  | Ret results => results
  | Raise e =>
      [Batch.error_row ("Runtime Error: " ++ str_of_exn e) (basename pdf_path) pdf_path]
  end.

(** A string holds a decimal digit. *)
Fixpoint contains_decimal (x : string) : bool :=
  match x with
  | EmptyString => false
  | String a t => Py.is_decimal a || contains_decimal t
  end.

(** Strictly before, in the order of [sorted] on strs. *)
Definition str_lt (a b : string) : Prop := String.compare a b = Lt.

(** The characters of an id: decimal digits, the capital letters A to Z,
    the slash and the hyphen. *)
Definition id_char (a : ascii) : bool :=
  Py.is_decimal a || Py.between 65 90 (Py.code a) || Ascii.eqb a "/" || Ascii.eqb a "-".

(** What every id collected by [parse_potentially_multiple_ids] satisfies. *)
Definition plausible (id_val : string) : Prop :=
  Py.len id_val < 30 /\ contains_decimal id_val = true
  /\ Py.all_chars id_char id_val = true.

Definition all_plausible (ids_found : gset string) : Prop :=
  forall id_val, id_val ∈ ids_found -> plausible id_val.

(** Every maximal run of characters in [p] replaced by [repl]; [in_run]
    says that the character before belongs to a run. *)
Fixpoint collapse (p : ascii -> bool) (repl : string) (in_run : bool) (x : string) : string :=
  match x with
  | EmptyString => EmptyString
  | String a t =>
      if p a then (if in_run then collapse p repl true t else repl ++ collapse p repl true t)
      else String a (collapse p repl false t)
  end.

(** Where a run of [p] ends. *)
Fixpoint skip_run (p : ascii -> bool) (pv : option ascii) (x : string) : Re.cursor :=
  match x with
  | String a t => if p a then skip_run p (Some a) t else {| Re.prev := pv; Re.rest := x |}
  | EmptyString => {| Re.prev := pv; Re.rest := x |}
  end.

(** The first character in [p]: its offset, the character and what follows. *)
Fixpoint first_run (p : ascii -> bool) (x : string) : option (nat * ascii * string) :=
  match x with
  | EmptyString => None
  | String a t =>
      if p a then Some (0, a, t)
      else match first_run p t with
           | Some (n, b, t') => Some (S n, b, t')
           | None => None
           end
  end.

(** Words separated by single spaces: every white-space character is a
    space, no space follows a space, and the string neither starts nor ends
    with one. [after_space] says that the character before is a space, or
    that the string starts here. *)
Fixpoint tidy_from (after_space : bool) (x : string) : bool :=
  match x with
  | EmptyString => negb after_space
  | String a t =>
      if Py.is_space a then Ascii.eqb a " " && negb after_space && tidy_from true t
      else tidy_from false t
  end.

Definition tidy (x : string) : bool :=
  match x with
  | EmptyString => true
  | _ => tidy_from true x
  end.

(** As [tidy_from], but the string may end with a space. *)
Fixpoint spaced (after_space : bool) (x : string) : bool :=
  match x with
  | EmptyString => true
  | String a t =>
      if Py.is_space a then Ascii.eqb a " " && negb after_space && spaced true t
      else spaced false t
  end.

(** The characters of a string that are not white space. *)
Fixpoint squeeze (x : string) : string :=
  match x with
  | EmptyString => EmptyString
  | String a t => if Py.is_space a then squeeze t else String a (squeeze t)
  end.

(** * Properties *)

(** ** Facts about the string primitives *)

Section StringFacts.

Lemma decimal_is_digit a : Py.is_decimal a = true -> Py.is_digit_char a = true.
Proof. unfold Py.is_digit_char. intros ->. reflexivity. Qed.

Lemma decimal_not_space a : Py.is_decimal a = true -> Py.is_space a = false.
Proof.
  unfold Py.is_decimal, Py.is_space, Py.between. generalize (Py.code a). intros n H.
  apply andb_true_iff in H as [H1 H2]. apply Nat.leb_le in H1, H2.
  repeat (apply orb_false_iff; split); try apply andb_false_iff;
    rewrite ?Nat.leb_gt, ?Nat.eqb_neq; lia.
Qed.

Lemma decimal_not_underscore a : Py.is_decimal a = true -> (Py.code a =? 95)%nat = false.
Proof.
  unfold Py.is_decimal, Py.between. generalize (Py.code a). intros n H.
  apply andb_true_iff in H as [H1 H2]. apply Nat.leb_le in H1, H2.
  apply Nat.eqb_neq. lia.
Qed.

Lemma all_decimal_all_digit s :
  Py.all_chars Py.is_decimal s = true -> Py.all_chars Py.is_digit_char s = true.
Proof.
  induction s as [|a t IH]; simpl; [reflexivity|].
  intros H. apply andb_true_iff in H as [Ha Ht].
  rewrite (decimal_is_digit a Ha), (IH Ht). reflexivity.
Qed.

Lemma decimal_string_isdigit s : Py.decimal_string s = true -> Py.isdigit s = true.
Proof. destruct s; [discriminate|]. apply all_decimal_all_digit. Qed.

Lemma decimal_string_truthy s : Py.decimal_string s = true -> Py.truthy s = true.
Proof. destruct s; [discriminate|reflexivity]. Qed.

Lemma decimal_string_all s :
  Py.decimal_string s = true -> Py.all_chars Py.is_decimal s = true.
Proof. destruct s; [discriminate|]. exact (fun H => H). Qed.

Lemma decimal_not_int_space a : Py.is_decimal a = true -> Py.is_int_space a = false.
Proof.
  unfold Py.is_decimal, Py.is_int_space, Py.between. generalize (Py.code a). intros n H.
  apply andb_true_iff in H as [H1 H2]. apply Nat.leb_le in H1, H2.
  repeat (apply orb_false_iff; split); try apply andb_false_iff;
    rewrite ?Nat.leb_gt, ?Nat.eqb_neq; lia.
Qed.

Section Strip.

Variable p : ascii -> bool.
Hypothesis p_decimal : forall a, Py.is_decimal a = true -> p a = false.

Lemma lstrip_decimal s : Py.decimal_string s = true -> Py.lstrip_by p s = s.
Proof.
  destruct s as [|a t]; [discriminate|]. simpl. intros H.
  apply andb_true_iff in H as [Ha _]. rewrite (p_decimal a Ha). reflexivity.
Qed.

Lemma rstrip_all_decimal s :
  Py.all_chars Py.is_decimal s = true -> Py.rstrip_by p s = s.
Proof.
  induction s as [|a t IH]; simpl; [reflexivity|].
  intros H. apply andb_true_iff in H as [Ha Ht]. rewrite (IH Ht).
  destruct t; [|reflexivity]. rewrite (p_decimal a Ha). reflexivity.
Qed.

Lemma strip_by_decimal s :
  Py.decimal_string s = true -> Py.rstrip_by p (Py.lstrip_by p s) = s.
Proof.
  intros H. rewrite (lstrip_decimal s H).
  apply rstrip_all_decimal, decimal_string_all, H.
Qed.

End Strip.

(** A run of decimal digits is left alone by [strip]. *)
Lemma strip_decimal s : Py.decimal_string s = true -> Py.strip s = s.
Proof. apply strip_by_decimal, decimal_not_space. Qed.

Lemma int_body_ok_decimal s b :
  Py.all_chars Py.is_decimal s = true -> Py.int_body_ok b s = true \/ (s = EmptyString /\ b = false).
Proof.
  revert b. induction s as [|a t IH]; simpl; intros b H.
  - destruct b; auto.
  - apply andb_true_iff in H as [Ha Ht]. rewrite Ha. left.
    destruct (IH true Ht) as [H|[_ H]]; [exact H|discriminate].
Qed.

Lemma drop_underscores_decimal s :
  Py.all_chars Py.is_decimal s = true -> Py.drop_underscores s = s.
Proof.
  induction s as [|a t IH]; simpl; [reflexivity|].
  intros H. apply andb_true_iff in H as [Ha Ht].
  rewrite (decimal_not_underscore a Ha), (IH Ht). reflexivity.
Qed.

Lemma digits_val_nonneg s : forall acc, (0 <= acc)%Z -> (0 <= Py.digits_val acc s)%Z.
Proof.
  induction s as [|a t IH]; simpl; intros acc H; [exact H|].
  apply IH. unfold Py.digit_val. lia.
Qed.

Lemma int_unsigned_decimal s :
  Py.decimal_string s = true ->
  Py.int_unsigned s
  = if (Py.int_max_str_digits <? Py.len s)%nat then None else Some (Py.digits_val 0 s).
Proof.
  intros H. pose proof (decimal_string_all s H) as Ha.
  unfold Py.int_unsigned.
  destruct (int_body_ok_decimal s false Ha) as [-> | [-> _]]; [|discriminate].
  cbv zeta. rewrite (drop_underscores_decimal s Ha). reflexivity.
Qed.

(** [int] of a run of decimal digits: its value, unless the run is longer
    than the limit. *)
Lemma int_of_str_digits s :
  Py.decimal_string s = true ->
  Py.int_of_str s
  = if (Py.int_max_str_digits <? Py.len s)%nat then None else Some (Py.digits_val 0 s).
Proof.
  intros H. unfold Py.int_of_str.
  rewrite (strip_by_decimal _ decimal_not_int_space s H).
  rewrite <- (int_unsigned_decimal s H).
  destruct s as [|a t]; [discriminate|].
  assert (Hs : a <> "+"%char /\ a <> "-"%char).
  { simpl in H. apply andb_true_iff in H as [Hd _].
    split; intros ->; discriminate Hd. }
  destruct Hs as [Hp Hm].
  destruct a as [[] [] [] [] [] [] [] []]; try reflexivity; congruence.
Qed.

(** [int] of a run of at most [int_max_str_digits] decimal digits is a
    natural number. *)
Lemma int_of_str_decimal s :
  Py.decimal_string s = true -> Py.len s <= Py.int_max_str_digits ->
  exists z, Py.int_of_str s = Some z /\ (0 <= z)%Z.
Proof.
  intros H Hl. rewrite (int_of_str_digits s H).
  replace (Py.int_max_str_digits <? Py.len s)%nat with false
    by (symmetry; apply Nat.ltb_ge; exact Hl).
  eexists. split; [reflexivity|]. apply digits_val_nonneg. lia.
Qed.

Lemma int_of_str_nonneg s z :
  Py.decimal_string s = true -> Py.int_of_str s = Some z -> (0 <= z)%Z.
Proof.
  intros H. rewrite (int_of_str_digits s H).
  destruct (Py.int_max_str_digits <? Py.len s)%nat; [discriminate|].
  intros E. injection E as <-. apply digits_val_nonneg. lia.
Qed.

(** [int] of a run of more than [int_max_str_digits] digits raises. *)
Lemma int_of_str_long s :
  Py.decimal_string s = true -> Py.int_max_str_digits < Py.len s ->
  Py.int_of_str s = None.
Proof.
  intros H Hl. rewrite (int_of_str_digits s H).
  replace (Py.int_max_str_digits <? Py.len s)%nat with true
    by (symmetry; apply Nat.ltb_lt; exact Hl).
  reflexivity.
Qed.

Lemma string_of_uint_decimal u :
  Py.all_chars Py.is_decimal (NilEmpty.string_of_uint u) = true.
Proof. induction u; simpl; auto. Qed.

Lemma string_of_uint_nonempty u :
  u <> Decimal.Nil -> NilEmpty.string_of_uint u <> EmptyString.
Proof. destruct u; simpl; congruence. Qed.

Lemma nilzero_decimal u : Py.decimal_string (NilZero.string_of_uint u) = true.
Proof.
  destruct u; try reflexivity;
    apply (string_of_uint_decimal (_ u)).
Qed.

(** [str] of a natural number is a run of decimal digits. *)
Lemma str_of_int_decimal z : (0 <= z)%Z -> Py.decimal_string (Py.str_of_int z) = true.
Proof.
  intros H. unfold Py.str_of_int. destruct z as [|p|p]; simpl.
  - reflexivity.
  - apply nilzero_decimal.
  - lia.
Qed.

End StringFacts.

(** ** Facts about the matcher *)

Section MatcherFacts.

Variable fl : Re.flags.

Lemma lookup_cap_app n (a b : Re.caps) :
  Re.lookup_cap n (a ++ b)%list =
  match Re.lookup_cap n a with Some x => Some x | None => Re.lookup_cap n b end.
Proof.
  induction a as [|[i x] a IH]; simpl; [reflexivity|].
  destruct (i =? n)%nat; [reflexivity|exact IH].
Qed.

Lemma adds_nil ok : adds ok [] [].
Proof. split; [constructor|intros n []]. Qed.

Lemma adds_app ok1 ok2 req1 req2 new1 new2 :
  adds ok1 req1 new1 -> adds ok2 req2 new2 ->
  adds (ok1 && ok2) (req1 ++ req2)%list (new2 ++ new1)%list.
Proof.
  intros [F1 L1] [F2 L2]. split.
  - intros H. apply andb_true_iff in H as [H1 H2].
    apply Forall_app. split; auto.
  - intros n Hn. rewrite lookup_cap_app. apply in_app_or in Hn as [Hn|Hn].
    + destruct (Re.lookup_cap n new2); [discriminate|]. apply L1, Hn.
    + specialize (L2 n Hn). destruct (Re.lookup_cap n new2); [discriminate|congruence].
Qed.

Lemma adds_weaken ok ok' req new :
  adds ok req new -> (ok' = true -> ok = true) -> adds ok' [] new.
Proof. intros [F _] H. split; [auto|intros n []]. Qed.

Lemma adds_join ok new1 new2 :
  adds ok [] new1 -> adds ok [] new2 -> adds ok [] (new2 ++ new1)%list.
Proof.
  intros [F1 _] [F2 _]. split; [|intros n []].
  intros H. apply Forall_app. split; auto.
Qed.

Lemma frames_weaken (P P' : Re.caps -> Prop) f :
  (forall new, P new -> P' new) -> frames P f -> frames P' f.
Proof.
  intros HP Hf k cu c x H. destruct (Hf k cu c x H) as (cu' & new & Hk & Hn).
  exists cu', new. auto.
Qed.

Lemma orelse_some (a b : option Re.mres) x :
  Re.orelse a b = Some x -> a = Some x \/ b = Some x.
Proof. destruct a; simpl; auto. Qed.

(** The three loops frame as their body does. *)
Lemma star_loop_frames ok mr :
  frames (adds ok []) mr -> forall n, frames (adds ok []) (fun k => Re.star_loop mr k n).
Proof.
  intros Hmr n. induction n as [|n IH]; intros k cu c x H; simpl in H.
  - exists cu, []. split; [exact H|apply adds_nil].
  - apply orelse_some in H as [H|H].
    + apply Hmr in H as (cu1 & new1 & H & A1).
      destruct (Re.advanced cu cu1); [|discriminate].
      apply IH in H as (cu2 & new2 & H & A2).
      exists cu2, (new2 ++ new1)%list. rewrite <- app_assoc.
      split; [exact H|apply adds_join; assumption].
    + exists cu, []. split; [exact H|apply adds_nil].
Qed.

Lemma lazy_loop_frames ok mr :
  frames (adds ok []) mr -> forall n, frames (adds ok []) (fun k => Re.lazy_loop mr k n).
Proof.
  intros Hmr n. induction n as [|n IH]; intros k cu c x H; simpl in H.
  - exists cu, []. split; [exact H|apply adds_nil].
  - apply orelse_some in H as [H|H].
    + exists cu, []. split; [exact H|apply adds_nil].
    + apply Hmr in H as (cu1 & new1 & H & A1).
      destruct (Re.advanced cu cu1); [|discriminate].
      apply IH in H as (cu2 & new2 & H & A2).
      exists cu2, (new2 ++ new1)%list. rewrite <- app_assoc.
      split; [exact H|apply adds_join; assumption].
Qed.

Lemma rep_loop_frames ok mr lo :
  frames (adds ok []) mr ->
  forall n count, frames (adds ok []) (fun k => Re.rep_loop mr k lo n count).
Proof.
  intros Hmr n. induction n as [|n IH]; intros count k cu c x H; simpl in H.
  - destruct (count <? lo)%nat; [discriminate|].
    exists cu, []. split; [exact H|apply adds_nil].
  - assert (Hstep : forall y,
        mr (fun cu' c' => Re.rep_loop mr k lo n (S count) cu' c') cu c = Some y ->
        exists cu' new, k cu' (new ++ c)%list = Some y /\ adds ok [] new).
    { intros y Hy. apply Hmr in Hy as (cu1 & new1 & Hy & A1).
      apply IH in Hy as (cu2 & new2 & Hy & A2).
      exists cu2, (new2 ++ new1)%list. rewrite <- app_assoc.
      split; [exact Hy|apply adds_join; assumption]. }
    destruct (count <? lo)%nat; [apply Hstep, H|].
    apply orelse_some in H as [H|H]; [apply Hstep, H|].
    exists cu, []. split; [exact H|apply adds_nil].
Qed.

(** Case folding does not turn another character into a decimal digit. *)
Lemma in_set_digit a : Re.in_set fl [Re.CDigit] a = true -> Py.is_decimal a = true.
Proof.
  unfold Re.in_set, Re.in_cls. simpl. rewrite orb_false_r.
  assert (Hl : Py.is_decimal (Py.lower a) = true -> Py.is_decimal a = true)
    by (destruct a as [[] [] [] [] [] [] [] []]; vm_compute; exact (fun H => H)).
  assert (Hu : Py.is_decimal (Py.upper a) = true -> Py.is_decimal a = true)
    by (destruct a as [[] [] [] [] [] [] [] []]; vm_compute; exact (fun H => H)).
  destruct (Py.is_decimal a); [reflexivity|]. simpl.
  destruct (Re.ignorecase fl); simpl; [|discriminate].
  intros H. apply orb_true_iff in H as [H|H]; auto.
Qed.

Lemma len_append (a b : string) : Py.len (a ++ b) = Py.len a + Py.len b.
Proof. induction a; simpl; [reflexivity|]. unfold Py.len in *. simpl. lia. Qed.

Lemma take_append (a b : string) : Py.take (Py.len a) (a ++ b) = a.
Proof. induction a; simpl; [destruct b; reflexivity|]. f_equal. exact IHa. Qed.

Lemma taken_read cu cu' x : Re.rest cu = (x ++ Re.rest cu')%string -> Re.taken cu cu' = x.
Proof.
  intros H. unfold Re.taken. rewrite H, len_append.
  replace (Py.len x + Py.len (Re.rest cu') - Py.len (Re.rest cu')) with (Py.len x) by lia.
  apply take_append.
Qed.

Lemma all_chars_append p (a b : string) :
  Py.all_chars p a = true -> Py.all_chars p b = true -> Py.all_chars p (a ++ b) = true.
Proof.
  induction a; simpl; [auto|]. intros H Hb. apply andb_true_iff in H as [H1 H2].
  rewrite H1. simpl. auto.
Qed.

(** What [\d*] reads is made of decimal digits, and it binds nothing. *)
Lemma star_digits k n : forall cu c x,
  Re.star_loop (Re.m fl Re.d) k n cu c = Some x ->
  exists cu' read, k cu' c = Some x
    /\ Py.all_chars Py.is_decimal read = true
    /\ Re.rest cu = (read ++ Re.rest cu')%string.
Proof.
  induction n as [|n IH]; intros cu c x H; cbn [Re.star_loop] in H.
  - exists cu, EmptyString. auto.
  - apply orelse_some in H as [H|H]; [|exists cu, EmptyString; auto].
    unfold Re.d in H at 1. cbn [Re.m] in H.
    destruct (Re.rest cu) as [|a t] eqn:Hr; [discriminate|].
    destruct (Re.in_set fl [Re.CDigit] a) eqn:Ha; [|discriminate].
    match type of H with (if ?b then _ else _) = _ => destruct b end; [|discriminate].
    apply IH in H as (cu' & read & Hk & Hd & Hrest). simpl in Hrest.
    exists cu', (String a read). split; [exact Hk|]. split.
    + simpl. rewrite (in_set_digit a Ha), Hd. reflexivity.
    + simpl. rewrite Hrest. reflexivity.
Qed.

(** [(\d+)] binds its group to a run of decimal digits. *)
Lemma plus_digits k cu c x :
  Re.m fl (Re.Plus Re.d) k cu c = Some x ->
  exists cu', k cu' c = Some x /\ Py.decimal_string (Re.taken cu cu') = true.
Proof.
  unfold Re.d at 1. cbn [Re.m]. fold Re.d.
  destruct (Re.rest cu) as [|a t] eqn:Hr; [discriminate|].
  destruct (Re.in_set fl [Re.CDigit] a) eqn:Ha; [|discriminate].
  intros H. apply star_digits in H as (cu' & read & Hk & Hd & Hrest). simpl in Hrest.
  exists cu'. split; [exact Hk|].
  rewrite (taken_read cu cu' (String a read)) by (rewrite Hr, Hrest; reflexivity).
  simpl. rewrite (in_set_digit a Ha), Hd. reflexivity.
Qed.

Lemma is_digits_eq r : is_digits r = true -> r = Re.Plus Re.d.
Proof.
  destruct r as [| | | | | | | |r| | | | |]; try discriminate.
  destruct r as [| | |l| | | | | | | | | |]; try discriminate.
  destruct l as [|[] [|]]; try discriminate. reflexivity.
Qed.

(** The matcher of any pattern adds captures as [adds] says. *)
Lemma m_frames r : frames (adds (digit_groups r) (sets r)) (Re.m fl r).
Proof.
  induction r as [|s| |l|r1 IH1 r2 IH2|r1 IH1 r2 IH2|r1 IH1|r1 IH1|r1 IH1|r1 IH1
                 |lo hi r1 IH1|n r1 IH1| |r1 IH1];
    intros k cu c x H; cbn [Re.m] in H.
  - exists cu, []. split; [exact H|apply adds_nil].
  - destruct (Re.eat fl s cu) as [cu'|]; [|discriminate].
    exists cu', []. split; [exact H|apply adds_nil].
  - destruct (Re.rest cu) as [|a t]; [discriminate|].
    destruct (Re.dot_ok fl a); [|discriminate].
    eexists _, []. split; [exact H|apply adds_nil].
  - destruct (Re.rest cu) as [|a t]; [discriminate|].
    destruct (Re.in_set fl l a); [|discriminate].
    eexists _, []. split; [exact H|apply adds_nil].
  - apply IH1 in H as (cu1 & new1 & H & A1).
    apply IH2 in H as (cu2 & new2 & H & A2).
    exists cu2, (new2 ++ new1)%list. rewrite <- app_assoc.
    split; [exact H|]. simpl. apply adds_app; assumption.
  - simpl. apply orelse_some in H as [H|H].
    + apply IH1 in H as (cu1 & new1 & H & A1). exists cu1, new1.
      split; [exact H|]. eapply adds_weaken; [exact A1|].
      intros E. apply andb_true_iff in E as [E _]. exact E.
    + apply IH2 in H as (cu1 & new1 & H & A1). exists cu1, new1.
      split; [exact H|]. eapply adds_weaken; [exact A1|].
      intros E. apply andb_true_iff in E as [_ E]. exact E.
  - simpl. apply orelse_some in H as [H|H].
    + apply IH1 in H as (cu1 & new1 & H & A1). exists cu1, new1.
      split; [exact H|]. eapply adds_weaken; [exact A1|auto].
    + exists cu, []. split; [exact H|apply adds_nil].
  - simpl. revert H. apply star_loop_frames.
    eapply frames_weaken; [|exact IH1]. intros new A. eapply adds_weaken; [exact A|auto].
  - simpl. apply IH1 in H as (cu1 & new1 & H & A1).
    assert (F : frames (adds (digit_groups r1) []) (Re.m fl r1)).
    { eapply frames_weaken; [|exact IH1]. intros new A. eapply adds_weaken; [exact A|auto]. }
    apply (star_loop_frames _ _ F) in H as (cu2 & new2 & H & A2).
    exists cu2, (new2 ++ new1)%list. rewrite <- app_assoc.
    split; [exact H|]. apply adds_join; [|exact A2].
    eapply adds_weaken; [exact A1|auto].
  - simpl. revert H. apply lazy_loop_frames.
    eapply frames_weaken; [|exact IH1]. intros new A. eapply adds_weaken; [exact A|auto].
  - simpl. revert H. apply rep_loop_frames.
    eapply frames_weaken; [|exact IH1]. intros new A. eapply adds_weaken; [exact A|auto].
  - simpl. destruct (is_digits r1) eqn:Hd.
    + rewrite (is_digits_eq r1 Hd) in H.
      apply plus_digits in H as (cu' & H & Hdec).
      exists cu', [(n, Re.taken cu cu')]. split; [exact H|]. split.
      * intros _. constructor; [exact Hdec|constructor].
      * intros i [<-|[]]. simpl. rewrite Nat.eqb_refl. discriminate.
    + apply IH1 in H as (cu' & new & H & A).
      exists cu', ((n, Re.taken cu cu') :: new). split; [exact H|]. split.
      * discriminate.
      * intros i [<-|[]]. simpl. rewrite Nat.eqb_refl. discriminate.
  - destruct (Re.at_boundary cu); [|discriminate].
    exists cu, []. split; [exact H|apply adds_nil].
  - simpl. destruct (Re.m fl r1 _ cu c); [discriminate|].
    exists cu, []. split; [exact H|]. split; [constructor|intros n []].
Qed.

Lemma match_here_ok r cu cu' c :
  Re.match_here fl r cu = Some (cu', c) -> adds (digit_groups r) (sets r) c.
Proof.
  intros H. apply m_frames in H as (cu1 & new & H & A).
  rewrite app_nil_r in H. injection H as _ <-. exact A.
Qed.

Lemma search_from_ok r : forall s pos pv mt cu',
  Re.search_from fl r pos pv s = Some (mt, cu') -> match_ok r mt.
Proof.
  induction s as [|a t IH]; intros pos pv mt cu' H; simpl in H.
  - destruct (Re.match_here fl r _) as [[cu1 c]|] eqn:E; [|discriminate].
    injection H as <- _. eapply match_here_ok, E.
  - destruct (Re.match_here fl r _) as [[cu1 c]|] eqn:E.
    + injection H as <- _. eapply match_here_ok, E.
    + eapply IH, H.
Qed.

(** Every match object of [re.search] and [re.finditer] is well formed. *)
Lemma search_ok r s mt : Re.search fl r s = Some mt -> match_ok r mt.
Proof.
  unfold Re.search. destruct (Re.search_from fl r 0 None s) as [[mt' cu']|] eqn:E;
    [|discriminate].
  intros H. injection H as <-. eapply search_from_ok, E.
Qed.

Lemma finditer_from_ok r : forall fuel pos pv s,
  Forall (match_ok r) (Re.finditer_from fuel fl r pos pv s).
Proof.
  induction fuel as [|fuel IH]; intros pos pv s; simpl; [constructor|].
  destruct (Re.search_from fl r pos pv s) as [[mt cu']|] eqn:E; [|constructor].
  constructor; [eapply search_from_ok, E|].
  destruct (Re.m_start mt <? Re.m_end mt)%nat; [apply IH|].
  destruct (Re.rest cu'); [constructor|apply IH].
Qed.

Lemma finditer_ok r s : Forall (match_ok r) (Re.finditer fl r s).
Proof. apply finditer_from_ok. Qed.

Lemma search_from_span r : forall s pos pv mt cu',
  Re.search_from fl r pos pv s = Some (mt, cu') ->
  pos <= Re.m_start mt /\ Re.m_start mt <= Re.m_end mt.
Proof.
  induction s as [|a t IH]; intros pos pv mt cu' H; simpl in H.
  - destruct (Re.match_here fl r _) as [[cu1 c]|]; [|discriminate].
    injection H as <- _. simpl. lia.
  - destruct (Re.match_here fl r _) as [[cu1 c]|].
    + injection H as <- _. simpl. lia.
    + apply IH in H. lia.
Qed.

Lemma finditer_from_increasing r : forall fuel pos pv s,
  let ms := Re.finditer_from fuel fl r pos pv s in
  Forall (fun mt => pos <= Re.m_start mt) ms
  /\ StronglySorted (fun a b => Re.m_start a < Re.m_start b) ms.
Proof.
  induction fuel as [|fuel IH]; intros pos pv s; simpl; [split; constructor|].
  destruct (Re.search_from fl r pos pv s) as [[mt cu']|] eqn:E; [|split; constructor].
  apply search_from_span in E as [Hpos Hspan].
  assert (Hrest : forall pos' pv' s', Re.m_start mt < pos' ->
            let ms := Re.finditer_from fuel fl r pos' pv' s' in
            Forall (fun later => pos <= Re.m_start later) (mt :: ms)
            /\ StronglySorted (fun a b => Re.m_start a < Re.m_start b) (mt :: ms)).
  { intros pos' pv' s' Hlt ms. destruct (IH pos' pv' s') as [Hge Hs]. fold ms in Hge, Hs.
    split; constructor; try assumption.
    - eapply Forall_impl; [|exact Hge]. simpl. intros later Hl. lia.
    - eapply Forall_impl; [|exact Hge]. simpl. intros later Hl. lia. }
  destruct (Re.m_start mt <? Re.m_end mt)%nat eqn:Elt.
  - apply Nat.ltb_lt in Elt. apply Hrest. exact Elt.
  - destruct (Re.rest cu') as [|a t]; [split; repeat constructor; exact Hpos|].
    apply Hrest. lia.
Qed.

(** The matches of [re.finditer] come in the order of their positions. *)
Lemma finditer_increasing r s :
  StronglySorted (fun a b => Re.m_start a < Re.m_start b) (Re.finditer fl r s).
Proof. apply finditer_from_increasing. Qed.

End MatcherFacts.

Lemma match_ok_group r mt i :
  match_ok r mt -> In i (sets r) -> exists g, Re.group mt i = Some g.
Proof.
  intros [_ L] Hi. specialize (L i Hi). unfold Re.group.
  destruct (Re.lookup_cap i (Re.m_caps mt)) as [g|]; [eauto|congruence].
Qed.

Lemma lookup_cap_in n (c : Re.caps) g : Re.lookup_cap n c = Some g -> In (n, g) c.
Proof.
  induction c as [|[i x] c IH]; simpl; [discriminate|].
  destruct (i =? n)%nat eqn:E.
  - intros H. injection H as ->. apply Nat.eqb_eq in E as ->. auto.
  - auto.
Qed.

Lemma match_ok_decimal r mt i g :
  match_ok r mt -> digit_groups r = true -> Re.group mt i = Some g ->
  Py.decimal_string g = true.
Proof.
  intros [F _] Hd Hg. specialize (F Hd). rewrite Forall_forall in F.
  apply lookup_cap_in in Hg. exact (F _ Hg).
Qed.

(** ** Facts about the claimed-number sets *)

Section StateFacts.

Lemma type_name_inj c1 c2 : type_name c1 = type_name c2 -> c1 = c2.
Proof. destruct c1, c2; simpl; congruence. Qed.

Lemma reach_trans st1 st2 st3 : reach st1 st2 -> reach st2 st3 -> reach st1 st3.
Proof. intros H12 H23. induction H23; [exact H12|]. constructor; assumption. Qed.

Lemma reach_one st c num_str :
  Py.decimal_string num_str = true -> reach st (claim c num_str st).
Proof. intros H. constructor; [constructor|exact H]. Qed.

Lemma references_append c num_str st :
  references (append_ref c num_str st)
  = (references st ++ [{| Type_ := type_name c; Number := num_str |}])%list.
Proof. destruct c; reflexivity. Qed.

Lemma found_set_append c c' num_str st n :
  n ∈ found_set c (append_ref c' num_str st)
  <-> n ∈ found_set c st \/ (c = c' /\ n = num_str).
Proof.
  destruct c, c'; simpl; rewrite ?elem_of_union, ?elem_of_singleton;
    intuition congruence.
Qed.

Lemma inv_initial : inv initial.
Proof.
  split; [constructor|]. intros r. split; [intros []|].
  intros (c & _ & H). destruct c; simpl in H; set_solver.
Qed.

Lemma inv_claim c num_str st : inv st -> inv (claim c num_str st).
Proof.
  intros [Hnd Hiff]. unfold claim. case_bool_decide as Hin; [split; assumption|].
  split.
  - rewrite references_append. apply List.NoDup_app; [exact Hnd| |].
    + constructor; [intros []|constructor].
    + intros r Hr [<-|[]].
      apply Hiff in Hr as (c' & Hty & Hnum). simpl in Hty, Hnum.
      apply type_name_inj in Hty as <-. contradiction.
  - intros r. rewrite references_append, in_app_iff, Hiff. simpl. split.
    + intros [(c' & Hty & Hnum)|[<-|[]]].
      * exists c'. split; [exact Hty|]. apply found_set_append. auto.
      * exists c. split; [reflexivity|]. apply found_set_append. auto.
    + intros (c' & Hty & Hnum). apply found_set_append in Hnum as [Hnum|[-> Hnum]].
      * left. eauto.
      * right. left. destruct r as [ty nu]. simpl in *. congruence.
Qed.

Lemma inv_reach st st' : reach st st' -> inv st -> inv st'.
Proof. induction 1; intros Hi; [exact Hi|]. apply inv_claim. auto. Qed.

Lemma decimal_claim c num_str st :
  Py.decimal_string num_str = true ->
  Forall decimal_ref (references st) -> Forall decimal_ref (references (claim c num_str st)).
Proof.
  intros Hd Hf. unfold claim. case_bool_decide; [exact Hf|].
  rewrite references_append. apply Forall_app. split; [exact Hf|].
  constructor; [exact Hd|constructor].
Qed.

Lemma decimal_reach st st' :
  reach st st' -> Forall decimal_ref (references st) -> Forall decimal_ref (references st').
Proof. induction 1; intros Hf; [exact Hf|]. apply decimal_claim; auto. Qed.

(** A claimed number stays claimed. *)
Lemma found_claim c c' num_str st n :
  n ∈ found_set c st -> n ∈ found_set c (claim c' num_str st).
Proof.
  intros H. unfold claim. case_bool_decide; [exact H|].
  apply found_set_append. auto.
Qed.

Lemma found_reach st st' c n : reach st st' -> n ∈ found_set c st -> n ∈ found_set c st'.
Proof. induction 1; intros Hin; [exact Hin|]. apply found_claim. auto. Qed.

Lemma found_after_claim c num_str st : num_str ∈ found_set c (claim c num_str st).
Proof.
  unfold claim. case_bool_decide as H; [exact H|].
  apply found_set_append. auto.
Qed.

Lemma reach_accept c num_str st :
  Py.decimal_string num_str = true -> reach st (accept c num_str st).
Proof.
  intros H. unfold accept.
  destruct (Py.truthy num_str && Py.isdigit num_str); [apply reach_one, H|constructor].
Qed.

Lemma accept_decimal c num_str st :
  Py.decimal_string num_str = true -> accept c num_str st = claim c num_str st.
Proof.
  intros H. unfold accept.
  rewrite (decimal_string_truthy _ H), (decimal_string_isdigit _ H). reflexivity.
Qed.

Lemma reach_accept_groups c mt idxs :
  (forall i g, Re.group mt i = Some g -> Py.decimal_string g = true) ->
  forall st, reach st (accept_groups c mt idxs st).
Proof.
  intros Hg. unfold accept_groups. induction idxs as [|i idxs IH]; intros st; simpl.
  - constructor.
  - eapply reach_trans; [|apply IH].
    destruct (Re.group mt i) as [g|] eqn:E; simpl; [|constructor].
    destruct (Py.truthy g); [|constructor].
    rewrite (strip_decimal g (Hg i g E)). apply reach_accept. eauto.
Qed.

Lemma py_range_ge a b z : In z (py_range a b) -> (a <= z)%Z.
Proof.
  unfold py_range. rewrite in_map_iff. intros (i & <- & _). lia.
Qed.

Lemma py_range_in a b z : (a <= z < b)%Z -> In z (py_range a b).
Proof.
  intros H. unfold py_range. apply in_map_iff. exists (Z.to_nat (z - a)).
  split; [lia|]. apply in_seq. lia.
Qed.

Lemma reach_claims c (l : list Z) :
  (forall z, In z l -> (0 <= z)%Z) ->
  forall st, reach st (fold_left (fun st num => claim c (Py.str_of_int num) st) l st).
Proof.
  induction l as [|z l IH]; intros Hl st; simpl; [constructor|].
  eapply reach_trans; [|apply IH; intros; apply Hl; right; assumption].
  apply reach_one, str_of_int_decimal, Hl. left. reflexivity.
Qed.

Lemma reach_expand c start end_ st :
  (0 <= start)%Z -> reach st (expand c start end_ st).
Proof.
  intros H. apply reach_claims. intros z Hz. apply py_range_ge in Hz. lia.
Qed.

Lemma found_claims c (l : list Z) z :
  (forall z, In z l -> (0 <= z)%Z) -> In z l ->
  forall st, Py.str_of_int z ∈
    found_set c (fold_left (fun st num => claim c (Py.str_of_int num) st) l st).
Proof.
  induction l as [|y l IH]; intros Hl Hz st; [destruct Hz|]. simpl.
  destruct Hz as [->|Hz].
  - eapply found_reach; [apply reach_claims; intros; apply Hl; right; assumption|].
    apply found_after_claim.
  - apply IH; [intros; apply Hl; right; assumption|exact Hz].
Qed.

(** After the expansion every number of the range is claimed. *)
Lemma found_expand c start end_ st z :
  (0 <= start)%Z -> (start <= z <= end_)%Z ->
  Py.str_of_int z ∈ found_set c (expand c start end_ st).
Proof.
  intros H Hz. apply found_claims.
  - intros y Hy. apply py_range_ge in Hy. lia.
  - apply py_range_in. lia.
Qed.

Lemma for_each_steps {A : Type} (body : A -> state -> raising state) (l : list A) :
  Forall (steps body) l -> steps (for_each body) l.
Proof.
  induction l as [|x l IH]; intros H st; simpl.
  - exists st. split; [reflexivity|constructor].
  - inversion H as [|? ? Hx Hl]; subst.
    destruct (Hx st) as (st1 & -> & R1). simpl.
    destruct (IH Hl st1) as (st2 & -> & R2).
    exists st2. split; [reflexivity|eapply reach_trans; eassumption].
Qed.

(** What one step of a loop establishes, the rest of the loop keeps. *)
Lemma for_each_keeps {A : Type} (body : A -> state -> raising state) (l : list A)
    (x0 : A) (Q : state -> Prop) :
  (forall st st', reach st st' -> Q st -> Q st') ->
  Forall (steps body) l -> In x0 l ->
  (forall st st', body x0 st = Ret st' -> Q st') ->
  forall st st', for_each body l st = Ret st' -> Q st'.
Proof.
  intros Hmono Hl. induction l as [|x l IH]; intros Hin Hx0 st st' H; [destruct Hin|].
  inversion Hl as [|? ? Hx Hl']; subst. simpl in H.
  destruct (Hx st) as (st1 & E1 & R1). rewrite E1 in H. simpl in H.
  destruct Hin as [->|Hin].
  - destruct (for_each_steps body l Hl' st1) as (st2 & E2 & R2).
    rewrite E2 in H. injection H as <-. eapply Hmono; [exact R2|]. eapply Hx0, E1.
  - eapply IH; eauto.
Qed.

End StateFacts.

(** ** Facts about the stable sort *)

Section SortFacts.

Context {A K : Type}.
Variable le : K -> K -> bool.
Variable key : A -> K.
Hypothesis le_total : forall a b, le a b = true \/ le b a = true.
Hypothesis le_trans : forall a b c, le a b = true -> le b c = true -> le a c = true.

Lemma insert_by_perm x l : Permutation (insert_by le key x l) (x :: l).
Proof.
  induction l as [|y l IH]; simpl; [reflexivity|].
  destruct (le (key y) (key x)); [|reflexivity].
  rewrite IH. apply perm_swap.
Qed.

Lemma fold_insert_perm l : forall acc,
  Permutation (fold_left (fun acc x => insert_by le key x acc) l acc) (l ++ acc)%list.
Proof.
  induction l as [|x l IH]; intros acc; simpl; [reflexivity|].
  rewrite IH, insert_by_perm. symmetry. apply Permutation_middle.
Qed.

(** The sort rearranges, it neither drops nor repeats an item. *)
Lemma sort_by_perm l : Permutation (sort_by le key l) l.
Proof. unfold sort_by. rewrite fold_insert_perm, app_nil_r. reflexivity. Qed.

Lemma insert_by_sorted x l : sorted_by le key l -> sorted_by le key (insert_by le key x l).
Proof.
  unfold sorted_by. induction l as [|y l IH]; simpl; intros Hs.
  - constructor; constructor.
  - inversion Hs as [|? ? Hl Hy]; subst.
    destruct (le (key y) (key x)) eqn:E.
    + constructor; [apply IH, Hl|].
      rewrite (Forall_forall). intros z Hz.
      apply (Permutation_in _ (insert_by_perm x l)) in Hz as [<-|Hz]; [exact E|].
      rewrite Forall_forall in Hy. apply Hy, Hz.
    + assert (Hxy : le (key x) (key y) = true)
        by (destruct (le_total (key x) (key y)); congruence).
      constructor; [exact Hs|]. constructor; [exact Hxy|].
      rewrite Forall_forall in *. intros z Hz. eapply le_trans; [exact Hxy|auto].
Qed.

Lemma fold_insert_sorted l : forall acc,
  sorted_by le key acc ->
  sorted_by le key (fold_left (fun acc x => insert_by le key x acc) l acc).
Proof.
  induction l as [|x l IH]; intros acc Hs; simpl; [exact Hs|].
  apply IH, insert_by_sorted, Hs.
Qed.

(** The result is in the order of the keys. *)
Lemma sort_by_sorted l : sorted_by le key (sort_by le key l).
Proof. apply fold_insert_sorted. constructor. Qed.

Lemma same_key_trans_l k a b :
  same_key le k a = true -> le a b = true -> le k b = true.
Proof. unfold same_key. intros H. apply andb_true_iff in H as [H _]. eauto. Qed.




End SortFacts.

(** The order of [sort_key] tuples is total and transitive. *)
Lemma ascii_compare_trans a b c o :
  Ascii.compare a b = o -> Ascii.compare b c = o -> o <> Eq -> Ascii.compare a c = o.
Proof.
  unfold Ascii.compare. intros H1 H2 Ho. destruct o; [congruence| |].
  - rewrite N.compare_lt_iff in *. eapply N.lt_trans; eassumption.
  - rewrite N.compare_gt_iff in *. eapply N.lt_trans; eassumption.
Qed.

Lemma ascii_compare_refl a : Ascii.compare a a = Eq.
Proof. unfold Ascii.compare. apply N.compare_refl. Qed.

Lemma string_compare_lt_trans s1 : forall s2 s3,
  String.compare s1 s2 = Lt -> String.compare s2 s3 = Lt -> String.compare s1 s3 = Lt.
Proof.
  induction s1 as [|a s1 IH]; intros [|b s2] [|c s3]; simpl; try congruence.
  destruct (Ascii.compare a b) eqn:Eab; try discriminate;
    destruct (Ascii.compare b c) eqn:Ebc; try discriminate; intros H1 H2.
  - apply Ascii.compare_eq_iff in Eab, Ebc. subst.
    rewrite ascii_compare_refl. eauto.
  - apply Ascii.compare_eq_iff in Eab. subst. rewrite Ebc. reflexivity.
  - apply Ascii.compare_eq_iff in Ebc. subst. rewrite Eab. reflexivity.
  - rewrite (ascii_compare_trans a b c Lt Eab Ebc) by discriminate. reflexivity.
Qed.

Lemma string_compare_refl s : String.compare s s = Eq.
Proof.
  induction s as [|a s IH]; simpl; [reflexivity|].
  rewrite ascii_compare_refl. exact IH.
Qed.





(** ** The passes of the reference finders return and only claim numbers *)

Section PassFacts.

Lemma patterns_and_types_ok : forallb entry_ok patterns_and_types = true.
Proof. reflexivity. Qed.

Lemma single_patterns_ok : forallb single_ok single_patterns = true.
Proof. reflexivity. Qed.

Lemma instrumentos_patterns_ok :
  forallb (fun p => digit_groups (fst p)) instrumentos_patterns = true.
Proof. reflexivity. Qed.

Lemma existsb_eqb_In n l : existsb (Nat.eqb n) l = true -> In n l.
Proof.
  intros H. apply existsb_exists in H as (x & Hx & E).
  apply Nat.eqb_eq in E as <-. exact Hx.
Qed.

Lemma entry_ok_of e : In e patterns_and_types -> entry_ok e = true.
Proof.
  intros H. pose proof patterns_and_types_ok as Hall.
  rewrite forallb_forall in Hall. auto.
Qed.

(** The groups a well-formed match gives to a step. *)
Lemma group_decimal r mt i :
  match_ok r mt -> digit_groups r = true -> existsb (Nat.eqb i) (sets r) = true ->
  exists g, Re.group mt i = Some g /\ Py.decimal_string g = true.
Proof.
  intros Hok Hd Hi. destruct (match_ok_group r mt i Hok (existsb_eqb_In _ _ Hi)) as (g & Hg).
  exists g. split; [exact Hg|]. eapply match_ok_decimal; eassumption.
Qed.

Lemma range_step_steps r c mt :
  match_ok r mt -> digit_groups r = true ->
  existsb (Nat.eqb 1) (sets r) = true -> existsb (Nat.eqb 2) (sets r) = true ->
  steps (range_step c) mt.
Proof.
  intros Hok Hd H1 H2 st. unfold range_step.
  destruct (group_decimal r mt 1 Hok Hd H1) as (g1 & -> & D1).
  destruct (group_decimal r mt 2 Hok Hd H2) as (g2 & -> & D2).
  destruct (Py.int_of_str g1) as [start|] eqn:I1;
    [|eexists; split; [reflexivity|constructor]].
  destruct (Py.int_of_str g2) as [end_|];
    [|eexists; split; [reflexivity|constructor]].
  eexists. split; [reflexivity|].
  destruct (start <=? end_)%Z; [|constructor].
  apply reach_expand, (int_of_str_nonneg g1 start D1 I1).
Qed.

Lemma list_step_steps r c mt :
  match_ok r mt -> digit_groups r = true ->
  existsb (Nat.eqb 1) (sets r) = true -> existsb (Nat.eqb 2) (sets r) = true ->
  steps (list_step c) mt.
Proof.
  intros Hok Hd H1 H2 st. unfold list_step.
  destruct (group_decimal r mt 1 Hok Hd H1) as (g1 & -> & D1).
  destruct (group_decimal r mt 2 Hok Hd H2) as (g2 & -> & D2).
  simpl. rewrite (strip_decimal g1 D1), (strip_decimal g2 D2).
  eexists. split; [reflexivity|].
  eapply reach_trans; apply reach_accept; assumption.
Qed.

Lemma special_step_first_steps r c mt :
  match_ok r mt -> digit_groups r = true -> existsb (Nat.eqb 1) (sets r) = true ->
  steps (special_step_first c) mt.
Proof.
  intros Hok Hd H1 st. unfold special_step_first.
  destruct (group_decimal r mt 1 Hok Hd H1) as (g1 & -> & D1).
  simpl. rewrite (strip_decimal g1 D1).
  eexists. split; [reflexivity|apply reach_accept, D1].
Qed.

Lemma special_step_all_steps r c mt :
  match_ok r mt -> digit_groups r = true -> steps (special_step_all r c) mt.
Proof.
  intros Hok Hd st. unfold special_step_all. eexists. split; [reflexivity|].
  apply reach_accept_groups. intros i g Hg. eapply match_ok_decimal; eassumption.
Qed.

Lemma standard_step_steps all_groups e mt :
  In e patterns_and_types -> match_ok (pattern e) mt -> steps (standard_step all_groups e) mt.
Proof.
  intros He Hok. pose proof (entry_ok_of e He) as E. unfold entry_ok in E.
  apply andb_true_iff in E as [E H2]. apply andb_true_iff in E as [Hd H1].
  unfold standard_step.
  destruct (is_range e) eqn:Er.
  - assert (Hsp : special e = false).
    { revert Er. clear -He. repeat (destruct He as [<-|He]; [simpl; congruence|]).
      destruct He. }
    rewrite Hsp in H2. eapply range_step_steps; eassumption.
  - destruct (special e) eqn:Es.
    + destruct all_groups.
      * apply special_step_all_steps; assumption.
      * eapply special_step_first_steps; eassumption.
    + eapply list_step_steps; eassumption.
Qed.

Lemma Forall_steps_finditer (body : Re.Match -> state -> raising state) r text :
  (forall mt, match_ok r mt -> steps body mt) ->
  Forall (steps body) (Re.finditer Re.I r text).
Proof.
  intros H. eapply Forall_impl; [exact H|apply finditer_ok].
Qed.

Lemma standard_pass_steps all_groups text : steps (standard_pass all_groups) text.
Proof.
  unfold standard_pass. apply for_each_steps.
  apply Forall_forall. intros e He st.
  apply for_each_steps. apply Forall_steps_finditer.
  intros mt Hok. apply standard_step_steps; assumption.
Qed.

Lemma potential_singles_decimal r ms :
  digit_groups r = true -> existsb (Nat.eqb 1) (sets r) = true ->
  Forall (match_ok r) ms ->
  exists l, potential_singles ms = Ret l /\ Forall (fun x => Py.decimal_string x = true) l.
Proof.
  intros Hd H1 Hms. unfold potential_singles.
  assert (G : forall acc, Forall (fun x => Py.decimal_string x = true) acc ->
    exists l,
      for_each
        (fun mt acc =>
           do num_candidate <- strip_of (Re.group mt 1);
           Ret (if Py.truthy num_candidate && Py.isdigit num_candidate
                then (acc ++ [num_candidate])%list else acc)) ms acc = Ret l
      /\ Forall (fun x => Py.decimal_string x = true) l).
  { induction Hms as [|mt ms Hok _ IH]; intros acc Hacc; simpl.
    - eauto.
    - destruct (group_decimal r mt 1 Hok Hd H1) as (g1 & -> & D1). simpl.
      rewrite (strip_decimal g1 D1). apply IH.
      destruct (Py.truthy g1 && Py.isdigit g1); [|exact Hacc].
      apply Forall_app. split; [exact Hacc|]. constructor; [exact D1|constructor]. }
  apply G. constructor.
Qed.

Lemma reach_claim_all c (l : list string) :
  Forall (fun x => Py.decimal_string x = true) l ->
  forall st, reach st (fold_left (fun st num_str => claim c num_str st) l st).
Proof.
  induction 1 as [|x l Hx _ IH]; intros st; simpl; [constructor|].
  eapply reach_trans; [apply reach_one, Hx|apply IH].
Qed.

Lemma singles_pass_steps text : steps singles_pass text.
Proof.
  unfold singles_pass. apply for_each_steps.
  apply Forall_forall. intros [pat c] Hp st.
  pose proof single_patterns_ok as Hall. rewrite forallb_forall in Hall.
  specialize (Hall _ Hp). unfold single_ok in Hall. simpl in Hall.
  apply andb_true_iff in Hall as [Hd H1].
  destruct (potential_singles_decimal pat (Re.finditer Re.I pat text) Hd H1
              (finditer_ok Re.I pat text)) as (l & -> & Hl).
  simpl. eexists. split; [reflexivity|apply reach_claim_all, Hl].
Qed.

Lemma reach_fold_left {A : Type} (f : state -> A -> state) (l : list A) :
  (forall x st, In x l -> reach st (f st x)) -> forall st, reach st (fold_left f l st).
Proof.
  induction l as [|x l IH]; intros H st; simpl; [constructor|].
  eapply reach_trans; [apply H; left; reflexivity|].
  apply IH. intros; apply H; right; assumption.
Qed.

Lemma instrumentos_pass_reach text st : reach st (instrumentos_pass text st).
Proof.
  unfold instrumentos_pass. apply reach_fold_left. intros [pat c] st1 Hp.
  pose proof instrumentos_patterns_ok as Hall. rewrite forallb_forall in Hall.
  specialize (Hall _ Hp). simpl in Hall.
  apply reach_fold_left. intros mt st2 Hmt.
  apply reach_accept_groups. intros i g Hg.
  pose proof (finditer_ok Re.I pat text) as Hok. rewrite Forall_forall in Hok.
  eapply match_ok_decimal; eauto.
Qed.

Lemma combined_pass_reach text st : reach st (combined_pass text st).
Proof.
  unfold combined_pass. apply reach_fold_left. intros mt st1 Hmt.
  pose proof (finditer_ok Re.I REGEX_INSTRUMENTOS_COMBINED text) as Hok.
  rewrite Forall_forall in Hok. specialize (Hok mt Hmt).
  assert (Hg : forall i g, Re.group mt i = Some g -> Py.decimal_string g = true)
    by (intros i g; eapply match_ok_decimal; [exact Hok|reflexivity]).
  eapply reach_trans; apply reach_accept_groups; exact Hg.
Qed.

(** Each finder returns the sorted references of a state reached from the
    empty one by claiming runs of decimal digits. *)
Lemma find_references_dba_reach text :
  exists st, reach initial st
    /\ find_references_dba text = Ret (sort_references (references st)).
Proof.
  unfold find_references_dba. destruct (Py.truthy text); simpl.
  - set (t := text_for_processing text).
    destruct (standard_pass_steps true t (combined_pass t (instrumentos_pass t initial)))
      as (st1 & -> & R1). simpl.
    destruct (singles_pass_steps t st1) as (st2 & -> & R2). simpl.
    exists st2. split; [|reflexivity].
    eapply reach_trans; [apply instrumentos_pass_reach|].
    eapply reach_trans; [apply combined_pass_reach|].
    eapply reach_trans; eassumption.
  - exists initial. split; [constructor|reflexivity].
Qed.

Lemma find_references_totalnot_reach text :
  exists st, reach initial st
    /\ find_references_totalnot text = Ret (sort_references (references st)).
Proof.
  unfold find_references_totalnot. destruct (Py.truthy text); simpl.
  - destruct (standard_pass_steps false text initial) as (st1 & -> & R1). simpl.
    destruct (singles_pass_steps text st1) as (st2 & -> & R2). simpl.
    exists st2. split; [|reflexivity]. eapply reach_trans; eassumption.
  - exists initial. split; [constructor|reflexivity].
Qed.

Lemma find_references_contpaq_reach text :
  exists st, reach initial st
    /\ find_references_contpaq text = Ret (sort_references (references st)).
Proof. exact (find_references_totalnot_reach text). Qed.

End PassFacts.

(** ** Properties of the reference finders *)

Section FinderFacts.

Lemma pair_of_ref_inj r1 r2 : pair_of_ref r1 = pair_of_ref r2 -> r1 = r2.
Proof. destruct r1, r2. unfold pair_of_ref. simpl. congruence. Qed.

Lemma NoDup_pairs refs : NoDup refs -> NoDup (map pair_of_ref refs).
Proof.
  induction 1 as [|r refs Hr _ IH]; simpl; constructor; [|exact IH].
  rewrite in_map_iff. intros (r' & E & Hin). apply pair_of_ref_inj in E as ->. auto.
Qed.

Lemma sort_references_perm refs : Permutation (sort_references refs) refs.
Proof. apply sort_by_perm. Qed.

Lemma sorted_state_unique st :
  reach initial st -> NoDup (map pair_of_ref (sort_references (references st))).
Proof.
  intros R. apply NoDup_pairs.
  eapply Permutation_NoDup; [symmetry; apply sort_references_perm|].
  apply (inv_reach _ _ R inv_initial).
Qed.

Lemma sorted_state_decimal st :
  reach initial st -> Forall decimal_ref (sort_references (references st)).
Proof.
  intros R. eapply Permutation_Forall; [symmetry; apply sort_references_perm|].
  apply (decimal_reach _ _ R). constructor.
Qed.


End FinderFacts.

(** C2. Whatever the text, each of the three reference finders returns a
    list in which no [(category, number)] pair occurs twice, however many of
    the range, list, compound and single rules found the number. *)
Theorem references_pairwise_unique (text : string) :
  (exists refs, find_references_dba text = Ret refs /\ NoDup (map pair_of_ref refs))
  /\ (exists refs, find_references_totalnot text = Ret refs /\ NoDup (map pair_of_ref refs))
  /\ (exists refs, find_references_contpaq text = Ret refs /\ NoDup (map pair_of_ref refs)).
Proof.
  destruct (find_references_dba_reach text) as (s1 & R1 & E1).
  destruct (find_references_totalnot_reach text) as (s2 & R2 & E2).
  destruct (find_references_contpaq_reach text) as (s3 & R3 & E3).
  repeat split; eexists; (split; [eassumption|]); apply sorted_state_unique; assumption.
Qed.

(** C10. Whatever the text, every reference the three pattern-based finders
    return has a Number that is a non-empty run of the decimal digits 0-9. *)
Theorem numbers_are_decimal (text : string) :
  (exists refs, find_references_dba text = Ret refs
     /\ Forall (fun r => Py.decimal_string (Number r) = true) refs)
  /\ (exists refs, find_references_totalnot text = Ret refs
     /\ Forall (fun r => Py.decimal_string (Number r) = true) refs)
  /\ (exists refs, find_references_contpaq text = Ret refs
     /\ Forall (fun r => Py.decimal_string (Number r) = true) refs).
Proof.
  destruct (find_references_dba_reach text) as (s1 & R1 & E1).
  destruct (find_references_totalnot_reach text) as (s2 & R2 & E2).
  destruct (find_references_contpaq_reach text) as (s3 & R3 & E3).
  repeat split; eexists; (split; [eassumption|]);
    apply (sorted_state_decimal _); assumption.
Qed.

Section RangeFacts.

Lemma range_step_bounds c mt st start end_ :
  range_bounds mt = Some (start, end_) ->
  range_step c mt st = Ret (if (start <=? end_)%Z then expand c start end_ st else st).
Proof.
  unfold range_bounds, range_step.
  destruct (Re.group mt 1) as [g1|]; [|discriminate].
  destruct (Re.group mt 2) as [g2|]; [|discriminate].
  destruct (Py.int_of_str g1) as [a|]; [|discriminate].
  destruct (Py.int_of_str g2) as [b|]; [|discriminate].
  intros H. injection H as -> ->. reflexivity.
Qed.

Lemma for_each_app {A S : Type} (body : A -> S -> raising S) l1 l2 st :
  for_each body (l1 ++ l2)%list st = (do st' <- for_each body l1 st; for_each body l2 st').
Proof.
  revert st. induction l1 as [|x l1 IH]; intros st; simpl; [reflexivity|].
  destruct (body x st); simpl; [apply IH|reflexivity].
Qed.

Lemma range_bounds_nonneg r mt start end_ :
  match_ok r mt -> digit_groups r = true -> range_bounds mt = Some (start, end_) ->
  (0 <= start)%Z.
Proof.
  intros Hok Hd. unfold range_bounds.
  destruct (Re.group mt 1) as [g1|] eqn:E1; [|discriminate].
  destruct (Re.group mt 2) as [g2|]; [|discriminate].
  destruct (Py.int_of_str g1) as [z|] eqn:I1; [|discriminate].
  destruct (Py.int_of_str g2); [|discriminate].
  intros H. injection H as <- _.
  apply (int_of_str_nonneg g1 z (match_ok_decimal r mt 1 g1 Hok Hd E1) I1).
Qed.

(** Once a range match has been handled, its numbers are claimed for good. *)
Lemma range_claimed all_groups e mt text start end_ :
  In e patterns_and_types -> is_range e = true ->
  In mt (Re.finditer Re.I (pattern e) text) ->
  range_bounds mt = Some (start, end_) ->
  forall st st', standard_pass all_groups text st = Ret st' ->
  forall z, (start <= z <= end_)%Z -> Py.str_of_int z ∈ found_set (cat e) st'.
Proof.
  intros He Hr Hmt Hb st st' Hpass z Hz.
  pose proof (finditer_ok Re.I (pattern e) text) as Hall.
  assert (Hok : match_ok (pattern e) mt) by (rewrite Forall_forall in Hall; auto).
  pose proof (entry_ok_of e He) as E. unfold entry_ok in E.
  apply andb_true_iff in E as [E _]. apply andb_true_iff in E as [Hd _].
  pose proof (range_bounds_nonneg _ _ _ _ Hok Hd Hb) as Hpos.
  unfold standard_pass in Hpass.
  revert st st' Hpass.
  apply (for_each_keeps _ patterns_and_types e
           (fun s => Py.str_of_int z ∈ found_set (cat e) s)).
  - intros s s' R. apply found_reach, R.
  - apply Forall_forall. intros e' He' s. apply for_each_steps.
    apply Forall_steps_finditer. intros m' Hm'. apply standard_step_steps; assumption.
  - exact He.
  - apply (for_each_keeps _ (Re.finditer Re.I (pattern e) text) mt
             (fun s => Py.str_of_int z ∈ found_set (cat e) s)).
    + intros s s' R. apply found_reach, R.
    + apply Forall_steps_finditer. intros m' Hm'. apply standard_step_steps; assumption.
    + exact Hmt.
    + intros s s'. unfold standard_step. rewrite Hr, (range_step_bounds _ _ _ _ _ Hb).
      intros H. injection H as <-.
      replace (start <=? end_)%Z with true by (symmetry; apply Z.leb_le; lia).
      apply found_expand; assumption.
Qed.

(** In the sorted references of a reached state, a claimed number occurs
    exactly once. *)
Lemma claimed_once st c n :
  reach initial st -> n ∈ found_set c st ->
  count_occ Ref_eq_dec (sort_references (references st))
            {| Type_ := type_name c; Number := n |} = 1.
Proof.
  intros R Hn. destruct (inv_reach _ _ R inv_initial) as [Hnd Hiff].
  apply NoDup_count_occ'.
  - eapply Permutation_NoDup; [symmetry; apply sort_references_perm|exact Hnd].
  - eapply Permutation_in; [symmetry; apply sort_references_perm|].
    apply Hiff. exists c. auto.
Qed.

End RangeFacts.

(** C7. A range match whose end is smaller than its start leaves the
    references and the claimed numbers as they were, without an exception,
    and the loop over the matches of the row goes on with the other matches
    as if that match were not there. *)
Theorem inverted_range_skipped (all_groups : bool) (e : entry) (mt : Re.Match)
    (start end_ : Z) :
  is_range e = true ->
  range_bounds mt = Some (start, end_) ->
  (end_ < start)%Z ->
  (forall st, standard_step all_groups e mt st = Ret st)
  /\ (forall before after st,
        for_each (standard_step all_groups e) (before ++ mt :: after)%list st
        = for_each (standard_step all_groups e) (before ++ after)%list st).
Proof.
  intros Hr Hb Hlt.
  assert (Hstep : forall st, standard_step all_groups e mt st = Ret st).
  { intros st. unfold standard_step. rewrite Hr, (range_step_bounds _ _ _ _ _ Hb).
    replace (start <=? end_)%Z with false by (symmetry; apply Z.leb_gt; exact Hlt).
    reflexivity. }
  split; [exact Hstep|].
  intros before after st. rewrite !for_each_app.
  destruct (for_each (standard_step all_groups e) before st) as [st'|ex]; simpl;
    [|reflexivity].
  rewrite Hstep. reflexivity.
Qed.

(** The match of "Escritura Numero 50 A 10" is such a match, and the finder
    goes on to the reference that follows it. *)
Lemma inverted_range_skipped_witness :
  let e := {| pattern := REGEX_ESCRITURA_RANGE; cat := Escritura;
              is_range := true; special := false |} in
  exists mt,
    Re.finditer Re.I REGEX_ESCRITURA_RANGE "Escritura Numero 50 A 10, Escritura 7" = [mt]
    /\ range_bounds mt = Some (50, 10)%Z
    /\ (forall st, standard_step false e mt st = Ret st)
    /\ find_references_totalnot "Escritura Numero 50 A 10, Escritura 7"
       = Ret [escritura "7"].
Proof.
  intros e. eexists. split; [vm_compute; reflexivity|].
  split; [vm_compute; reflexivity|]. split.
  - apply (inverted_range_skipped false e _ 50 10);
      [reflexivity|vm_compute; reflexivity|lia].
  - vm_compute. reflexivity.
Defined.

(** C6. When the range pattern of a category matches "100 A 103" somewhere
    in the text, each finder returns the numbers 100, 101, 102 and 103 of
    that category exactly once each, whatever else the text holds, a
    single-form mention of 101 included; for a text made of the range and
    that mention, these four references are the whole result. *)
Theorem range_and_single_once (text : string) (e : entry) :
  In e patterns_and_types ->
  is_range e = true ->
  ((exists mt, In mt (Re.finditer Re.I (pattern e) (text_for_processing text))
               /\ range_bounds mt = Some (100, 103)%Z) ->
   exists refs, find_references_dba text = Ret refs
     /\ Forall (fun n => count_occ Ref_eq_dec refs
                           {| Type_ := type_name (cat e); Number := n |} = 1)
               hundred_to_103)
  /\ ((exists mt, In mt (Re.finditer Re.I (pattern e) text)
                  /\ range_bounds mt = Some (100, 103)%Z) ->
      (exists refs, find_references_totalnot text = Ret refs
         /\ Forall (fun n => count_occ Ref_eq_dec refs
                               {| Type_ := type_name (cat e); Number := n |} = 1)
                   hundred_to_103)
      /\ (exists refs, find_references_contpaq text = Ret refs
         /\ Forall (fun n => count_occ Ref_eq_dec refs
                               {| Type_ := type_name (cat e); Number := n |} = 1)
                   hundred_to_103))
  /\ find_references_totalnot "Escritura Numero 100 A 103 y Escritura Numero 101"
     = Ret (map escritura hundred_to_103).
Proof.
  intros He Hr.
  assert (Hnums : forall st, (forall z, (100 <= z <= 103)%Z ->
                    Py.str_of_int z ∈ found_set (cat e) st) ->
                  reach initial st ->
                  Forall (fun n => count_occ Ref_eq_dec (sort_references (references st))
                                     {| Type_ := type_name (cat e); Number := n |} = 1)
                         hundred_to_103).
  { intros st Hq R. unfold hundred_to_103.
    repeat constructor; apply claimed_once; try exact R.
    - apply (Hq 100%Z); lia.
    - apply (Hq 101%Z); lia.
    - apply (Hq 102%Z); lia.
    - apply (Hq 103%Z); lia. }
  assert (Hgen : forall t, (exists mt, In mt (Re.finditer Re.I (pattern e) t)
                     /\ range_bounds mt = Some (100, 103)%Z) ->
      exists st, (do st <- standard_pass false t initial; do st <- singles_pass t st;
                  Ret (sort_references (references st)))
                 = Ret (sort_references (references st))
        /\ reach initial st
        /\ forall z, (100 <= z <= 103)%Z -> Py.str_of_int z ∈ found_set (cat e) st).
  { intros t (mt & Hmt & Hb).
    destruct (standard_pass_steps false t initial) as (st1 & E1 & R1).
    destruct (singles_pass_steps t st1) as (st2 & E2 & R2).
    exists st2. rewrite E1. simpl. rewrite E2. simpl.
    split; [reflexivity|]. split; [eapply reach_trans; eassumption|].
    intros z Hz. eapply found_reach; [exact R2|].
    eapply range_claimed; eassumption. }
  assert (Hne : forall t mt, In mt (Re.finditer Re.I (pattern e) t) -> Py.truthy t = true).
  { intros [|a t] mt Hmt; [|reflexivity]. exfalso. revert Hmt. clear -He.
    repeat (destruct He as [<-|He]; [vm_compute; tauto|]). destruct He. }
  split; [|split].
  - intros (mt & Hmt & Hb).
    assert (Ht : Py.truthy text = true).
    { destruct text; [|reflexivity]. exact (Hne _ _ Hmt). }
    unfold find_references_dba. rewrite Ht. simpl.
    set (t := text_for_processing text) in *.
    set (st0 := combined_pass t (instrumentos_pass t initial)).
    assert (R0 : reach initial st0).
    { eapply reach_trans; [apply instrumentos_pass_reach|apply combined_pass_reach]. }
    destruct (standard_pass_steps true t st0) as (st1 & E1 & R1).
    destruct (singles_pass_steps t st1) as (st2 & E2 & R2).
    rewrite E1. simpl. rewrite E2. simpl. eexists. split; [reflexivity|].
    apply Hnums.
    + intros z Hz. eapply found_reach; [exact R2|]. eapply range_claimed; eassumption.
    + eapply reach_trans; [exact R0|]. eapply reach_trans; eassumption.
  - intros Hex.
    assert (Ht : Py.truthy text = true) by (destruct Hex as (mt & Hmt & _); eauto).
    destruct (Hgen text Hex) as (st & E & R & Hq).
    unfold find_references_totalnot, find_references_contpaq. rewrite Ht. simpl.
    split; exists (sort_references (references st)); (split; [exact E|]);
      apply Hnums; assumption.
  - vm_compute. reflexivity.
Qed.

(** The text "Escritura Numero 100 A 103 y Escritura Numero 101" has the
    range match, and also a single-form match of 101. *)
Lemma range_and_single_once_witness :
  let text := "Escritura Numero 100 A 103 y Escritura Numero 101" in
  let e := {| pattern := REGEX_ESCRITURA_RANGE; cat := Escritura;
              is_range := true; special := false |} in
  map (fun mt => Re.group mt 1) (Re.finditer Re.I REGEX_ESCRITURA_SINGLE text)
    = [Some "101"]
  /\ exists refs, find_references_totalnot text = Ret refs
       /\ Forall (fun n => count_occ Ref_eq_dec refs (escritura n) = 1) hundred_to_103.
Proof.
  intros text e. split; [vm_compute; reflexivity|].
  assert (He : In e patterns_and_types) by (left; reflexivity).
  destruct (range_and_single_once text e He eq_refl) as (_ & H & _).
  apply H.
  eexists. split; [left; vm_compute; reflexivity|vm_compute; reflexivity].
Defined.




(** ** Properties of the Folio resolver *)

Section FolioFacts.

Lemma folio_from_filename_returns filename :
  exists folio, folio_from_filename filename = Ret folio.
Proof.
  unfold folio_from_filename. destruct filename as [fn|]; [|eauto].
  destruct (Py.truthy fn); [|eauto].
  destruct (Re.search Re.I REGEX_FOLIO_DBA_FILENAME fn) as [mt|] eqn:E; [|eauto].
  apply search_ok in E.
  destruct (match_ok_group _ mt 1 E) as (g & ->); [left; reflexivity|].
  destruct (Py.isdigit g && (Py.len g <? 20)%nat); eauto.
Qed.

Lemma folio_before_checks_returns text invoice_type filename :
  exists folio, folio_before_checks text invoice_type filename = Ret folio.
Proof.
  unfold folio_before_checks.
  destruct (String.eqb invoice_type "DBA").
  - destruct (folio_from_filename_returns filename) as (folio & ->). simpl.
    destruct (negb (truthy_opt folio) && truthy_opt text); eauto.
  - destruct (String.eqb invoice_type "TOTALNOT").
    + destruct text as [t|]; [|eauto]. destruct (Py.truthy t); [|eauto].
      destruct (Re.search Re.I REGEX_FOLIO_TOTALNOT t); eauto.
    + destruct (String.eqb invoice_type "CONTPAQ"); [|eauto].
      destruct text as [t|]; [|eauto]. destruct (Py.truthy t); eauto.
Qed.

(** The early return agrees with the final checks on an absent Folio. *)
Lemma find_folio_checks text invoice_type filename :
  find_folio text invoice_type filename
  = (do folio <- folio_before_checks text invoice_type filename; Ret (final_checks folio)).
Proof.
  unfold find_folio, folio_before_checks.
  destruct (String.eqb invoice_type "DBA"); [rewrite andb_false_r; reflexivity|].
  rewrite andb_true_r.
  destruct text as [t|]; simpl.
  - destruct (Py.truthy t); simpl; [reflexivity|].
    destruct (String.eqb invoice_type "TOTALNOT"); [reflexivity|].
    destruct (String.eqb invoice_type "CONTPAQ"); reflexivity.
  - destruct (String.eqb invoice_type "TOTALNOT"); [reflexivity|].
    destruct (String.eqb invoice_type "CONTPAQ"); reflexivity.
Qed.

Lemma find_folio_returns text invoice_type filename :
  exists folio, find_folio text invoice_type filename = Ret folio.
Proof.
  rewrite find_folio_checks.
  destruct (folio_before_checks_returns text invoice_type filename) as (folio & ->).
  simpl. eauto.
Qed.

Lemma final_checks_long c : 20 < Py.len c -> final_checks (Some c) = FOLIO_FISCAL_SUSPECTED.
Proof.
  intros H. unfold final_checks.
  replace (20 <? Py.len c)%nat with true by (symmetry; apply Nat.ltb_lt; exact H).
  destruct c; [simpl in H; lia|reflexivity].
Qed.

Lemma final_checks_short c : 0 < Py.len c <= 20 -> final_checks (Some c) = c.
Proof.
  intros H. unfold final_checks.
  replace (20 <? Py.len c)%nat with false by (symmetry; apply Nat.ltb_ge; lia).
  destruct c; [simpl in H; lia|reflexivity].
Qed.

Lemma is_some_false {A : Type} (o : option A) : is_some o = false -> o = None.
Proof. destruct o; [discriminate|reflexivity]. Qed.

Lemma no_match_no_folio text invoice_type filename :
  pattern_matches text invoice_type filename = false ->
  exists folio, folio_before_checks text invoice_type filename = Ret folio
                /\ truthy_opt folio = false.
Proof.
  unfold pattern_matches, folio_before_checks.
  destruct (String.eqb invoice_type "DBA").
  - intros H. apply orb_false_iff in H as [H H3]. apply orb_false_iff in H as [H1 H2].
    assert (E : folio_from_filename filename = Ret None).
    { unfold folio_from_filename. destruct filename as [fn|]; [|reflexivity].
      apply is_some_false in H1. rewrite H1. destruct (Py.truthy fn); reflexivity. }
    rewrite E. simpl. destruct text as [t|]; simpl; [|eauto].
    apply is_some_false in H2, H3. unfold folio_from_dba_text. rewrite H2, H3.
    destruct (Py.truthy t); eauto.
  - destruct (String.eqb invoice_type "TOTALNOT").
    + destruct text as [t|]; [|eauto]. intros H. apply is_some_false in H. rewrite H.
      destruct (Py.truthy t); eauto.
    + destruct (String.eqb invoice_type "CONTPAQ"); [|eauto].
      destruct text as [t|]; [|eauto]. intros H.
      unfold contpaq_candidate.
      destruct (Re.finditer Re.I contpaq_simple_pattern t); [|discriminate].
      simpl. destruct (Py.truthy t); eauto.
Qed.

Lemma final_checks_falsy folio : truthy_opt folio = false -> final_checks folio = NOT_FOUND.
Proof. destruct folio as [[|a t]|]; simpl; [reflexivity|discriminate|reflexivity]. Qed.

Lemma first_accepted_app text l1 l2 :
  first_accepted text (l1 ++ l2)
  = match first_accepted text l1 with
    | Some mt => Some mt
    | None => first_accepted text l2
    end.
Proof.
  induction l1 as [|mt l1 IH]; simpl; [reflexivity|].
  destruct (not_after_folio_fiscal text mt); [reflexivity|exact IH].
Qed.

(** Scanning the reversed list finds the last accepted match. *)
Lemma first_accepted_rev text ms :
  first_accepted text (rev ms) = last_accepted text ms.
Proof.
  induction ms as [|mt ms IH]; simpl; [reflexivity|].
  rewrite first_accepted_app, IH. simpl.
  destruct (last_accepted text ms); [reflexivity|].
  destruct (not_after_folio_fiscal text mt); reflexivity.
Qed.

Lemma contpaq_scan_first text l :
  contpaq_scan text l
  = match first_accepted text l with Some mt => Re.group mt 1 | None => None end.
Proof.
  induction l as [|mt l IH]; simpl; [reflexivity|].
  destruct (not_after_folio_fiscal text mt); [reflexivity|exact IH].
Qed.

Lemma last_accepted_split text ms mt :
  last_accepted text ms = Some mt ->
  exists before after,
    ms = (before ++ mt :: after)%list
    /\ not_after_folio_fiscal text mt = true
    /\ Forall (fun later => not_after_folio_fiscal text later = false) after.
Proof.
  revert mt. induction ms as [|m0 ms IH]; intros mt; simpl; [discriminate|].
  destruct (last_accepted text ms) as [later|] eqn:E.
  - intros H. injection H as <-.
    destruct (IH later eq_refl) as (before & after & -> & Hacc & Hafter).
    exists (m0 :: before), after. auto.
  - destruct (not_after_folio_fiscal text m0) eqn:E0; [|discriminate].
    intros H. injection H as <-. exists [], ms. repeat split; [exact E0|].
    clear -E. induction ms as [|m1 ms IH]; [constructor|]. simpl in E.
    destruct (last_accepted text ms); [discriminate|].
    destruct (not_after_folio_fiscal text m1) eqn:E1; [discriminate|].
    constructor; auto.
Qed.

Lemma last_accepted_none text ms :
  last_accepted text ms = None ->
  Forall (fun mt => not_after_folio_fiscal text mt = false) ms.
Proof.
  induction ms as [|m1 ms IH]; [constructor|]. simpl.
  destruct (last_accepted text ms); [discriminate|].
  destruct (not_after_folio_fiscal text m1) eqn:E1; [discriminate|].
  constructor; auto.
Qed.

Lemma len_take n : forall x, Py.len (Py.take n x) = Nat.min n (Py.len x).
Proof.
  induction n as [|n IH]; intros [|a t]; simpl; try reflexivity.
  unfold Py.len in *. simpl. rewrite IH. reflexivity.
Qed.

Lemma len_drop n : forall x, Py.len (Py.drop n x) = Py.len x - n.
Proof.
  induction n as [|n IH]; intros [|a t]; simpl; try reflexivity.
  unfold Py.len in *. simpl. apply IH.
Qed.

Lemma take_drop_split n : forall j x,
  Py.take (n + j) x = (Py.take n x ++ Py.take j (Py.drop n x))%string.
Proof.
  induction n as [|n IH]; intros j [|a t]; simpl; try reflexivity.
  - destruct j; reflexivity.
  - rewrite IH. reflexivity.
Qed.

(** [preceding_text] is what stands in the 30 characters before the offset,
    or in all of them when there are fewer. *)
Lemma preceding_text_window text i :
  i <= Py.len text ->
  Py.take i text = (Py.take (i - 30) text ++ preceding_text text i)%string
  /\ Py.len (preceding_text text i) = Nat.min i 30.
Proof.
  intros Hi. unfold preceding_text, Py.slice. split.
  - rewrite <- take_drop_split. f_equal. lia.
  - rewrite len_take, len_drop. lia.
Qed.

End FolioFacts.

(** C4. A Folio candidate longer than 20 characters is answered with
    FOLIO_FISCAL_SUSPECTED, one of 25 characters in particular; a candidate
    of 6 characters is returned as the Folio; and when no Folio pattern of
    the invoice type matches, the answer is NOT_FOUND. *)
Theorem folio_length_heuristic (text : option string) (invoice_type : string)
    (filename : option string) :
  (forall candidate,
     folio_before_checks text invoice_type filename = Ret (Some candidate) ->
     (20 < Py.len candidate ->
      find_folio text invoice_type filename = Ret FOLIO_FISCAL_SUSPECTED)
     /\ (Py.len candidate = 25 ->
         find_folio text invoice_type filename = Ret FOLIO_FISCAL_SUSPECTED)
     /\ (Py.len candidate = 6 ->
         find_folio text invoice_type filename = Ret candidate))
  /\ (pattern_matches text invoice_type filename = false ->
      find_folio text invoice_type filename = Ret NOT_FOUND).
Proof.
  split.
  - intros c Hc. rewrite find_folio_checks, Hc. unfold bind. repeat split; intros H.
    + rewrite final_checks_long; [reflexivity|exact H].
    + rewrite final_checks_long; [reflexivity|lia].
    + rewrite final_checks_short; [reflexivity|lia].
  - intros H. rewrite find_folio_checks.
    destruct (no_match_no_folio _ _ _ H) as (folio & -> & Hf). unfold bind.
    rewrite (final_checks_falsy _ Hf). reflexivity.
Qed.

(** A TOTALNOT text with a 25-character candidate, one with a 6-character
    candidate, and one without a Folio. *)
Lemma folio_length_heuristic_witness :
  find_folio (Some "Folio interno: ABCDE12345ABCDE12345ABCDE ") "TOTALNOT" None
    = Ret FOLIO_FISCAL_SUSPECTED
  /\ find_folio (Some "Folio interno: A1B2C3 ") "TOTALNOT" None = Ret "A1B2C3"
  /\ find_folio (Some "Factura 12") "TOTALNOT" None = Ret NOT_FOUND.
Proof.
  split; [|split].
  - apply (folio_length_heuristic _ _ _) with (candidate := "ABCDE12345ABCDE12345ABCDE");
      [vm_compute; reflexivity|vm_compute; reflexivity].
  - apply (folio_length_heuristic _ _ _) with (candidate := "A1B2C3");
      [vm_compute; reflexivity|reflexivity].
  - apply (folio_length_heuristic _ _ _). vm_compute. reflexivity.
Defined.

(** C5. For a CONTPAQ text, a "FOLIO:" match is accepted exactly when
    "Folio fiscal" is not found in the 30 characters right before its start,
    and the Folio comes from the last accepted match, which is the accepted
    match of the highest position: it is that match's group after the final
    checks, and NOT_FOUND when no match is accepted. *)
Theorem contpaq_last_unpreceded (text : string) (filename : option string) :
  Py.truthy text = true ->
  let matches := Re.finditer Re.I contpaq_simple_pattern text in
  find_folio (Some text) "CONTPAQ" filename
    = Ret (match last_accepted text matches with
           | Some mt => final_checks (Re.group mt 1)
           | None => NOT_FOUND
           end)
  /\ (forall mt, last_accepted text matches = Some mt ->
        exists before after,
          matches = (before ++ mt :: after)%list
          /\ not_after_folio_fiscal text mt = true
          /\ Forall (fun later => not_after_folio_fiscal text later = false) after)
  /\ (last_accepted text matches = None ->
        Forall (fun mt => not_after_folio_fiscal text mt = false) matches)
  /\ (forall mt, not_after_folio_fiscal text mt = true <->
        Re.search Re.I folio_fiscal_pattern (preceding_text text (Re.m_start mt)) = None)
  /\ (forall i, i <= Py.len text ->
        Py.take i text = (Py.take (i - 30) text ++ preceding_text text i)%string
        /\ Py.len (preceding_text text i) = Nat.min i 30)
  /\ StronglySorted (fun earlier later => Re.m_start earlier < Re.m_start later) matches.
Proof.
  intros Ht matches. split; [|split; [|split; [|split; [|split]]]];
    [| | | | |apply finditer_increasing].
  - rewrite find_folio_checks. unfold folio_before_checks. simpl. rewrite Ht.
    unfold contpaq_candidate. fold matches.
    rewrite contpaq_scan_first, first_accepted_rev. simpl.
    destruct (last_accepted text matches) as [mt|]; [|reflexivity].
    destruct (Re.group mt 1) as [[|a t]|]; reflexivity.
  - apply last_accepted_split.
  - apply last_accepted_none.
  - intros mt. unfold not_after_folio_fiscal.
    destruct (Re.search Re.I folio_fiscal_pattern _); split; congruence.
  - apply preceding_text_window.
Qed.

(** Two "FOLIO:" matches, the later one right after "Folio fiscal": the
    earlier one is the last accepted. And the width of the window: "Folio
    fiscal" that starts 30 characters before the match rejects it, one
    character further back it does not. *)
Lemma contpaq_last_unpreceded_witness :
  find_folio (Some "FOLIO: 111 y Folio fiscal FOLIO: 222 ") "CONTPAQ" None = Ret "111"
  /\ find_folio (Some "Folio fiscal                  FOLIO: 9 ") "CONTPAQ" None
     = Ret NOT_FOUND
  /\ find_folio (Some "Folio fiscal                   FOLIO: 9 ") "CONTPAQ" None
     = Ret "9".
Proof.
  split; [|split].
  - destruct (contpaq_last_unpreceded "FOLIO: 111 y Folio fiscal FOLIO: 222 " None eq_refl)
      as (H & _).
    rewrite H. vm_compute. reflexivity.
  - destruct (contpaq_last_unpreceded "Folio fiscal                  FOLIO: 9 " None eq_refl)
      as (H & _).
    rewrite H. vm_compute. reflexivity.
  - destruct (contpaq_last_unpreceded "Folio fiscal                   FOLIO: 9 " None eq_refl)
      as (H & _).
    rewrite H. vm_compute. reflexivity.
Defined.

(** ** Properties of the record assembler *)

Section AssemblerFacts.

Lemma references_for_returns text invoice_type :
  exists refs, references_for text invoice_type = Ret refs.
Proof.
  unfold references_for. destruct text as [t|]; [|eauto].
  destruct (Py.truthy t); [|eauto].
  destruct (String.eqb invoice_type "DBA").
  { destruct (find_references_dba_reach t) as (st & _ & ->). eauto. }
  destruct (String.eqb invoice_type "TOTALNOT").
  { destruct (find_references_totalnot_reach t) as (st & _ & ->). eauto. }
  destruct (String.eqb invoice_type "CONTPAQ"); [|eauto].
  destruct (find_references_contpaq_reach t) as (st & _ & ->). eauto.
Qed.

Lemma assemble_nonempty pdf_path filename invoice_type text folio references :
  assemble pdf_path filename invoice_type text folio references <> [].
Proof.
  unfold assemble.
  match goal with
  | |- context [is_nil ?rows && _ && _] => generalize rows
  end.
  intros rows.
  destruct (is_nil rows && is_none text && mem_str folio [NOT_FOUND; "ERROR"]).
  - destruct rows; discriminate.
  - destruct rows; discriminate.
Qed.

Lemma assemble_no_references pdf_path filename invoice_type t folio :
  assemble pdf_path filename invoice_type (Some t) folio []
  = [sentinel_row pdf_path filename folio].
Proof. reflexivity. Qed.

End AssemblerFacts.

(** C1. Whatever the path, the invoice type and the outcome of the text
    extraction, [process_single_pdf] returns, and with at least one row; for
    a document whose text was extracted and which has no references, it
    returns exactly the sentinel row, with "N/A" for the type and the number
    and with the Folio that [find_folio] resolved. *)
Theorem at_least_one_record (basename : string -> string)
    (extract_text_from_pdf : string -> option string) (pdf_path invoice_type : string) :
  exists rows,
    process_single_pdf basename extract_text_from_pdf pdf_path invoice_type = Ret rows
    /\ 1 <= length rows
    /\ forall t,
         extract_text_from_pdf pdf_path = Some t ->
         references_for (Some t) invoice_type = Ret [] ->
         exists folio,
           find_folio (Some t) invoice_type (Some (basename pdf_path)) = Ret folio
           /\ rows = [sentinel_row pdf_path (basename pdf_path) folio].
Proof.
  unfold process_single_pdf.
  destruct (extract_text_from_pdf pdf_path) as [t|] eqn:Et.
  - change (is_none (Some t)) with false. cbn [andb].
    destruct (find_folio_returns (Some t) invoice_type (Some (basename pdf_path)))
      as (folio & Ef).
    destruct (references_for_returns (Some t) invoice_type) as (refs & Er).
    rewrite Ef, Er. unfold bind. eexists. split; [reflexivity|]. split.
    + pose proof (assemble_nonempty pdf_path (basename pdf_path) invoice_type
                    (Some t) folio refs) as Hne.
      destruct (assemble _ _ _ _ _ _); [congruence|simpl; lia].
    + intros t' Ht' Hnone. injection Ht' as <-. rewrite Er in Hnone.
      injection Hnone as ->. exists folio. split; [exact Ef|reflexivity].
  - change (is_none (@None string)) with true. cbn [andb].
    destruct (negb (String.eqb invoice_type "DBA")) eqn:Ed.
    + eexists. split; [reflexivity|]. split; [simpl; lia|]. intros t' Ht'. discriminate.
    + destruct (find_folio_returns None invoice_type (Some (basename pdf_path)))
        as (folio & Ef).
      rewrite Ef. unfold bind, references_for. eexists. split; [reflexivity|]. split.
      * pose proof (assemble_nonempty pdf_path (basename pdf_path) invoice_type
                      None folio []) as Hne.
        destruct (assemble _ _ _ _ _ _); [congruence|simpl; lia].
      * intros t' Ht'. discriminate.
Qed.

(** A TOTALNOT document whose text holds neither a Folio nor a reference. *)
Lemma at_least_one_record_witness :
  process_single_pdf (fun path => path) (fun _ => Some "Factura sin referencias")
    "a.pdf" "TOTALNOT"
  = Ret [sentinel_row "a.pdf" "a.pdf" NOT_FOUND].
Proof.
  destruct (at_least_one_record (fun path => path)
              (fun _ => Some "Factura sin referencias") "a.pdf" "TOTALNOT")
    as (rows & E & _ & Hsentinel).
  destruct (Hsentinel "Factura sin referencias" eq_refl) as (folio & Ef & ->).
  - vm_compute. reflexivity.
  - vm_compute in Ef. injection Ef as <-. exact E.
Defined.

(** ** Properties of the oracle client *)

Section OracleFacts.

Variable json_loads : string -> option json.
Variable str_of_container : json -> string.
Variable send : request -> raising json.

Lemma except_clauses_returns r : exists x, except_clauses r = Ret x.
Proof. destruct r as [x|[]]; simpl; eauto. Qed.

Lemma except_clauses_raise e : except_clauses (Raise e) = Ret None.
Proof. destruct e; reflexivity. Qed.



Lemma handle_response_with c :
  Py.truthy (Py.strip c) = true ->
  handle_response json_loads str_of_container (response_with c)
  = parse_content json_loads str_of_container (Py.strip c).
Proof. intros H. unfold handle_response. simpl. rewrite H. reflexivity. Qed.




(** Whatever comes back, a result that is not [None] went through
    [validate]. *)
Lemma parse_content_validated content res :
  parse_content json_loads str_of_container content = Ret (Some res) ->
  exists members, res = validate str_of_container members.
Proof.
  unfold parse_content. destruct (extract_json json_loads content) as [v|]; [|discriminate].
  destruct (truthy_json v); [|discriminate].
  destruct v; try discriminate. intros H. injection H as <-. eauto.
Qed.

Lemma query_validated pdf_text hint res :
  query_llm_for_details json_loads str_of_container send pdf_text hint = Ret (Some res) ->
  exists members, res = validate str_of_container members.
Proof.
  unfold query_llm_for_details.
  destruct (send _) as [response_data|e]; cbn [bind];
    [|rewrite except_clauses_raise; discriminate].
  unfold handle_response.
  destruct (message_content_of response_data) as [content|e]; cbn [bind];
    [|rewrite except_clauses_raise; discriminate].
  destruct content as [[| | | |message_content| |]|]; try discriminate.
  destruct (Py.truthy (Py.strip message_content)); [|discriminate].
  destruct (parse_content json_loads str_of_container (Py.strip message_content))
    as [[r|]|e] eqn:E; [| discriminate | rewrite except_clauses_raise; discriminate].
  simpl. intros H. injection H as <-. eapply parse_content_validated, E.
Qed.

Lemma mem_str_In x l : mem_str x l = true <-> In x l.
Proof.
  unfold mem_str. rewrite existsb_exists. split.
  - intros (y & Hy & E). apply String.eqb_eq in E as ->. exact Hy.
  - intros H. exists x. split; [exact H|apply String.eqb_refl].
Qed.

Lemma validate_type_allowed members :
  In (document_type (validate str_of_container members)) allowed_types.
Proof.
  unfold validate, check_id, check_type.
  destruct (mem_str (document_type (required_fields str_of_container members))
                    allowed_types) eqn:E.
  - apply mem_str_In in E.
    destruct (String.eqb _ "N/A"); [destruct (negb _)|]; exact E.
  - simpl. destruct (negb _); simpl; right; right; right; left; reflexivity.
Qed.

Lemma validate_na members :
  document_type (validate str_of_container members) = "N/A" ->
  document_id (validate str_of_container members) = "N/A".
Proof.
  unfold validate, check_id.
  destruct (String.eqb (document_type (check_type _)) "N/A") eqn:E.
  - destruct (negb (String.eqb (document_id (check_type _)) "N/A")) eqn:E2.
    + reflexivity.
    + intros _. apply negb_false_iff, String.eqb_eq in E2. exact E2.
  - intros H. apply String.eqb_neq in E. contradiction.
Qed.

Lemma validate_concrete members :
  In (document_type (required_fields str_of_container members)) concrete_types ->
  validate str_of_container members = required_fields str_of_container members.
Proof.
  unfold validate, check_id, check_type, concrete_types.
  generalize (required_fields str_of_container members). intros v Hin.
  assert (Hall : mem_str (document_type v) allowed_types = true).
  { apply mem_str_In. simpl in *. intuition. }
  rewrite Hall.
  assert (Hna : String.eqb (document_type v) "N/A" = false).
  { apply String.eqb_neq. intros E. rewrite E in Hin. simpl in Hin.
    intuition discriminate. }
  rewrite Hna. reflexivity.
Qed.

Lemma validate_folio members :
  folio_number (validate str_of_container members)
  = folio_number (required_fields str_of_container members).
Proof.
  unfold validate, check_id, check_type.
  destruct (mem_str _ allowed_types); simpl;
    repeat (match goal with |- context [if ?c then _ else _] => destruct c end);
    reflexivity.
Qed.

End OracleFacts.





(** C9. Validation leaves the Folio alone and returns an allowed type; when
    the type comes out as "N/A" the id is "N/A" too, whatever the oracle
    sent; when the type is one of the three concrete types the fields are
    returned as they were read, an id "N/A" included. A reply with the type
    "N/A" and the id "123" is answered with the id "N/A". *)
Theorem type_is_authoritative_over_id (str_of_container : json -> string)
    (members : list (string * json)) :
  let read := required_fields str_of_container members in
  let result := validate str_of_container members in
  folio_number result = folio_number read
  /\ In (document_type result) allowed_types
  /\ (document_type result = "N/A" -> document_id result = "N/A")
  /\ (In (document_type read) concrete_types -> result = read)
  /\ validate str_of_container
       [("document_type", JStr "N/A"); ("document_id", JStr "123")]
     = {| folio_number := "N/A"; document_type := "N/A"; document_id := "N/A" |}
  /\ (forall json_loads send pdf_text filename_hint answer,
        query_llm_for_details json_loads str_of_container send pdf_text filename_hint
        = Ret (Some answer) ->
        document_type answer = "N/A" -> document_id answer = "N/A").
Proof.
  intros read result. repeat split.
  - apply validate_folio.
  - apply validate_type_allowed.
  - apply validate_na.
  - apply validate_concrete.
  - intros json_loads send pdf_text hint answer H.
    apply query_validated in H as (ms & ->). apply validate_na.
Qed.

(** The reply {"document_type": "N/A", "document_id": "123"} read through
    the client, and a reply with a type and no id. *)
Lemma type_is_authoritative_over_id_witness :
  query_llm_for_details Json.loads no_containers
    (fun _ => Ret (response_with (Json.dq "{'document_type': 'N/A', 'document_id': '123'}")))
    "text" "a.pdf"
  = Ret (Some {| folio_number := "N/A"; document_type := "N/A"; document_id := "N/A" |})
  /\ validate no_containers [("document_type", JStr "Escritura"); ("document_id", JNull)]
     = {| folio_number := "N/A"; document_type := "Escritura"; document_id := "N/A" |}.
Proof.
  split.
  - assert (E : exists answer,
        query_llm_for_details Json.loads no_containers
          (fun _ => Ret (response_with
                           (Json.dq "{'document_type': 'N/A', 'document_id': '123'}")))
          "text" "a.pdf" = Ret (Some answer)
        /\ folio_number answer = "N/A" /\ document_type answer = "N/A")
      by (eexists; vm_compute; repeat split; reflexivity).
    destruct E as (answer & E & Hf & Ht). rewrite E.
    destruct (type_is_authoritative_over_id no_containers []) as (_ & _ & _ & _ & _ & H).
    pose proof (H _ _ _ _ _ E Ht) as Hid.
    destruct answer as [f t i]. simpl in *. subst. reflexivity.
  - destruct (type_is_authoritative_over_id no_containers
                [("document_type", JStr "Escritura"); ("document_id", JNull)])
      as (_ & _ & _ & H & _).
    rewrite H; [reflexivity|left; reflexivity].
Defined.

(** ** The rows of one file in [analyze_pdfs] *)

Lemma llm_rows_nonempty filename regex_folio_number llm_result :
  1 <= length (Processor.llm_rows filename regex_folio_number llm_result).
Proof.
  unfold Processor.llm_rows.
  destruct (String.eqb (document_type llm_result) "Both"
            && negb (String.eqb (document_id llm_result) "N/A")).
  - destruct (Processor.split_semicolon (document_id llm_result)) as [[before after]|];
      [|simpl; lia].
    destruct (Processor.has_ids (Py.strip before)), (Processor.has_ids (Py.strip after));
      simpl; lia.
  - destruct (mem_str (document_type llm_result) _); simpl; lia.
Qed.

Lemma regex_rows_nonempty filename regex_folio_number findings :
  1 <= length (Processor.regex_rows filename regex_folio_number findings).
Proof. destruct findings; simpl; lia. Qed.

(** X16. A file whose text was read gets at least one row, whether the oracle
    was asked or not and whatever it answered; with no finding of the
    patterns and no answer of the oracle, it gets the one row "N/A", "N/A"
    with the Folio of the patterns. *)
Theorem file_rows_at_least_one (json_loads : string -> option json)
    (str_of_container : json -> string) (send : request -> raising json)
    (filename clean_text regex_folio_number : string) (findings : list (string * string)) :
  exists rows,
    Processor.file_rows json_loads str_of_container send filename clean_text
      regex_folio_number findings = Ret rows
    /\ 1 <= length rows
    /\ (findings = [] ->
        query_llm_for_details json_loads str_of_container send clean_text filename
          = Ret None ->
        rows = [ {| Processor.Filename := filename;
                    Processor.Folio_Number := regex_folio_number;
                    Processor.Type_ := "N/A"; Processor.ID_Number := "N/A" |} ]).
Proof.
  unfold Processor.file_rows.
  destruct ((String.eqb regex_folio_number "Not Found" || is_nil findings)
            && Py.truthy clean_text).
  - destruct (except_clauses_returns
                (do response_data <- send {| truncated_text := Py.take max_chars clean_text;
                                             filename_hint := filename |};
                 handle_response json_loads str_of_container response_data))
      as (answer & E).
    unfold query_llm_for_details. rewrite E. cbn [bind].
    destruct answer as [result|]; eexists; (split; [reflexivity|]); split.
    + apply llm_rows_nonempty.
    + intros _ H. discriminate.
    + apply regex_rows_nonempty.
    + intros -> _. reflexivity.
  - eexists. split; [reflexivity|]. split; [apply regex_rows_nonempty|].
    intros -> _. reflexivity.
Qed.

(** The patterns found nothing and the oracle does not answer. *)
Lemma file_rows_at_least_one_witness :
  Processor.file_rows Json.loads no_containers (fun _ => Raise ConnectionError)
    "a.pdf" "Factura" "Not Found" []
  = Ret [ {| Processor.Filename := "a.pdf"; Processor.Folio_Number := "Not Found";
             Processor.Type_ := "N/A"; Processor.ID_Number := "N/A" |} ].
Proof.
  destruct (file_rows_at_least_one Json.loads no_containers (fun _ => Raise ConnectionError)
              "a.pdf" "Factura" "Not Found" []) as (rows & E & _ & Hrow).
  rewrite E. f_equal. apply Hrow; reflexivity.
Defined.

(** ** The finders report exactly the numbers the text mentions *)

Section Within.

Variable P : category -> string -> Prop.

Lemma within_trans st1 st2 st3 :
  reach_within P st1 st2 -> reach_within P st2 st3 -> reach_within P st1 st3.
Proof. intros H12 H23. induction H23; [exact H12|]. constructor; assumption. Qed.

Lemma within_one st c n : P c n -> reach_within P st (claim c n st).
Proof. intros H. constructor; [constructor|exact H]. Qed.

Lemma within_accept st c n : P c n -> reach_within P st (accept c n st).
Proof.
  intros H. unfold accept.
  destruct (Py.truthy n && Py.isdigit n); [apply within_one, H|constructor].
Qed.

Lemma within_fold_left {A : Type} (f : state -> A -> state) (l : list A) :
  (forall x st, In x l -> reach_within P st (f st x)) ->
  forall st, reach_within P st (fold_left f l st).
Proof.
  induction l as [|x l IH]; intros H st; simpl; [constructor|].
  eapply within_trans; [apply H; left; reflexivity|].
  apply IH. intros; apply H; right; assumption.
Qed.

Lemma within_accept_groups c mt idxs :
  (forall i g, In i idxs -> Re.group mt i = Some g -> P c (Py.strip g)) ->
  forall st, reach_within P st (accept_groups c mt idxs st).
Proof.
  intros Hg. unfold accept_groups. apply within_fold_left. intros i st Hi.
  destruct (Re.group mt i) as [g|] eqn:E; simpl; [|constructor].
  destruct (Py.truthy g); [|constructor]. apply within_accept. eauto.
Qed.

Lemma py_range_lt a b z : In z (py_range a b) -> (z < b)%Z.
Proof.
  unfold py_range. rewrite in_map_iff. intros (i & <- & Hi). apply in_seq in Hi. lia.
Qed.

Lemma within_expand c start end_ :
  (forall z, (start <= z <= end_)%Z -> P c (Py.str_of_int z)) ->
  forall st, reach_within P st (expand c start end_ st).
Proof.
  intros H st. unfold expand. apply within_fold_left. intros z st' Hz.
  apply within_one, H. pose proof (py_range_ge _ _ _ Hz). pose proof (py_range_lt _ _ _ Hz).
  lia.
Qed.

Lemma for_each_within {A : Type} (body : A -> state -> raising state) (l : list A) :
  Forall (steps_within P body) l -> steps_within P (for_each body) l.
Proof.
  induction l as [|x l IH]; intros H st; simpl.
  - exists st. split; [reflexivity|constructor].
  - inversion H as [|? ? Hx Hl]; subst.
    destruct (Hx st) as (st1 & -> & R1). simpl.
    destruct (IH Hl st1) as (st2 & -> & R2).
    exists st2. split; [reflexivity|eapply within_trans; eassumption].
Qed.

(** Every reference of a state reached within [P] is allowed by [P]. *)
Lemma within_references st :
  reach_within P initial st ->
  forall r, In r (references st) -> exists c, r = ref_of c (Number r) /\ P c (Number r).
Proof.
  induction 1 as [|st' c n R IH HP]; [intros r []|].
  intros r. unfold claim. case_bool_decide; [apply IH|].
  rewrite references_append, in_app_iff. intros [Hr|[<-|[]]]; [apply IH, Hr|].
  exists c. split; [reflexivity|exact HP].
Qed.

End Within.

Lemma within_weaken (P Q : category -> string -> Prop) st st' :
  (forall c n, P c n -> Q c n) -> reach_within P st st' -> reach_within Q st st'.
Proof. intros H. induction 1; [constructor|]. constructor; auto. Qed.

Section Mentions.

Lemma finditer_match_ok r text mt :
  In mt (Re.finditer Re.I r text) -> match_ok r mt.
Proof.
  intros H. pose proof (finditer_ok Re.I r text) as Hall.
  rewrite Forall_forall in Hall. auto.
Qed.

Lemma entry_facts e :
  In e patterns_and_types ->
  digit_groups (pattern e) = true
  /\ existsb (Nat.eqb 1) (sets (pattern e)) = true
  /\ (special e = false -> existsb (Nat.eqb 2) (sets (pattern e)) = true)
  /\ (is_range e = true -> special e = false).
Proof.
  intros He. pose proof (entry_ok_of e He) as E. unfold entry_ok in E.
  apply andb_true_iff in E as [E H2]. apply andb_true_iff in E as [Hd H1].
  repeat split; try assumption.
  - intros Hs. rewrite Hs in H2. exact H2.
  - clear -He. repeat (destruct He as [<-|He]; [simpl; congruence|]). destruct He.
Qed.

(** One step of the standard pass claims what its match mentions. *)
Lemma standard_step_within all_groups text e mt :
  In e patterns_and_types -> In mt (Re.finditer Re.I (pattern e) text) ->
  steps_within (mention_standard all_groups text) (standard_step all_groups e) mt.
Proof.
  intros He Hmt st. pose proof (finditer_match_ok _ _ _ Hmt) as Hok.
  destruct (entry_facts e He) as (Hd & H1 & H2 & Hrs).
  assert (Hm : forall n, entry_mentions all_groups e mt n ->
                         mention_standard all_groups text (cat e) n).
  { intros n Hn. exists e, mt. auto. }
  unfold standard_step. destruct (is_range e) eqn:Er.
  - specialize (H2 (Hrs eq_refl)). unfold range_step.
    destruct (group_decimal _ mt 1 Hok Hd H1) as (g1 & E1 & D1).
    destruct (group_decimal _ mt 2 Hok Hd H2) as (g2 & E2 & D2).
    rewrite E1, E2.
    destruct (Py.int_of_str g1) as [start|] eqn:I1;
      [|eexists; split; [reflexivity|constructor]].
    destruct (Py.int_of_str g2) as [end_|] eqn:I2;
      [|eexists; split; [reflexivity|constructor]].
    eexists. split; [reflexivity|].
    destruct (start <=? end_)%Z; [|constructor].
    apply within_expand. intros z Hz. apply Hm. unfold entry_mentions. rewrite Er.
    exists start, end_, z. unfold range_bounds. rewrite E1, E2, I1, I2. auto.
  - assert (Hgrp : forall i g, In i (reported_groups all_groups e) ->
                     Re.group mt i = Some g ->
                     mention_standard all_groups text (cat e) (Py.strip g)).
    { intros i g Hi Hg. rewrite (strip_decimal g (match_ok_decimal _ _ _ _ Hok Hd Hg)).
      apply Hm. unfold entry_mentions. rewrite Er. eauto. }
    unfold reported_groups in Hgrp. destruct (special e) eqn:Es.
    + destruct all_groups.
      * unfold special_step_all. eexists. split; [reflexivity|].
        apply within_accept_groups. exact Hgrp.
      * unfold special_step_first.
        destruct (group_decimal _ mt 1 Hok Hd H1) as (g1 & E1 & D1).
        rewrite E1. simpl. eexists. split; [reflexivity|].
        apply within_accept. apply (Hgrp 1 g1); [left; reflexivity|exact E1].
    + specialize (H2 eq_refl). unfold list_step.
      destruct (group_decimal _ mt 1 Hok Hd H1) as (g1 & E1 & D1).
      destruct (group_decimal _ mt 2 Hok Hd H2) as (g2 & E2 & D2).
      rewrite E1, E2. simpl. eexists. split; [reflexivity|].
      eapply within_trans; apply within_accept.
      * apply (Hgrp 1 g1); [left; reflexivity|exact E1].
      * apply (Hgrp 2 g2); [right; left; reflexivity|exact E2].
Qed.

Lemma standard_pass_within all_groups text :
  steps_within (mention_standard all_groups text) (standard_pass all_groups) text.
Proof.
  unfold standard_pass. apply for_each_within.
  apply Forall_forall. intros e He st. apply for_each_within.
  apply Forall_forall. intros mt Hmt. apply standard_step_within; assumption.
Qed.

(** [potential_singles] keeps the group of every match, in order. *)
Lemma potential_singles_groups r ms :
  digit_groups r = true -> existsb (Nat.eqb 1) (sets r) = true ->
  Forall (match_ok r) ms ->
  exists l, potential_singles ms = Ret l
            /\ forall n, In n l <-> exists mt, In mt ms /\ Re.group mt 1 = Some n.
Proof.
  intros Hd H1 Hms. unfold potential_singles.
  assert (G : forall acc, exists l,
      for_each
        (fun mt acc =>
           do num_candidate <- strip_of (Re.group mt 1);
           Ret (if Py.truthy num_candidate && Py.isdigit num_candidate
                then (acc ++ [num_candidate])%list else acc)) ms acc = Ret l
      /\ forall n, In n l <-> In n acc \/ exists mt, In mt ms /\ Re.group mt 1 = Some n).
  { induction Hms as [|mt ms Hok _ IH]; intros acc; simpl.
    - exists acc. split; [reflexivity|]. intros n. split; [auto|].
      intros [H|(mt & [] & _)]. exact H.
    - destruct (group_decimal r mt 1 Hok Hd H1) as (g1 & E1 & D1). rewrite E1. simpl.
      rewrite (strip_decimal g1 D1), (decimal_string_truthy _ D1),
        (decimal_string_isdigit _ D1). simpl.
      destruct (IH (acc ++ [g1])%list) as (l & -> & Hl). exists l.
      split; [reflexivity|]. intros n. rewrite Hl, in_app_iff. simpl. split.
      + intros [[H|[<-|[]]]|(m' & Hm' & Hg)]; eauto.
      + intros [H|(m' & [<-|Hm'] & Hg)]; eauto.
        left. right. left. congruence. }
  destruct (G []) as (l & E & Hl). exists l. split; [exact E|].
  intros n. rewrite Hl. simpl. tauto.
Qed.

Lemma single_facts pat c :
  In (pat, c) single_patterns ->
  digit_groups pat = true /\ existsb (Nat.eqb 1) (sets pat) = true.
Proof.
  intros Hp. pose proof single_patterns_ok as Hall. rewrite forallb_forall in Hall.
  specialize (Hall _ Hp). unfold single_ok in Hall. simpl in Hall.
  apply andb_true_iff in Hall. exact Hall.
Qed.

Lemma singles_pass_within text : steps_within (mention_single text) singles_pass text.
Proof.
  unfold singles_pass. apply for_each_within.
  apply Forall_forall. intros [pat c] Hp st. destruct (single_facts pat c Hp) as [Hd H1].
  destruct (potential_singles_groups pat (Re.finditer Re.I pat text) Hd H1
              (finditer_ok Re.I pat text)) as (l & -> & Hl).
  simpl. eexists. split; [reflexivity|].
  apply within_fold_left. intros n st' Hn. apply within_one.
  apply Hl in Hn as (mt & Hmt & Hg). exists pat, mt. auto.
Qed.

Lemma accept_groups_claims c mt idxs i n :
  (forall k g, Re.group mt k = Some g -> Py.decimal_string g = true) ->
  In i idxs -> Re.group mt i = Some n ->
  forall st, n ∈ found_set c (accept_groups c mt idxs st).
Proof.
  intros Hdec Hin Hg. pose proof (Hdec _ _ Hg) as Dn. unfold accept_groups.
  induction idxs as [|j idxs IH]; intros st; [destruct Hin|]. simpl.
  destruct Hin as [->|Hin]; [|apply IH, Hin].
  rewrite Hg. simpl. rewrite (decimal_string_truthy _ Dn), (strip_decimal _ Dn),
    (accept_decimal _ _ _ Dn).
  eapply found_reach; [|apply found_after_claim].
  apply (reach_accept_groups c mt idxs). exact Hdec.
Qed.

Lemma fold_left_keeps {A : Type} (f : state -> A -> state) (l : list A) (x0 : A)
    (Q : state -> Prop) :
  (forall s s', reach s s' -> Q s -> Q s') ->
  (forall x s, In x l -> reach s (f s x)) ->
  In x0 l -> (forall s, Q (f s x0)) ->
  forall st, Q (fold_left f l st).
Proof.
  intros Hmono Hreach Hin HQ. induction l as [|x l IH]; intros st; [destruct Hin|]. simpl.
  destruct Hin as [->|Hin].
  - apply (Hmono (f st x0)); [|apply HQ].
    apply reach_fold_left. intros y s Hy. apply Hreach. right. exact Hy.
  - apply IH; [|exact Hin]. intros y s Hy. apply Hreach. right. exact Hy.
Qed.

(** What the standard pass claims for a mention, it has claimed at its end. *)
Lemma standard_pass_claims all_groups text c n st st' :
  mention_standard all_groups text c n ->
  standard_pass all_groups text st = Ret st' -> n ∈ found_set c st'.
Proof.
  intros (e & mt & He & <- & Hmt & Hn). revert st st'. unfold standard_pass.
  pose proof (finditer_match_ok _ _ _ Hmt) as Hok.
  destruct (entry_facts e He) as (Hd & H1 & H2 & Hrs).
  apply (for_each_keeps _ patterns_and_types e (fun s => n ∈ found_set (cat e) s)).
  - intros s s' R. apply found_reach, R.
  - apply Forall_forall. intros e' He' s. apply for_each_steps.
    apply Forall_steps_finditer. intros m' Hm'. apply standard_step_steps; assumption.
  - exact He.
  - apply (for_each_keeps _ (Re.finditer Re.I (pattern e) text) mt
             (fun s => n ∈ found_set (cat e) s)).
    + intros s s' R. apply found_reach, R.
    + apply Forall_steps_finditer. intros m' Hm'. apply standard_step_steps; assumption.
    + exact Hmt.
    + intros s s'. unfold standard_step, entry_mentions in *.
      destruct (is_range e) eqn:Er.
      * destruct Hn as (start & end_ & z & Hb & Hz & ->).
        rewrite (range_step_bounds _ _ _ _ _ Hb). intros H. injection H as <-.
        replace (start <=? end_)%Z with true by (symmetry; apply Z.leb_le; lia).
        apply found_expand; [|exact Hz].
        eapply range_bounds_nonneg; eassumption.
      * destruct Hn as (i & Hi & Hg).
        pose proof (match_ok_decimal _ _ _ _ Hok Hd Hg) as Dn.
        assert (Hall : forall idxs s0, In i idxs ->
                         n ∈ found_set (cat e) (accept_groups (cat e) mt idxs s0)).
        { intros idxs s0 Hin. apply (accept_groups_claims _ _ _ i); auto.
          intros k g Hk. eapply match_ok_decimal; eassumption. }
        unfold reported_groups in Hi. destruct (special e) eqn:Es.
        -- destruct all_groups.
           ++ unfold special_step_all. intros H. injection H as <-. apply Hall, Hi.
           ++ destruct Hi as [<-|[]]. unfold special_step_first. rewrite Hg. simpl.
              rewrite (strip_decimal _ Dn), (accept_decimal _ _ _ Dn).
              intros H. injection H as <-. apply found_after_claim.
        -- specialize (H2 eq_refl). unfold list_step.
           destruct (group_decimal _ mt 1 Hok Hd H1) as (g1 & E1 & D1).
           destruct (group_decimal _ mt 2 Hok Hd H2) as (g2 & E2 & D2).
           rewrite E1, E2. simpl.
           rewrite (strip_decimal _ D1), (strip_decimal _ D2),
             (accept_decimal _ _ _ D1), (accept_decimal _ _ _ D2).
           intros H. injection H as <-.
           destruct Hi as [<-|[<-|[]]].
           ++ apply found_claim. replace n with g1 by congruence. apply found_after_claim.
           ++ replace n with g2 by congruence. apply found_after_claim.
Qed.

Lemma found_claim_all c (l : list string) n :
  Forall (fun x => Py.decimal_string x = true) l -> In n l ->
  forall st, n ∈ found_set c (fold_left (fun st num_str => claim c num_str st) l st).
Proof.
  induction 1 as [|x l Hx Hl IH]; intros Hn st; [destruct Hn|]. simpl.
  destruct Hn as [->|Hn]; [|apply IH, Hn].
  eapply found_reach; [apply reach_claim_all, Hl|apply found_after_claim].
Qed.

Lemma singles_pass_claims text c n st st' :
  mention_single text c n -> singles_pass text st = Ret st' -> n ∈ found_set c st'.
Proof.
  intros (pat & mt & Hp & Hmt & Hg). revert st st'. unfold singles_pass.
  apply (for_each_keeps _ single_patterns (pat, c) (fun s => n ∈ found_set c s)).
  - intros s s' R. apply found_reach, R.
  - apply Forall_forall. intros [pat' c'] Hp' s.
    destruct (single_facts pat' c' Hp') as [Hd H1].
    destruct (potential_singles_decimal pat' (Re.finditer Re.I pat' text) Hd H1
                (finditer_ok Re.I pat' text)) as (l & -> & Hl).
    simpl. eexists. split; [reflexivity|apply reach_claim_all, Hl].
  - exact Hp.
  - intros s s'. destruct (single_facts pat c Hp) as [Hd H1].
    destruct (potential_singles_decimal pat (Re.finditer Re.I pat text) Hd H1
                (finditer_ok Re.I pat text)) as (l & E & Hdec).
    destruct (potential_singles_groups pat (Re.finditer Re.I pat text) Hd H1
                (finditer_ok Re.I pat text)) as (l' & E' & Hl).
    rewrite E in E'. injection E' as <-. rewrite E. simpl.
    intros H. injection H as <-. apply found_claim_all; [exact Hdec|].
    apply Hl. eauto.
Qed.

(** A reference is in the sorted result exactly when its number is claimed. *)
Lemma in_sorted_state st c n :
  reach initial st ->
  (In (ref_of c n) (sort_references (references st)) <-> n ∈ found_set c st).
Proof.
  intros R. destruct (inv_reach _ _ R inv_initial) as [_ Hiff].
  split.
  - intros H. apply (Permutation_in _ (sort_references_perm _)) in H.
    apply Hiff in H as (c' & Hty & Hn). simpl in Hty, Hn.
    apply type_name_inj in Hty as <-. exact Hn.
  - intros H. apply (Permutation_in _ (Permutation_sym (sort_references_perm _))).
    apply Hiff. exists c. auto.
Qed.

Lemma within_in_sorted (P : category -> string -> Prop) st c n :
  reach_within P initial st ->
  In (ref_of c n) (sort_references (references st)) -> P c n.
Proof.
  intros R H. apply (Permutation_in _ (sort_references_perm _)) in H.
  destruct (within_references P st R _ H) as (c' & E & HP). simpl in *.
  injection E as Ety. apply type_name_inj in Ety as <-. exact HP.
Qed.

Lemma within_sorted_types (P : category -> string -> Prop) st r :
  reach_within P initial st ->
  In r (sort_references (references st)) -> exists c, Type_ r = type_name c.
Proof.
  intros R H. apply (Permutation_in _ (sort_references_perm _)) in H.
  destruct (within_references P st R _ H) as (c & E & _). exists c. rewrite E. reflexivity.
Qed.

Lemma no_match_in_empty_text (c : category) (n : string) :
  ~ mentioned_generic "" c n.
Proof.
  intros [(e & mt & He & _ & Hmt & _)|(pat & mt & Hp & Hmt & _)].
  - revert Hmt. clear -He. repeat (destruct He as [<-|He]; [vm_compute; tauto|]). destruct He.
  - revert Hmt. clear -Hp.
    repeat (destruct Hp as [Hp|Hp]; [injection Hp as <- _; vm_compute; tauto|]).
    destruct Hp.
Qed.

Lemma instrumentos_facts pat c mt text :
  In (pat, c) instrumentos_patterns -> In mt (Re.finditer Re.I pat text) ->
  forall i g, Re.group mt i = Some g -> Py.decimal_string g = true.
Proof.
  intros Hp Hmt i g Hg.
  pose proof instrumentos_patterns_ok as Hall. rewrite forallb_forall in Hall.
  specialize (Hall _ Hp). simpl in Hall.
  eapply match_ok_decimal; [exact (finditer_match_ok _ _ _ Hmt)|exact Hall|exact Hg].
Qed.

Lemma combined_facts mt text :
  In mt (Re.finditer Re.I REGEX_INSTRUMENTOS_COMBINED text) ->
  forall i g, Re.group mt i = Some g -> Py.decimal_string g = true.
Proof.
  intros Hmt i g.
  eapply match_ok_decimal; [exact (finditer_match_ok _ _ _ Hmt)|reflexivity].
Qed.

Lemma instrumentos_pass_within text st :
  reach_within (mention_instrumentos text) st (instrumentos_pass text st).
Proof.
  unfold instrumentos_pass. apply within_fold_left. intros [pat c] st1 Hp.
  apply within_fold_left. intros mt st2 Hmt.
  apply within_accept_groups. intros i g Hi Hg.
  rewrite (strip_decimal g (instrumentos_facts _ _ _ _ Hp Hmt _ _ Hg)).
  exists pat, mt, i. auto.
Qed.

Lemma combined_pass_within text st :
  reach_within (mention_combined text) st (combined_pass text st).
Proof.
  unfold combined_pass. apply within_fold_left. intros mt st1 Hmt.
  eapply within_trans; apply within_accept_groups; intros i g Hi Hg;
    rewrite (strip_decimal g (combined_facts _ _ Hmt _ _ Hg)); exists mt, i; auto.
Qed.

Lemma instrumentos_pass_claims text c n st :
  mention_instrumentos text c n -> n ∈ found_set c (instrumentos_pass text st).
Proof.
  intros (pat & mt & i & Hp & Hmt & Hi & Hg). revert st. unfold instrumentos_pass.
  apply (fold_left_keeps _ instrumentos_patterns (pat, c) (fun s => n ∈ found_set c s)).
  - intros s s' R. apply found_reach, R.
  - intros [pat' c'] s Hp'. apply reach_fold_left. intros m' s' Hm'.
    apply reach_accept_groups. eapply instrumentos_facts; eassumption.
  - exact Hp.
  - apply (fold_left_keeps _ (Re.finditer Re.I pat text) mt (fun s => n ∈ found_set c s)).
    + intros s s' R. apply found_reach, R.
    + intros m' s Hm'. apply reach_accept_groups. eapply instrumentos_facts; eassumption.
    + exact Hmt.
    + intros s. apply (accept_groups_claims _ _ _ i); auto.
      eapply instrumentos_facts; eassumption.
Qed.

Lemma combined_pass_claims text c n st :
  mention_combined text c n -> n ∈ found_set c (combined_pass text st).
Proof.
  intros (mt & i & Hmt & Hi & Hg). revert st. unfold combined_pass.
  apply (fold_left_keeps _ (Re.finditer Re.I REGEX_INSTRUMENTOS_COMBINED text) mt
           (fun s => n ∈ found_set c s)).
  - intros s s' R. apply found_reach, R.
  - intros m' s Hm'.
    eapply reach_trans; apply reach_accept_groups; eapply combined_facts; eassumption.
  - exact Hmt.
  - intros s. pose proof (combined_facts _ _ Hmt) as Hdec. destruct c; simpl in Hi.
    + eapply found_reach; [apply reach_accept_groups, Hdec|].
      apply (accept_groups_claims _ _ _ i); auto.
    + apply (accept_groups_claims _ _ _ i); auto.
Qed.

Lemma no_dba_match_in_empty_text (c : category) (n : string) :
  ~ mentioned_dba "" c n.
Proof.
  unfold mentioned_dba.
  assert (E : text_for_processing "" = "") by (vm_compute; reflexivity). rewrite E.
  intros [(pat & mt & i & Hp & Hmt & _)|[(mt & i & Hmt & _)|[H|H]]].
  - revert Hmt. clear -Hp.
    repeat (destruct Hp as [Hp|Hp]; [injection Hp as <- _; vm_compute; tauto|]).
    destruct Hp.
  - revert Hmt. vm_compute. tauto.
  - destruct H as (e & mt & He & _ & Hmt & _).
    revert Hmt. clear -He. repeat (destruct He as [<-|He]; [vm_compute; tauto|]). destruct He.
  - eapply no_match_in_empty_text. right. exact H.
Qed.

End Mentions.

(** X1. The TOTALNOT and CONTPAQ finders return the same list for every
    text, and it holds exactly the references the text mentions: a number is
    reported for a category if and only if it lies in the span of a range
    match whose two bounds convert ([range_bounds]: a bound of more than
    [Py.int_max_str_digits] digits does not, and the match is then passed
    over), or is a group read from a list or special match, or is the group
    of a single match of that category; every reported type is one of the
    two type names. *)
Theorem generic_finders_report_the_mentions (text : string) :
  exists refs,
    find_references_totalnot text = Ret refs
    /\ find_references_contpaq text = Ret refs
    /\ (forall c n, In (ref_of c n) refs <-> mentioned_generic text c n)
    /\ (forall r, In r refs -> exists c, Type_ r = type_name c).
Proof.
  unfold find_references_contpaq, find_references_totalnot.
  destruct (Py.truthy text) eqn:Ht; simpl.
  - destruct (standard_pass_steps false text initial) as (st1 & E1 & R1).
    destruct (standard_pass_within false text initial) as (st1' & E1' & W1).
    rewrite E1 in E1'. injection E1' as <-.
    destruct (singles_pass_steps text st1) as (st2 & E2 & R2).
    destruct (singles_pass_within text st1) as (st2' & E2' & W2).
    rewrite E2 in E2'. injection E2' as <-.
    rewrite E1. simpl. rewrite E2. simpl.
    assert (R : reach initial st2) by (eapply reach_trans; eassumption).
    assert (W : reach_within (mentioned_generic text) initial st2).
    { eapply within_trans; eapply within_weaken; try eassumption;
        unfold mentioned_generic; auto. }
    exists (sort_references (references st2)). repeat split.
    + apply (within_in_sorted _ _ _ _ W).
    + intros Hm. apply in_sorted_state; [exact R|].
      destruct Hm as [Hm|Hm].
      * eapply found_reach; [exact R2|]. eapply standard_pass_claims; eassumption.
      * eapply singles_pass_claims; eassumption.
    + intros r. apply (within_sorted_types _ _ _ W).
  - destruct text; [|discriminate]. exists [].
    split; [reflexivity|]. split; [reflexivity|]. split.
    + intros c n. split; [intros []|].
      intros H. exfalso. eapply no_match_in_empty_text, H.
    + intros r [].
Qed.

(** A range and a single mention in a TOTALNOT text; and a range whose
    upper bound has 4301 digits, which is passed over. *)
Lemma generic_finders_report_the_mentions_witness :
  let text := "Escritura Numeros 3 A 5 y Acta Fuera de Protocolo 9" in
  (exists refs,
     find_references_totalnot text = Ret refs
     /\ In (ref_of Escritura "4") refs /\ In (ref_of Acta "9") refs)
  /\ find_references_totalnot ("Escritura Numeros 3 A " ++ repeat_str "9" 4301) = Ret [].
Proof.
  intros text. split; [|vm_compute; reflexivity].
  destruct (generic_finders_report_the_mentions text)
    as (refs & E & _ & Hiff & _).
  exists refs. split; [exact E|]. split.
  - apply Hiff. left.
    exists (nth 0 patterns_and_types
              {| pattern := Re.Empty; cat := Acta; is_range := false; special := false |}).
    eexists. split; [left; reflexivity|]. split; [reflexivity|].
    split; [vm_compute; left; reflexivity|].
    exists 3%Z, 5%Z, 4%Z. split; [vm_compute; reflexivity|]. split; [lia|reflexivity].
  - apply Hiff. right. exists REGEX_ACTA_SINGLE. eexists.
    split; [right; left; reflexivity|]. split; [vm_compute; left; reflexivity|reflexivity].
Defined.

(** X2. The DBA finder reports exactly the references that its text, with
    the dates masked, mentions: the groups of the matches of the
    INSTRUMENTOS patterns and of the combined pattern, the spans of the
    range matches whose two bounds convert ([range_bounds]: a bound of more
    than [Py.int_max_str_digits] digits does not, and the match is then
    passed over), every group of list and special matches, and the group of
    single matches; every reported type is one of the two type names. *)
Theorem dba_finder_reports_the_mentions (text : string) :
  exists refs,
    find_references_dba text = Ret refs
    /\ (forall c n, In (ref_of c n) refs <-> mentioned_dba text c n)
    /\ (forall r, In r refs -> exists c, Type_ r = type_name c).
Proof.
  unfold find_references_dba.
  destruct (Py.truthy text) eqn:Ht; simpl.
  - unfold mentioned_dba. set (t := text_for_processing text).
    set (sti := instrumentos_pass t initial). set (st0 := combined_pass t sti).
    destruct (standard_pass_steps true t st0) as (st1 & E1 & R1).
    destruct (standard_pass_within true t st0) as (st1' & E1' & W1).
    rewrite E1 in E1'. injection E1' as <-.
    destruct (singles_pass_steps t st1) as (st2 & E2 & R2).
    destruct (singles_pass_within t st1) as (st2' & E2' & W2).
    rewrite E2 in E2'. injection E2' as <-.
    rewrite E1. simpl. rewrite E2. simpl.
    assert (Ri : reach initial sti) by apply instrumentos_pass_reach.
    assert (R0 : reach sti st0) by apply combined_pass_reach.
    assert (R : reach initial st2) by (repeat (eapply reach_trans; [eassumption|]); constructor).
    pose (P := fun c n => mention_instrumentos t c n \/ mention_combined t c n
                          \/ mention_standard true t c n \/ mention_single t c n).
    assert (W : reach_within P initial st2).
    { eapply within_trans;
        [eapply within_weaken; [|apply (instrumentos_pass_within t initial)]|];
        [unfold P; auto|].
      eapply within_trans;
        [eapply within_weaken; [|apply (combined_pass_within t sti)]|];
        [unfold P; auto|].
      eapply within_trans; eapply within_weaken; try eassumption; unfold P; auto. }
    exists (sort_references (references st2)). repeat split.
    + apply (within_in_sorted P _ _ _ W).
    + intros Hm. apply in_sorted_state; [exact R|].
      destruct Hm as [Hm|[Hm|[Hm|Hm]]].
      * eapply found_reach; [|eapply instrumentos_pass_claims, Hm].
        repeat (eapply reach_trans; [eassumption|]); constructor.
      * eapply found_reach; [|eapply combined_pass_claims, Hm].
        repeat (eapply reach_trans; [eassumption|]); constructor.
      * eapply found_reach; [exact R2|]. eapply standard_pass_claims; eassumption.
      * eapply singles_pass_claims; eassumption.
    + intros r. apply (within_sorted_types _ _ _ W).
  - destruct text; [|discriminate]. exists [].
    split; [reflexivity|]. split.
    + intros c n. split; [intros []|].
      intros H. exfalso. eapply no_dba_match_in_empty_text, H.
    + intros r [].
Qed.

(** The DBA finder on a text with a masked date, an Instrumentos entry and a
    range: the day of the date is not reported, the inner numbers of the
    range are. A range whose upper bound has 4301 digits is passed over. *)
Lemma dba_finder_reports_the_mentions_witness :
  let text := "Fecha Escritura: 29/11/2023 Instrumentos - Esc 7 Acta Fuera de Protocolo Numeros 3 A 5" in
  (exists refs,
     find_references_dba text = Ret refs
     /\ In (ref_of Acta "4") refs /\ In (ref_of Escritura "7") refs
     /\ ~ In (ref_of Escritura "29") refs)
  /\ find_references_dba ("Escritura Numeros 3 A " ++ repeat_str "9" 4301) = Ret [].
Proof.
  intros text. split; [|vm_compute; reflexivity].
  destruct (dba_finder_reports_the_mentions text) as (refs & E & Hiff & _).
  exists refs. split; [exact E|]. split; [|split].
  - apply Hiff. right. right. left.
    exists (nth 1 patterns_and_types (nth 0 patterns_and_types
              {| pattern := Re.Empty; cat := Acta; is_range := false; special := false |})).
    eexists. split; [right; left; reflexivity|]. split; [reflexivity|].
    split; [vm_compute; left; reflexivity|].
    exists 3%Z, 5%Z, 4%Z. split; [vm_compute; reflexivity|]. split; [lia|reflexivity].
  - apply Hiff. left. exists REGEX_INSTRUMENTOS_ESC_SINGLE. eexists. exists 1.
    split; [left; reflexivity|]. split; [vm_compute; left; reflexivity|].
    split; [left; reflexivity|reflexivity].
  - vm_compute in E. injection E as <-. vm_compute. intuition discriminate.
Defined.

(** ** Further properties of the Folio resolver *)

Section FolioFacts.

Variable fl : Re.flags.

(** What [\d{lo,hi}] reads: between [lo] and [hi] decimal digits, counting
    the iterations already done; it binds nothing. *)
Lemma rep_digits k lo n : forall count cu c x,
  Re.rep_loop (Re.m fl Re.d) k lo n count cu c = Some x ->
  exists cu' read, k cu' c = Some x
    /\ Py.all_chars Py.is_decimal read = true
    /\ Re.rest cu = (read ++ Re.rest cu')%string
    /\ Py.len read <= n /\ lo <= count + Py.len read.
Proof.
  assert (Hstep : forall n' count cu c x,
    (forall count cu c x,
       Re.rep_loop (Re.m fl Re.d) k lo n' count cu c = Some x ->
       exists cu' read, k cu' c = Some x
         /\ Py.all_chars Py.is_decimal read = true
         /\ Re.rest cu = (read ++ Re.rest cu')%string
         /\ Py.len read <= n' /\ lo <= count + Py.len read) ->
    Re.m fl Re.d (fun cu' c' => Re.rep_loop (Re.m fl Re.d) k lo n' (S count) cu' c') cu c
      = Some x ->
    exists cu' read, k cu' c = Some x
      /\ Py.all_chars Py.is_decimal read = true
      /\ Re.rest cu = (read ++ Re.rest cu')%string
      /\ Py.len read <= S n' /\ lo <= count + Py.len read).
  { intros n' count cu c x IH H. unfold Re.d in H at 1. cbn [Re.m] in H.
    destruct (Re.rest cu) as [|a t] eqn:Hr; [discriminate|].
    destruct (Re.in_set fl [Re.CDigit] a) eqn:Ha; [|discriminate].
    apply IH in H as (cu' & read & Hk & Hd & Hrest & Hn & Hlo). simpl in Hrest.
    exists cu', (String a read). split; [exact Hk|]. split; [|split; [|split]].
    - simpl. rewrite (in_set_digit fl a Ha), Hd. reflexivity.
    - simpl. rewrite Hrest. reflexivity.
    - unfold Py.len in *. simpl. lia.
    - unfold Py.len in *. simpl. lia. }
  induction n as [|n IH]; intros count cu c x H; cbn [Re.rep_loop] in H.
  - destruct (count <? lo)%nat eqn:E; [discriminate|]. apply Nat.ltb_ge in E.
    exists cu, EmptyString. repeat split; auto. simpl. unfold Py.len. simpl. lia.
  - destruct (count <? lo)%nat eqn:E.
    + apply Hstep; assumption.
    + apply orelse_some in H as [H|H]; [apply Hstep; assumption|].
      apply Nat.ltb_ge in E.
      exists cu, EmptyString. repeat split; auto.
      * unfold Py.len. simpl. lia.
      * unfold Py.len. simpl. lia.
Qed.

Lemma search_from_here r : forall s pos pv mt cu',
  Re.search_from fl r pos pv s = Some (mt, cu') ->
  exists cu, Re.match_here fl r cu = Some (cu', Re.m_caps mt).
Proof.
  induction s as [|a t IH]; intros pos pv mt cu' H; simpl in H.
  - destruct (Re.match_here fl r _) as [[cu1 c]|] eqn:E; [|discriminate].
    injection H as <- <-. eauto.
  - destruct (Re.match_here fl r _) as [[cu1 c]|] eqn:E.
    + injection H as <- <-. eauto.
    + eapply IH, H.
Qed.

Lemma search_here r s mt :
  Re.search fl r s = Some mt ->
  exists cu cu', Re.match_here fl r cu = Some (cu', Re.m_caps mt).
Proof.
  unfold Re.search. destruct (Re.search_from fl r 0 None s) as [[mt' cu']|] eqn:E;
    [|discriminate].
  intros H. injection H as <-. apply search_from_here in E as (cu & E). eauto.
Qed.

End FolioFacts.

Lemma all_decimal_nonempty x :
  Py.all_chars Py.is_decimal x = true -> 0 < Py.len x -> Py.decimal_string x = true.
Proof.
  intros H Hl. unfold Py.decimal_string. rewrite H.
  destruct x; [unfold Py.len in Hl; simpl in Hl; lia|reflexivity].
Qed.

(** The group of a match of [_(\d{1,5})_]: one to five decimal digits. *)
Lemma filename_group mt fn :
  Re.search Re.I REGEX_FOLIO_DBA_FILENAME fn = Some mt ->
  exists g, Re.group mt 1 = Some g
            /\ Py.decimal_string g = true /\ Py.len g <= 5.
Proof.
  intros H. apply search_here in H as (cu & cu' & H).
  unfold Re.group. unfold Re.match_here, REGEX_FOLIO_DBA_FILENAME in H.
  cbn [Re.seq fold_right Re.m] in H.
  destruct (Re.eat Re.I "_" cu) as [cu1|]; [|discriminate].
  apply rep_digits in H as (cu2 & read & H & Hd & Hrest & Hn & Hlo).
  cbn beta in H. cbn [Re.m] in H.
  destruct (Re.eat Re.I "_" cu2) as [cu3|]; [|discriminate].
  injection H as _ <-. simpl. exists (Re.taken cu1 cu2).
  rewrite (taken_read _ _ _ Hrest). split; [reflexivity|]. split; [|exact Hn].
  apply all_decimal_nonempty; [exact Hd|lia].
Qed.

Lemma short_decimal_passes g :
  Py.decimal_string g = true -> Py.len g <= 5 ->
  (Py.isdigit g && (Py.len g <? 20)%nat) = true
  /\ final_checks (Some g) = g
  /\ mem_str g [NOT_FOUND; "ERROR"; FOLIO_FISCAL_SUSPECTED] = false.
Proof.
  intros Hd Hl. split; [|split].
  - rewrite (decimal_string_isdigit _ Hd). simpl. apply Nat.ltb_lt. lia.
  - apply final_checks_short. split; [|lia].
    destruct g; [discriminate|unfold Py.len; simpl; lia].
  - unfold mem_str, existsb.
    destruct (String.eqb g NOT_FOUND) eqn:E1;
      [apply String.eqb_eq in E1; subst; discriminate|].
    destruct (String.eqb g "ERROR") eqn:E2;
      [apply String.eqb_eq in E2; subst; discriminate|].
    destruct (String.eqb g FOLIO_FISCAL_SUSPECTED) eqn:E3;
      [apply String.eqb_eq in E3; subst; discriminate|].
    reflexivity.
Qed.

Lemma search_empty_filename :
  Re.search Re.I REGEX_FOLIO_DBA_FILENAME "" = None.
Proof. vm_compute. reflexivity. Qed.

(** The Folio that the name of a DBA file gives. *)
Lemma folio_from_filename_spec fn :
  folio_from_filename (Some fn)
  = Ret (file_name_folio fn).
Proof.
  unfold folio_from_filename, file_name_folio.
  destruct (Py.truthy fn) eqn:Ht.
  - destruct (Re.search Re.I REGEX_FOLIO_DBA_FILENAME fn) as [mt|] eqn:E; [|reflexivity].
    destruct (filename_group mt fn E) as (g & -> & Hd & Hl).
    destruct (short_decimal_passes g Hd Hl) as (-> & _). reflexivity.
  - destruct fn; [|discriminate]. rewrite search_empty_filename. reflexivity.
Qed.

Lemma file_name_folio_shape fn g :
  file_name_folio fn = Some g -> Py.decimal_string g = true /\ Py.len g <= 5.
Proof.
  unfold file_name_folio.
  destruct (Re.search Re.I REGEX_FOLIO_DBA_FILENAME fn) as [mt|] eqn:E; [|discriminate].
  destruct (filename_group mt fn E) as (g' & -> & Hd & Hl).
  intros H. injection H as <-. auto.
Qed.

(** X3. For a DBA document whose file name holds [_<1 to 5 digits>_], the
    Folio is the first such run of digits, whatever the text says and also
    when no text could be extracted. *)
Theorem dba_folio_from_file_name (text : option string) (fn : string) (mt : Re.Match) :
  Re.search Re.I REGEX_FOLIO_DBA_FILENAME fn = Some mt ->
  exists folio,
    Re.group mt 1 = Some folio
    /\ Py.decimal_string folio = true /\ 1 <= Py.len folio <= 5
    /\ find_folio text "DBA" (Some fn) = Ret folio.
Proof.
  intros H. destruct (filename_group mt fn H) as (g & Hg & Hd & Hl).
  exists g. split; [exact Hg|]. split; [exact Hd|]. split.
  - split; [|exact Hl]. destruct g; [discriminate|unfold Py.len; simpl; lia].
  - rewrite find_folio_checks. unfold folio_before_checks.
    change (String.eqb "DBA" "DBA") with true. cbn iota.
    rewrite folio_from_filename_spec. unfold file_name_folio. rewrite H, Hg.
    unfold bind. unfold truthy_opt at 1.
    rewrite (decimal_string_truthy _ Hd). cbn [negb andb].
    destruct (short_decimal_passes g Hd Hl) as (_ & -> & _). reflexivity.
Qed.

Lemma dba_folio_from_file_name_witness :
  find_folio None "DBA" (Some "FAC_00123_cliente.pdf") = Ret "00123"
  /\ find_folio (Some "Folio: 999 Serie: A") "DBA" (Some "FAC_00123_cliente.pdf")
     = Ret "00123".
Proof.
  split.
  - destruct (dba_folio_from_file_name None "FAC_00123_cliente.pdf"
                {| Re.m_start := 3; Re.m_end := 10; Re.m_caps := [(1, "00123")] |})
      as (folio & Hg & _ & _ & E); [vm_compute; reflexivity|].
    vm_compute in Hg. injection Hg as <-. exact E.
  - destruct (dba_folio_from_file_name (Some "Folio: 999 Serie: A") "FAC_00123_cliente.pdf"
                {| Re.m_start := 3; Re.m_end := 10; Re.m_caps := [(1, "00123")] |})
      as (folio & Hg & _ & _ & E); [vm_compute; reflexivity|].
    vm_compute in Hg. injection Hg as <-. exact E.
Defined.

(** X4. [find_folio] always returns, and never with an empty string: its
    result is the sentinel "FOLIO_FISCAL_SUSPECTED" or a string of one to
    twenty characters, which is the sentinel "NOT_FOUND" when no candidate
    was found. *)
Theorem find_folio_result_shape (text : option string) (invoice_type : string)
    (filename : option string) :
  exists folio,
    find_folio text invoice_type filename = Ret folio
    /\ (folio = FOLIO_FISCAL_SUSPECTED \/ 1 <= Py.len folio <= 20)
    /\ (forall candidate,
          folio_before_checks text invoice_type filename = Ret candidate ->
          truthy_opt candidate = false -> folio = NOT_FOUND).
Proof.
  rewrite find_folio_checks.
  destruct (folio_before_checks_returns text invoice_type filename) as (cand & ->).
  unfold bind. exists (final_checks cand). split; [reflexivity|]. split.
  - destruct cand as [f|]; [|right; vm_compute; lia].
    destruct (Nat.ltb_spec 20 (Py.len f)) as [Hlong|Hshort].
    + left. apply final_checks_long, Hlong.
    + right. destruct f as [|a t]; [vm_compute; lia|].
      rewrite final_checks_short; unfold Py.len in *; simpl in *; lia.
  - intros c Hc Hf. injection Hc as <-. apply final_checks_falsy, Hf.
Qed.

Lemma find_folio_result_shape_witness :
  find_folio (Some "Folio interno:   ") "TOTALNOT" None = Ret NOT_FOUND
  /\ find_folio (Some "Folio interno: ABCDE12345ABCDE12345ABCDE ") "TOTALNOT" None
     = Ret FOLIO_FISCAL_SUSPECTED.
Proof.
  split.
  - destruct (find_folio_result_shape (Some "Folio interno:   ") "TOTALNOT" None)
      as (folio & E & _ & Hnone).
    rewrite E. f_equal. apply (Hnone None); reflexivity.
  - destruct (find_folio_result_shape
                (Some "Folio interno: ABCDE12345ABCDE12345ABCDE ") "TOTALNOT" None)
      as (folio & E & [->|Hlen] & _); [exact E|].
    vm_compute in E. injection E as <-. vm_compute in Hlen. lia.
Defined.

Section WordFacts.

Variable fl : Re.flags.

Lemma in_set_word a : Re.in_set fl [Re.CWord] a = true -> Py.is_word a = true.
Proof.
  unfold Re.in_set, Re.in_cls. simpl. rewrite orb_false_r.
  assert (Hl : Py.is_word (Py.lower a) = true -> Py.is_word a = true)
    by (destruct a as [[] [] [] [] [] [] [] []]; vm_compute; exact (fun H => H)).
  assert (Hu : Py.is_word (Py.upper a) = true -> Py.is_word a = true)
    by (destruct a as [[] [] [] [] [] [] [] []]; vm_compute; exact (fun H => H)).
  destruct (Py.is_word a); [reflexivity|]. simpl.
  destruct (Re.ignorecase fl); simpl; [|discriminate].
  intros H. apply orb_true_iff in H as [H|H]; auto.
Qed.

(** What [[...]*] reads lies in the set; it binds nothing. *)
Lemma star_set l k n : forall cu c x,
  Re.star_loop (Re.m fl (Re.Set_ l)) k n cu c = Some x ->
  exists cu' read, k cu' c = Some x
    /\ Py.all_chars (Re.in_set fl l) read = true
    /\ Re.rest cu = (read ++ Re.rest cu')%string.
Proof.
  induction n as [|n IH]; intros cu c x H; cbn [Re.star_loop] in H.
  - exists cu, EmptyString. auto.
  - apply orelse_some in H as [H|H]; [|exists cu, EmptyString; auto].
    cbn [Re.m] in H.
    destruct (Re.rest cu) as [|a t] eqn:Hr; [discriminate|].
    destruct (Re.in_set fl l a) eqn:Ha; [|discriminate].
    match type of H with (if ?b then _ else _) = _ => destruct b end; [|discriminate].
    apply IH in H as (cu' & read & Hk & Hd & Hrest). simpl in Hrest.
    exists cu', (String a read). split; [exact Hk|]. split.
    + simpl. rewrite Ha, Hd. reflexivity.
    + simpl. rewrite Hrest. reflexivity.
Qed.

(** What [[...]+] reads lies in the set and is not empty. *)
Lemma plus_set l k cu c x :
  Re.m fl (Re.Plus (Re.Set_ l)) k cu c = Some x ->
  exists cu' read, k cu' c = Some x
    /\ Py.all_chars (Re.in_set fl l) read = true /\ Py.truthy read = true
    /\ Re.rest cu = (read ++ Re.rest cu')%string.
Proof.
  cbn [Re.m].
  destruct (Re.rest cu) as [|a t] eqn:Hr; [discriminate|].
  destruct (Re.in_set fl l a) eqn:Ha; [|discriminate].
  intros H. apply star_set in H as (cu' & read & Hk & Hd & Hrest). simpl in Hrest.
  exists cu', (String a read). split; [exact Hk|]. split; [|split; [reflexivity|]].
  - simpl. rewrite Ha, Hd. reflexivity.
  - rewrite Hrest. reflexivity.
Qed.

Lemma finditer_from_here r : forall fuel pos pv x mt,
  In mt (Re.finditer_from fuel fl r pos pv x) ->
  exists cu cu', Re.match_here fl r cu = Some (cu', Re.m_caps mt).
Proof.
  induction fuel as [|fuel IH]; intros pos pv x mt; simpl; [intros []|].
  destruct (Re.search_from fl r pos pv x) as [[m1 cu1]|] eqn:E; [|intros []].
  intros [<-|Hin].
  - apply search_from_here in E as (cu & E). eauto.
  - destruct (Re.m_start m1 <? Re.m_end m1)%nat; [eapply IH, Hin|].
    destruct (Re.rest cu1); [destruct Hin|eapply IH, Hin].
Qed.

Lemma word_chars_are_words l read :
  l = [Re.CWord] -> Py.all_chars (Re.in_set fl l) read = true ->
  Py.all_chars Py.is_word read = true.
Proof.
  intros ->. induction read as [|a t IH]; simpl; [reflexivity|].
  intros H. apply andb_true_iff in H as [Ha Ht].
  rewrite (in_set_word a Ha). auto.
Qed.

End WordFacts.

Ltac read_pattern H :=
  repeat
    (cbn beta in H; cbn [Re.m] in H;
     match type of H with
     | match Re.eat ?fl ?lit ?cu with _ => _ end = Some _ =>
         let cu' := fresh "cu" in
         destruct (Re.eat fl lit cu) as [cu'|]; [|discriminate]
     | Re.star_loop _ _ _ _ _ = Some _ =>
         let cu' := fresh "cu" in
         apply star_set in H as (cu' & _ & H & _ & _)
     | (if Re.at_boundary ?cu then _ else _) = Some _ =>
         destruct (Re.at_boundary cu); [|discriminate]
     end).

(** The Folio of a TOTALNOT or CONTPAQ match is a word. *)
Lemma word_folio_group r cu cu' c :
  r = REGEX_FOLIO_TOTALNOT \/ r = contpaq_simple_pattern ->
  Re.match_here Re.I r cu = Some (cu', c) ->
  exists g, Re.lookup_cap 1 c = Some g
            /\ Py.all_chars Py.is_word g = true /\ Py.truthy g = true.
Proof.
  intros [-> | ->] H; unfold Re.match_here in H.
  - unfold REGEX_FOLIO_TOTALNOT in H. cbn [Re.seq fold_right] in H.
    cbn [Re.m] in H.
    destruct (Re.eat Re.I "Folio" cu) as [cu1|]; [|discriminate].
    unfold Re.s in H at 1.
    apply plus_set in H as (cu2 & _ & H & _ & _ & _).
    read_pattern H. unfold Re.s, Re.w in H. read_pattern H.
    apply plus_set in H as (cu5 & read & H & Hw & Ht & Hrest).
    read_pattern H. injection H as _ <-.
    exists read. rewrite (taken_read _ _ _ Hrest). split; [reflexivity|].
    split; [eapply word_chars_are_words; [reflexivity|exact Hw]|exact Ht].
  - unfold contpaq_simple_pattern in H. cbn [Re.seq fold_right] in H.
    unfold Re.s, Re.w in H. read_pattern H.
    apply plus_set in H as (cu5 & read & H & Hw & Ht & Hrest).
    read_pattern H. injection H as _ <-.
    exists read. rewrite (taken_read _ _ _ Hrest). split; [reflexivity|].
    split; [eapply word_chars_are_words; [reflexivity|exact Hw]|exact Ht].
Qed.

Lemma decimal_is_word s : Py.decimal_string s = true -> Py.all_chars Py.is_word s = true.
Proof.
  intros H. apply decimal_string_all in H.
  induction s as [|a t IH]; simpl; [reflexivity|].
  simpl in H. apply andb_true_iff in H as [Ha Ht]. rewrite (IH Ht), andb_true_r.
  unfold Py.is_word, Py.is_digit_char. rewrite Ha. simpl. rewrite orb_true_r. reflexivity.
Qed.

Lemma contpaq_scan_word text : forall ms g,
  (forall mt, In mt ms -> In mt (Re.finditer Re.I contpaq_simple_pattern text)) ->
  contpaq_scan text ms = Some g -> Py.all_chars Py.is_word g = true.
Proof.
  induction ms as [|mt ms IH]; intros g Hin; simpl; [discriminate|].
  destruct (not_after_folio_fiscal text mt).
  - intros Hg. destruct (finditer_from_here Re.I _ _ _ _ _ mt (Hin mt (or_introl eq_refl)))
      as (cu & cu' & Hm).
    destruct (word_folio_group _ cu cu' _ (or_intror eq_refl) Hm) as (g' & Hg' & Hw & _).
    unfold Re.group in Hg. rewrite Hg' in Hg. injection Hg as <-. exact Hw.
  - apply IH. intros m' Hm'. apply Hin. right. exact Hm'.
Qed.

(** The candidate that reaches the final checks: digits for DBA, word
    characters for the other types. *)
Lemma candidate_is_a_word text invoice_type filename g :
  folio_before_checks text invoice_type filename = Ret (Some g) ->
  Py.all_chars Py.is_word g = true
  /\ (invoice_type = "DBA" -> Py.truthy g = true -> Py.decimal_string g = true).
Proof.
  unfold folio_before_checks.
  destruct (String.eqb invoice_type "DBA") eqn:Ed.
  - assert (Hdec : Py.decimal_string g = true ->
              Py.all_chars Py.is_word g = true
              /\ (invoice_type = "DBA" -> Py.truthy g = true -> Py.decimal_string g = true)).
    { intros Hd. split; [apply decimal_is_word, Hd|auto]. }
    destruct filename as [fn|].
    + rewrite folio_from_filename_spec. unfold bind.
      destruct (negb (truthy_opt (file_name_folio fn)) && truthy_opt text) eqn:Ec.
      * destruct text as [t|]; [|discriminate]. unfold folio_from_dba_text.
        destruct (Re.search Re.I REGEX_FOLIO_DBA t) as [mt|] eqn:E1.
        { intros H. injection H as H. apply Hdec.
          eapply match_ok_decimal; [eapply search_ok, E1|reflexivity|exact H]. }
        destruct (Re.search Re.IS REGEX_FOLIO_DBA_ALT t) as [mt|] eqn:E2; [|discriminate].
        intros H. injection H as H. apply Hdec.
        eapply match_ok_decimal; [eapply search_ok, E2|reflexivity|exact H].
      * intros H. injection H as H. apply Hdec.
        apply (file_name_folio_shape fn g H).
    + simpl. destruct text as [t|]; simpl; [|discriminate].
      destruct (Py.truthy t); [|discriminate]. unfold folio_from_dba_text.
      destruct (Re.search Re.I REGEX_FOLIO_DBA t) as [mt|] eqn:E1.
      { intros H. injection H as H. apply Hdec.
        eapply match_ok_decimal; [eapply search_ok, E1|reflexivity|exact H]. }
      destruct (Re.search Re.IS REGEX_FOLIO_DBA_ALT t) as [mt|] eqn:E2; [|discriminate].
      intros H. injection H as H. apply Hdec.
      eapply match_ok_decimal; [eapply search_ok, E2|reflexivity|exact H].
  - assert (Hnot : invoice_type = "DBA" -> Py.truthy g = true -> Py.decimal_string g = true).
    { intros ->. discriminate. }
    destruct (String.eqb invoice_type "TOTALNOT").
    + destruct text as [t|]; [|discriminate]. destruct (Py.truthy t); [|discriminate].
      destruct (Re.search Re.I REGEX_FOLIO_TOTALNOT t) as [mt|] eqn:E; [|discriminate].
      intros H. injection H as H. split; [|exact Hnot].
      apply search_here in E as (cu & cu' & Hm).
      destruct (word_folio_group _ cu cu' _ (or_introl eq_refl) Hm) as (g' & Hg' & Hw & _).
      unfold Re.group in H. rewrite Hg' in H. injection H as <-. exact Hw.
    + destruct (String.eqb invoice_type "CONTPAQ"); [|discriminate].
      destruct text as [t|]; [|discriminate]. destruct (Py.truthy t); [|discriminate].
      unfold contpaq_candidate.
      destruct (truthy_opt (contpaq_scan t (rev (Re.finditer Re.I contpaq_simple_pattern t))));
        [|discriminate].
      intros H. injection H as H. split; [|exact Hnot].
      eapply contpaq_scan_word; [|exact H].
      intros mt Hmt. apply in_rev, Hmt.
Qed.

(** X18. A Folio that [find_folio] returns is made of word characters
    (letters, digits, underscore): it is one of the two sentinels, or the
    candidate of a pattern; for a DBA document a Folio that is not a
    sentinel is a run of decimal digits. *)
Theorem folio_is_a_word (text : option string) (invoice_type : string)
    (filename : option string) :
  exists folio,
    find_folio text invoice_type filename = Ret folio
    /\ Py.all_chars Py.is_word folio = true
    /\ (invoice_type = "DBA" ->
        folio = NOT_FOUND \/ folio = FOLIO_FISCAL_SUSPECTED
        \/ Py.decimal_string folio = true).
Proof.
  rewrite find_folio_checks.
  destruct (folio_before_checks text invoice_type filename) as [cand|e] eqn:E.
  - unfold bind. exists (final_checks cand). split; [reflexivity|].
    destruct cand as [g|]; [|split; [reflexivity|auto]].
    destruct (candidate_is_a_word _ _ _ _ E) as [Hw Hd].
    unfold final_checks.
    destruct (Py.truthy g && (20 <? Py.len g)%nat); [split; [reflexivity|auto]|].
    destruct (Py.truthy g) eqn:Ht; simpl; [|split; [reflexivity|auto]].
    split; [exact Hw|]. intros Hty. right. right. apply Hd; [exact Hty|reflexivity].
  - destruct (folio_before_checks_returns text invoice_type filename) as (c & Hc).
    congruence.
Qed.

Lemma folio_is_a_word_witness :
  find_folio (Some "Serie RP Folio 4521 Fecha") "DBA" (Some "factura.pdf") = Ret "4521"
  /\ Py.decimal_string "4521" = true.
Proof.
  destruct (folio_is_a_word (Some "Serie RP Folio 4521 Fecha") "DBA" (Some "factura.pdf"))
    as (folio & E & _ & Hd).
  assert (Ef : folio = "4521") by (vm_compute in E; injection E as <-; reflexivity).
  subst folio. split; [exact E|].
  destruct (Hd eq_refl) as [H|[H|H]]; [discriminate|discriminate|exact H].
Defined.

(** ** Further properties of the record assembler and of the batch loop *)

Section RowFacts.

Variable basename : string -> string.
Variable extract_text_from_pdf : string -> option string.

Lemma references_for_reach text invoice_type :
  exists st, reach initial st
    /\ references_for text invoice_type = Ret (sort_references (references st)).
Proof.
  assert (Hnone : exists st, reach initial st
            /\ @Ret (list Ref) [] = Ret (sort_references (references st))).
  { exists initial. split; [constructor|reflexivity]. }
  unfold references_for. destruct text as [t|]; [|exact Hnone].
  destruct (Py.truthy t); [|exact Hnone].
  destruct (String.eqb invoice_type "DBA"); [apply find_references_dba_reach|].
  destruct (String.eqb invoice_type "TOTALNOT"); [apply find_references_totalnot_reach|].
  destruct (String.eqb invoice_type "CONTPAQ"); [apply find_references_contpaq_reach|].
  exact Hnone.
Qed.

Lemma type_name_not_error c : String.eqb (type_name c) "ERROR" = false.
Proof. destruct c; reflexivity. Qed.

Lemma references_for_types text invoice_type refs :
  references_for text invoice_type = Ret refs ->
  forall r, In r refs -> exists c, Type_ r = type_name c.
Proof.
  destruct (references_for_reach text invoice_type) as (st & R & ->).
  intros H r Hr. injection H as <-.
  apply (Permutation_in _ (sort_references_perm _)) in Hr.
  destruct (inv_reach _ _ R inv_initial) as [_ Hiff].
  apply Hiff in Hr as (c & Hc & _). eauto.
Qed.

Lemma references_for_unique text invoice_type refs :
  references_for text invoice_type = Ret refs -> NoDup (map pair_of_ref refs).
Proof.
  destruct (references_for_reach text invoice_type) as (st & R & ->).
  intros H. injection H as <-. apply sorted_state_unique, R.
Qed.

Lemma assemble_with_text pdf_path filename invoice_type t folio refs :
  assemble pdf_path filename invoice_type (Some t) folio refs
  = reference_rows pdf_path filename folio refs.
Proof. destruct refs; reflexivity. Qed.

(** What [process_single_pdf] does once the text is read. *)
Lemma process_with_text pdf_path invoice_type t :
  extract_text_from_pdf pdf_path = Some t ->
  exists folio refs,
    find_folio (Some t) invoice_type (Some (basename pdf_path)) = Ret folio
    /\ references_for (Some t) invoice_type = Ret refs
    /\ process_single_pdf basename extract_text_from_pdf pdf_path invoice_type
       = Ret (reference_rows pdf_path (basename pdf_path) folio refs).
Proof.
  intros Et. unfold process_single_pdf. rewrite Et.
  change (is_none (Some t)) with false. cbn [andb].
  destruct (find_folio_returns (Some t) invoice_type (Some (basename pdf_path)))
    as (folio & Ef).
  destruct (references_for_returns (Some t) invoice_type) as (refs & Er).
  exists folio, refs. rewrite Ef, Er. unfold bind. rewrite assemble_with_text. auto.
Qed.

Lemma find_folio_unreadable_dba fn :
  find_folio None "DBA" (Some fn)
  = Ret (match file_name_folio fn with Some folio => folio | None => NOT_FOUND end).
Proof.
  rewrite find_folio_checks. unfold folio_before_checks.
  change (String.eqb "DBA" "DBA") with true. cbn iota.
  rewrite folio_from_filename_spec. unfold bind.
  change (truthy_opt None) with false. rewrite andb_false_r.
  destruct (file_name_folio fn) as [g|] eqn:E; [|reflexivity].
  destruct (file_name_folio_shape fn g E) as [Hd Hl].
  destruct (short_decimal_passes g Hd Hl) as (_ & -> & _). reflexivity.
Qed.

(** What [process_single_pdf] does when the text could not be read. *)
Lemma process_unreadable pdf_path invoice_type :
  extract_text_from_pdf pdf_path = None ->
  process_single_pdf basename extract_text_from_pdf pdf_path invoice_type
  = Ret [unreadable_row pdf_path (basename pdf_path) invoice_type].
Proof.
  intros Et. unfold process_single_pdf, unreadable_row. rewrite Et.
  change (is_none (@None string)) with true. cbn [andb].
  destruct (String.eqb invoice_type "DBA") eqn:Ed; [|reflexivity].
  apply String.eqb_eq in Ed as ->. cbn [negb].
  rewrite find_folio_unreadable_dba. unfold bind, references_for.
  destruct (file_name_folio (basename pdf_path)) as [g|] eqn:E.
  - destruct (file_name_folio_shape _ g E) as [Hd Hl].
    destruct (short_decimal_passes g Hd Hl) as (_ & _ & Hmem).
    unfold assemble. change (is_none (@None string)) with true.
    change (String.eqb "DBA" "DBA") with true. rewrite Hmem. reflexivity.
  - reflexivity.
Qed.

Lemma reference_rows_no_error pdf_path filename folio refs :
  (forall r, In r refs -> exists c, Type_ r = type_name c) ->
  Batch.had_error_in (reference_rows pdf_path filename folio refs) = false.
Proof.
  intros Hty. unfold reference_rows. destruct (is_nil refs); [reflexivity|].
  unfold Batch.had_error_in. apply not_true_is_false. intros H.
  apply existsb_exists in H as (row & Hrow & Herr).
  apply in_map_iff in Hrow as (r & <- & Hr).
  destruct (Hty r Hr) as (c & Hc). simpl in Herr. rewrite Hc, type_name_not_error in Herr.
  discriminate.
Qed.

Lemma reference_rows_nonempty pdf_path filename folio refs :
  1 <= length (reference_rows pdf_path filename folio refs).
Proof.
  unfold reference_rows. destruct refs; simpl; lia.
Qed.

End RowFacts.

(** X5. Once the text of a document is read, [process_single_pdf] returns
    the sentinel row when the finder of the invoice type reports nothing,
    and otherwise one row per reference, in the order of the finder, each
    with the Folio that [find_folio] resolved; no two rows share their
    document type and reference number, and no row has the type "ERROR". *)
Theorem rows_follow_references (basename : string -> string)
    (extract_text_from_pdf : string -> option string)
    (pdf_path invoice_type t : string) :
  extract_text_from_pdf pdf_path = Some t ->
  exists folio refs rows,
    find_folio (Some t) invoice_type (Some (basename pdf_path)) = Ret folio
    /\ references_for (Some t) invoice_type = Ret refs
    /\ process_single_pdf basename extract_text_from_pdf pdf_path invoice_type = Ret rows
    /\ rows = reference_rows pdf_path (basename pdf_path) folio refs
    /\ NoDup (map pair_of_row rows)
    /\ Batch.had_error_in rows = false.
Proof.
  intros Et.
  destruct (process_with_text basename extract_text_from_pdf pdf_path invoice_type t Et)
    as (folio & refs & Ef & Er & Ep).
  exists folio, refs, (reference_rows pdf_path (basename pdf_path) folio refs).
  repeat split; try assumption.
  - unfold reference_rows. destruct (is_nil refs).
    + repeat constructor. intros [].
    + rewrite map_map.
      change (fun x => pair_of_row (row_of pdf_path (basename pdf_path) folio x))
        with pair_of_ref.
      eapply references_for_unique, Er.
  - apply reference_rows_no_error. eapply references_for_types, Er.
Qed.

Lemma rows_follow_references_witness :
  process_single_pdf (fun path => path)
    (fun _ => Some "FOLIO: A77 Escritura Numeros 12 Y 15 Escritura 12")
    "a.pdf" "CONTPAQ"
  = Ret [ row_of "a.pdf" "a.pdf" "A77" {| Type_ := "Escritura"; Number := "12" |};
          row_of "a.pdf" "a.pdf" "A77" {| Type_ := "Escritura"; Number := "15" |} ].
Proof.
  destruct (rows_follow_references (fun path => path)
              (fun _ => Some "FOLIO: A77 Escritura Numeros 12 Y 15 Escritura 12")
              "a.pdf" "CONTPAQ" "FOLIO: A77 Escritura Numeros 12 Y 15 Escritura 12"
              eq_refl)
    as (folio & refs & rows & Ef & Er & Ep & -> & _).
  vm_compute in Ef. injection Ef as <-.
  vm_compute in Er. injection Er as <-.
  exact Ep.
Defined.

(** X6. When the text of a document cannot be read, [process_single_pdf]
    returns exactly one row: for a DBA document whose file name holds a
    Folio, the row "N/A" / "TEXT_EXTRACTION_FAILED" with that Folio; for
    another DBA document, the "ERROR" row with the Folio "NOT_FOUND"; for
    every other invoice type, the "ERROR" row with the Folio "ERROR". *)
Theorem unreadable_file_gives_one_row (basename : string -> string)
    (extract_text_from_pdf : string -> option string) (pdf_path invoice_type : string) :
  extract_text_from_pdf pdf_path = None ->
  process_single_pdf basename extract_text_from_pdf pdf_path invoice_type
  = Ret [unreadable_row pdf_path (basename pdf_path) invoice_type].
Proof. apply process_unreadable. Qed.

Lemma unreadable_file_gives_one_row_witness :
  process_single_pdf (fun path => path) (fun _ => None) "FAC_00123_x.pdf" "DBA"
  = Ret [ {| Document_Type := "N/A"; Reference_Number := "TEXT_EXTRACTION_FAILED";
             Invoice_Folio := "00123"; Source_PDF := "FAC_00123_x.pdf";
             Full_PDF_Path := "FAC_00123_x.pdf" |} ]
  /\ process_single_pdf (fun path => path) (fun _ => None) "factura.pdf" "DBA"
     = Ret [ {| Document_Type := "ERROR"; Reference_Number := "Text Extraction Failed";
                Invoice_Folio := "NOT_FOUND"; Source_PDF := "factura.pdf";
                Full_PDF_Path := "factura.pdf" |} ].
Proof.
  split.
  - exact (unreadable_file_gives_one_row (fun path => path) (fun _ => None)
             "FAC_00123_x.pdf" "DBA" eq_refl).
  - exact (unreadable_file_gives_one_row (fun path => path) (fun _ => None)
             "factura.pdf" "DBA" eq_refl).
Defined.

(** X7. An invoice type other than "DBA", "TOTALNOT" and "CONTPAQ" makes
    [process_single_pdf] extract nothing: a readable document gives the
    sentinel row with the Folio "NOT_FOUND", an unreadable one the "ERROR"
    row. *)
Theorem unknown_type_extracts_nothing (basename : string -> string)
    (extract_text_from_pdf : string -> option string) (pdf_path invoice_type : string) :
  known_type invoice_type = false ->
  process_single_pdf basename extract_text_from_pdf pdf_path invoice_type
  = Ret [ match extract_text_from_pdf pdf_path with
          | Some _ => sentinel_row pdf_path (basename pdf_path) NOT_FOUND
          | None => Batch.error_row "Text Extraction Failed" (basename pdf_path) pdf_path
          end ].
Proof.
  unfold known_type, mem_str, existsb. intros H.
  apply orb_false_iff in H as [Hd H]. apply orb_false_iff in H as [Ht H].
  apply orb_false_iff in H as [Hc _].
  unfold process_single_pdf. rewrite Hd. cbn [negb]. rewrite andb_true_r.
  destruct (extract_text_from_pdf pdf_path) as [t|]; [|reflexivity].
  change (is_none (Some t)) with false. cbv iota.
  rewrite find_folio_checks. unfold folio_before_checks, references_for.
  rewrite Hd, Ht, Hc. unfold bind.
  destruct (Py.truthy t); reflexivity.
Qed.

Lemma unknown_type_extracts_nothing_witness :
  process_single_pdf (fun path => path) (fun _ => Some "Folio: 12 Escritura 5")
    "a.pdf" "OTRO"
  = Ret [sentinel_row "a.pdf" "a.pdf" NOT_FOUND].
Proof.
  exact (unknown_type_extracts_nothing (fun path => path)
           (fun _ => Some "Folio: 12 Escritura 5") "a.pdf" "OTRO" eq_refl).
Defined.

Section LoopFacts.

Variable basename : string -> string.
Variable str_of_exn : exn -> string.
Variable process : string -> string -> raising (list Row).
Variable invoice_type : string.

Local Abbreviation step_with := (Batch.step_with basename str_of_exn process invoice_type).

Lemma step_with_counted n b pdf_path :
  counted n b -> counted (S n) (step_with b pdf_path).
Proof.
  intros (Hf & Hr & Hn). unfold Batch.step_with, counted.
  destruct (process _ _) as [results|e]; simpl.
  - destruct results as [|row results]; simpl.
    + rewrite length_app. simpl. lia.
    + rewrite length_app. simpl length.
      destruct (_ || _); lia.
  - rewrite length_app. simpl. lia.
Qed.

Lemma fold_with_counted pdf_files : forall n b,
  counted n b -> counted (n + length pdf_files) (fold_left step_with pdf_files b).
Proof.
  induction pdf_files as [|p l IH]; intros n b H; simpl.
  - rewrite Nat.add_0_r. exact H.
  - replace (n + S (length l)) with (S n + length l) by lia.
    apply IH, step_with_counted, H.
Qed.

Lemma step_with_rows b pdf_path :
  Batch.all_data (step_with b pdf_path)
  = (Batch.all_data b ++ collected_rows basename str_of_exn process invoice_type pdf_path)%list
  /\ Batch.files_with_errors (step_with b pdf_path)
     = Batch.files_with_errors b
       + (if file_failed process invoice_type pdf_path then 1 else 0).
Proof.
  unfold Batch.step_with, collected_rows, file_failed.
  destruct (process _ _) as [results|e]; simpl.
  - destruct results as [|row results]; simpl; [split; reflexivity|].
    split; [reflexivity|]. destruct (_ || _); lia.
  - split; reflexivity.
Qed.

Lemma fold_with_rows pdf_files : forall b,
  Batch.all_data (fold_left step_with pdf_files b)
  = (Batch.all_data b
     ++ concat (map (collected_rows basename str_of_exn process invoice_type)
                    pdf_files))%list
  /\ Batch.files_with_errors (fold_left step_with pdf_files b)
     = Batch.files_with_errors b
       + length (filter (file_failed process invoice_type) pdf_files).
Proof.
  induction pdf_files as [|p l IH]; intros b; simpl.
  - rewrite app_nil_r. split; [reflexivity|lia].
  - destruct (step_with_rows b p) as (Ed & Ee).
    destruct (IH (step_with b p)) as (Hd & He).
    rewrite Hd, He, Ed, Ee. rewrite <- app_assoc. split; [reflexivity|].
    destruct (file_failed _ _ p); simpl; lia.
Qed.

End LoopFacts.

Section BatchFacts.

Variable basename : string -> string.
Variable extract_text_from_pdf : string -> option string.
Variable str_of_exn : exn -> string.
Variable invoice_type : string.

Local Abbreviation step := (Batch.step basename extract_text_from_pdf str_of_exn invoice_type).

(** The body of the loop never takes its two fallback branches. *)
Lemma step_rows b pdf_path :
  exists rows,
    process_single_pdf basename extract_text_from_pdf pdf_path invoice_type = Ret rows
    /\ Batch.all_data (step b pdf_path) = (Batch.all_data b ++ rows)%list
    /\ Batch.files_with_errors (step b pdf_path)
       = Batch.files_with_errors b
         + (if counts_as_error basename extract_text_from_pdf invoice_type pdf_path
            then 1 else 0).
Proof.
  unfold Batch.step, Batch.step_with, counts_as_error.
  destruct (extract_text_from_pdf pdf_path) as [t|] eqn:Et.
  - destruct (process_with_text basename extract_text_from_pdf pdf_path invoice_type t Et)
      as (folio & refs & Ef & Er & ->).
    eexists. split; [reflexivity|].
    pose proof (reference_rows_nonempty pdf_path (basename pdf_path) folio refs) as Hne.
    rewrite (reference_rows_no_error pdf_path (basename pdf_path) folio refs
               (references_for_types _ _ _ Er)).
    destruct (reference_rows pdf_path (basename pdf_path) folio refs);
      [simpl in Hne; lia|].
    simpl. split; [reflexivity|lia].
  - rewrite (process_unreadable basename extract_text_from_pdf pdf_path invoice_type Et).
    eexists. split; [reflexivity|]. cbn [is_nil negb]. unfold unreadable_row.
    destruct (String.eqb invoice_type "DBA"); simpl.
    + destruct (file_name_folio (basename pdf_path)); simpl; split; try reflexivity; lia.
    + split; [reflexivity|lia].
Qed.

Lemma fold_rows pdf_files : forall b,
  exists results,
    Forall2 (fun pdf_path rows =>
               process_single_pdf basename extract_text_from_pdf pdf_path invoice_type
               = Ret rows) pdf_files results
    /\ Batch.all_data (fold_left step pdf_files b) = (Batch.all_data b ++ concat results)%list
    /\ Batch.files_with_errors (fold_left step pdf_files b)
       = Batch.files_with_errors b
         + length (filter (counts_as_error basename extract_text_from_pdf invoice_type)
                          pdf_files).
Proof.
  induction pdf_files as [|p l IH]; intros b; simpl.
  - exists []. split; [constructor|]. simpl. rewrite app_nil_r. split; [reflexivity|lia].
  - destruct (step_rows b p) as (rows & Ep & Ed & Ee).
    destruct (IH (step b p)) as (results & Hall & Hd & He).
    exists (rows :: results). split; [constructor; assumption|].
    rewrite Hd, He, Ed, Ee. simpl. rewrite <- app_assoc. split; [reflexivity|].
    destruct (counts_as_error _ _ _ p); simpl; lia.
Qed.

End BatchFacts.

(** X8. Whatever the call to [process_single_pdf] returns or raises for
    each file, after the batch loop of [run_processing] every file is
    counted exactly once, as processed or as a file with errors; the row
    counter equals the number of collected rows; there are at least as many
    rows as files; the files with errors are those for which the call
    raised, returned nothing, or returned a row of type "ERROR"; and the
    rows collected are, file after file, the rows returned, or one "ERROR"
    row when the call raised or returned nothing. [Batch.process_files] is
    this loop with the [process_single_pdf] of the program as the call. *)
Theorem batch_counters_add_up (basename : string -> string)
    (str_of_exn : exn -> string)
    (process : string -> string -> raising (list Row))
    (invoice_type : string) (pdf_files : list string) :
  let b := Batch.process_files_with basename str_of_exn process invoice_type pdf_files in
  Batch.files_processed_count b + Batch.files_with_errors b = length pdf_files
  /\ Batch.rows_added_count b = length (Batch.all_data b)
  /\ length pdf_files <= length (Batch.all_data b)
  /\ Batch.files_with_errors b
     = length (filter (file_failed process invoice_type) pdf_files)
  /\ Batch.all_data b
     = concat (map (collected_rows basename str_of_exn process invoice_type) pdf_files)
  /\ (forall extract_text_from_pdf,
        Batch.process_files basename extract_text_from_pdf str_of_exn invoice_type
          pdf_files
        = Batch.process_files_with basename str_of_exn
            (process_single_pdf basename extract_text_from_pdf) invoice_type pdf_files).
Proof.
  intros b.
  destruct (fold_with_counted basename str_of_exn process invoice_type pdf_files 0
              Batch.start) as (H1 & H2 & H3); [unfold counted; simpl; lia|].
  destruct (fold_with_rows basename str_of_exn process invoice_type pdf_files
              Batch.start) as (H4 & H5).
  repeat split; try assumption.
Qed.

(** Three files: the call returns a row for the first, raises for the
    second and returns nothing for the third. *)
Lemma batch_counters_add_up_witness :
  let row := {| Document_Type := "Escritura"; Reference_Number := "5";
                Invoice_Folio := "12"; Source_PDF := "a.pdf";
                Full_PDF_Path := "a.pdf" |} in
  let process := fun pdf_path (_ : string) =>
    if String.eqb pdf_path "b.pdf" then Raise Timeout
    else if String.eqb pdf_path "c.pdf" then Ret []
    else Ret [row] in
  let b := Batch.process_files_with (fun p => p) (fun _ => "timed out") process "DBA"
             ["a.pdf"; "b.pdf"; "c.pdf"] in
  Batch.files_with_errors b = 2
  /\ Batch.all_data b
     = [row;
        Batch.error_row "Runtime Error: timed out" "b.pdf" "b.pdf";
        Batch.error_row "Processing Function Returned Nothing" "c.pdf" "c.pdf"].
Proof.
  intros row process b.
  destruct (batch_counters_add_up (fun p => p) (fun _ => "timed out") process "DBA"
              ["a.pdf"; "b.pdf"; "c.pdf"]) as (_ & _ & _ & He & Hd & _).
  fold b in He, Hd. rewrite He, Hd. split; vm_compute; reflexivity.
Defined.

(** X9. The rows collected by the batch loop are the rows that
    [process_single_pdf] returns for each file, in the order of the files:
    the loop never adds its "Processing Function Returned Nothing" or
    "Runtime Error" rows. The files counted as having errors are those whose
    text could not be read and whose name gave no DBA Folio. *)
Theorem batch_collects_rows_in_order (basename : string -> string)
    (extract_text_from_pdf : string -> option string) (str_of_exn : exn -> string)
    (invoice_type : string) (pdf_files : list string) :
  let b := Batch.process_files basename extract_text_from_pdf str_of_exn invoice_type
             pdf_files in
  exists results,
    Forall2 (fun pdf_path rows =>
               process_single_pdf basename extract_text_from_pdf pdf_path invoice_type
               = Ret rows) pdf_files results
    /\ Batch.all_data b = concat results
    /\ Batch.files_with_errors b
       = length (filter (counts_as_error basename extract_text_from_pdf invoice_type)
                        pdf_files).
Proof.
  exact (fold_rows basename extract_text_from_pdf str_of_exn invoice_type
           pdf_files Batch.start).
Qed.

(** ** Properties of [find_unique_output_filename] *)

Lemma str_of_int_inj z1 z2 : Py.str_of_int z1 = Py.str_of_int z2 -> z1 = z2.
Proof.
  unfold Py.str_of_int. intros H. apply DecimalZ.to_int_inj.
  assert (Hok : forall z, NilZero.int_of_string (NilZero.string_of_int (Z.to_int z))
                          = Some (Z.to_int z)).
  { intros z. apply NilZero.isi; destruct z as [|p|p]; simpl; try discriminate;
      intros E; injection E as E; exact (Unsigned.to_uint_nonnil p E). }
  pose proof (Hok z1) as H1. rewrite H, Hok in H1. congruence.
Qed.

Lemma append_inv_tail (c : string) : forall a b : string, (a ++ c = b ++ c)%string -> a = b.
Proof.
  assert (Hlen : forall a b : string, String.length (a ++ b) = String.length a + String.length b).
  { induction a; intros b; simpl; [reflexivity|]. rewrite IHa. reflexivity. }
  induction a as [|x a IH]; intros [|y b] H; simpl in H.
  - reflexivity.
  - apply (f_equal String.length) in H. rewrite !Hlen in H. simpl in H. lia.
  - apply (f_equal String.length) in H. rewrite !Hlen in H. simpl in H. lia.
  - change (String x (a ++ c) = String y (b ++ c)) in H.
    injection H as -> H. f_equal. apply IH, H.
Qed.

Section OutputNameFacts.

Variable directory : string.
Variable join : string -> string -> string.
Variable splitext : string -> string * string.
Variable path_exists : string -> bool.

Local Abbreviation numbered := (numbered_path directory join).
Local Abbreviation loop := (probe directory join path_exists).

(** What the loop returns does not exist, and is the first free path. *)
Lemma probe_first_free name ext fuel : forall counter output_path p,
  loop fuel name ext counter output_path = Some p ->
  path_exists p = false
  /\ (p = output_path
      \/ exists k, (counter <= k)%Z /\ p = numbered name ext k
           /\ path_exists output_path = true
           /\ forall j, (counter <= j < k)%Z -> path_exists (numbered name ext j) = true).
Proof.
  induction fuel as [|fuel IH]; intros counter output_path p H; [discriminate|].
  cbn [probe] in H.
  destruct (path_exists output_path) eqn:E.
  - apply IH in H as (Hp & [->|(k & Hk & -> & Hpath & Hbelow)]).
    + split; [exact Hp|]. right. exists counter.
      split; [lia|]. split; [reflexivity|]. split; [reflexivity|].
      intros j Hj. lia.
    + split; [exact Hp|]. right. exists k.
      split; [lia|]. split; [reflexivity|]. split; [reflexivity|].
      intros j Hj. destruct (Z.eq_dec j counter) as [->|Hne]; [exact Hpath|].
      apply Hbelow. lia.
  - injection H as <-. auto.
Qed.

(** The loop ends once a free numbered path is within the fuel. *)
Lemma probe_returns name ext fuel : forall counter output_path k,
  (counter <= k)%Z -> Z.to_nat (k - counter) + 2 <= fuel ->
  path_exists (numbered name ext k) = false ->
  exists p, loop fuel name ext counter output_path = Some p.
Proof.
  induction fuel as [|fuel IH]; intros counter output_path k Hk Hf Hfree; [lia|].
  cbn [probe].
  destruct (path_exists output_path); [|eauto].
  destruct (Z.eq_dec k counter) as [->|Hne].
  - destruct fuel as [|fuel]; [lia|]. cbn [probe].
    rewrite Hfree. eauto.
  - apply (IH _ _ k); [lia|lia|exact Hfree].
Qed.

Variables name ext : string.
Hypothesis numbered_inj : forall j k, numbered name ext j = numbered name ext k -> j = k.

(** Among [n + 1] numbered paths, at most [n] are among [n] existing paths. *)
Lemma some_numbered_is_free (existing : list string) :
  (forall p, path_exists p = true -> In p existing) ->
  exists k, (1 <= k <= Z.of_nat (length existing) + 1)%Z
            /\ path_exists (numbered name ext k) = false.
Proof.
  intros Hfin. set (n := length existing).
  set (ks := map (fun i => Z.of_nat i) (seq 1 (S n))).
  destruct (forallb (fun k => path_exists (numbered name ext k)) ks) eqn:E.
  - exfalso. rewrite forallb_forall in E.
    assert (Hnd : NoDup (map (numbered name ext) ks)).
    { apply Finite.Injective_map_NoDup; [intros j k; apply numbered_inj|].
      apply Finite.Injective_map_NoDup; [intros i j; apply Nat2Z.inj|apply seq_NoDup]. }
    assert (Hincl : incl (map (numbered name ext) ks) existing).
    { intros p Hp. apply in_map_iff in Hp as (k & <- & Hk). apply Hfin, E, Hk. }
    pose proof (NoDup_incl_length Hnd Hincl) as Hlen.
    unfold ks in Hlen. rewrite !length_map, length_seq in Hlen. fold n in Hlen. lia.
  - apply not_true_iff_false in E. rewrite forallb_forall in E.
    destruct (existsb (fun k => negb (path_exists (numbered name ext k))) ks) eqn:E2.
    + apply existsb_exists in E2 as (k & Hk & Hfree).
      exists k. split.
      * unfold ks in Hk. apply in_map_iff in Hk as (i & <- & Hi). apply in_seq in Hi.
        fold n. lia.
      * destruct (path_exists (numbered name ext k)); [discriminate|reflexivity].
    + exfalso. apply E. intros k Hk.
      destruct (path_exists (numbered name ext k)) eqn:Ek; [reflexivity|].
      assert (Hex : existsb (fun k => negb (path_exists (numbered name ext k))) ks = true).
      { apply existsb_exists. exists k. rewrite Ek. auto. }
      congruence.
Qed.

End OutputNameFacts.

(** The numbered paths built with [posix_join] differ when their counters
    differ, whatever the directory and the base name. *)
Lemma posix_numbered_inj directory name ext j k :
  numbered_path directory posix_join name ext j
  = numbered_path directory posix_join name ext k -> j = k.
Proof.
  unfold numbered_path, posix_join.
  assert (Hs : forall z,
             startswith_char "/" (name ++ "_" ++ Py.str_of_int z ++ ext)
             = startswith_char "/" (name ++ "_")).
  { intros z. destruct name; reflexivity. }
  rewrite (Hs j), (Hs k). intros H.
  assert (Hb : (name ++ "_" ++ Py.str_of_int j ++ ext
                = name ++ "_" ++ Py.str_of_int k ++ ext)%string).
  { destruct (startswith_char "/" (name ++ "_")); [exact H|].
    destruct (negb (Py.truthy directory) || endswith_char "/" directory).
    - apply String.app_inj in H. exact H.
    - apply String.app_inj in H. apply String.app_inj in H. exact H. }
  apply String.app_inj in Hb. apply String.app_inj in Hb.
  apply append_inv_tail in Hb. apply str_of_int_inj, Hb.
Qed.

(** X10. In a directory where finitely many paths exist, and with an
    [os.path.join] that gives distinct paths to the numbered names of
    distinct counters (as [posix_join] does: [posix_numbered_inj]),
    [find_unique_output_filename] returns once it may test two paths more
    than exist; its result does not exist; it is the path of the base name
    if that is free, and otherwise the numbered path with the least counter,
    from 1 on, that is free. *)
Theorem output_filename_is_first_free (directory : string)
    (join : string -> string -> string) (splitext : string -> string * string)
    (path_exists : string -> bool) (existing : list string)
    (base_name : string) (fuel : nat) :
  (forall j k,
     numbered_path directory join (fst (splitext base_name))
       (snd (splitext base_name)) j
     = numbered_path directory join (fst (splitext base_name))
         (snd (splitext base_name)) k -> j = k) ->
  (forall p, path_exists p = true -> In p existing) ->
  length existing + 2 <= fuel ->
  exists output_path,
    find_unique_output_filename directory join splitext path_exists fuel base_name
    = Some output_path
    /\ path_exists output_path = false
    /\ (output_path = join directory base_name
        \/ exists counter,
             (1 <= counter)%Z
             /\ output_path
                = numbered_path directory join (fst (splitext base_name))
                    (snd (splitext base_name)) counter
             /\ path_exists (join directory base_name) = true
             /\ forall j, (1 <= j < counter)%Z ->
                  path_exists (numbered_path directory join (fst (splitext base_name))
                                 (snd (splitext base_name)) j) = true).
Proof.
  intros Hinj Hfin Hfuel. unfold find_unique_output_filename.
  destruct (splitext base_name) as [name ext]. cbn [fst snd] in *.
  destruct (some_numbered_is_free directory join path_exists name ext Hinj existing Hfin)
    as (k & Hk & Hfree).
  destruct (probe_returns directory join path_exists name ext fuel 1
              (join directory base_name) k) as (p & Hp); [lia|lia|exact Hfree|].
  exists p. split; [exact Hp|].
  apply (probe_first_free directory join path_exists name ext fuel 1
           (join directory base_name) p Hp).
Qed.

(** On a POSIX system, in "/home/ana/out", where the two first names are
    taken: the result carries the counter 2. *)
Lemma output_filename_is_first_free_witness :
  find_unique_output_filename "/home/ana/out" posix_join posix_splitext
    (fun p => existsb (String.eqb p)
                ["/home/ana/out/Extracted_Invoices.xlsx";
                 "/home/ana/out/Extracted_Invoices_1.xlsx"])
    4 "Extracted_Invoices.xlsx"
  = Some "/home/ana/out/Extracted_Invoices_2.xlsx".
Proof.
  destruct (output_filename_is_first_free "/home/ana/out" posix_join posix_splitext
              (fun p => existsb (String.eqb p)
                          ["/home/ana/out/Extracted_Invoices.xlsx";
                           "/home/ana/out/Extracted_Invoices_1.xlsx"])
              ["/home/ana/out/Extracted_Invoices.xlsx";
               "/home/ana/out/Extracted_Invoices_1.xlsx"]
              "Extracted_Invoices.xlsx" 4)
    as (p & Hp & _).
  - intros j k. apply posix_numbered_inj.
  - intros p H. apply existsb_exists in H as (x & Hx & E).
    apply String.eqb_eq in E. subst. exact Hx.
  - simpl. lia.
  - vm_compute in Hp. injection Hp as <-. vm_compute. reflexivity.
Defined.

(** ** Further properties of the oracle client and of its use *)

Section OracleAnswerFacts.

Variable json_loads : string -> option json.
Variable str_of_container : json -> string.

Lemma required_truthy members req_key :
  Py.truthy (required str_of_container members req_key) = true.
Proof.
  unfold required.
  destruct (keys_lower_get (map fst members) req_key) as [k|]; [|reflexivity].
  destruct (Py.truthy k); [|reflexivity].
  destruct (dict_get members k) as [v|]; [|reflexivity].
  destruct v; try reflexivity;
    match goal with
    | |- Py.truthy (if Py.truthy ?x then _ else _) = true =>
        destruct (Py.truthy x) eqn:E; [exact E|reflexivity]
    end.
Qed.

Lemma validate_truthy members :
  let v := validate str_of_container members in
  Py.truthy (folio_number v) = true
  /\ Py.truthy (document_type v) = true
  /\ Py.truthy (document_id v) = true.
Proof.
  unfold validate, check_id, check_type, required_fields. cbn [document_type document_id].
  pose proof (required_truthy members "folio_number") as Hf.
  pose proof (required_truthy members "document_type") as Ht.
  pose proof (required_truthy members "document_id") as Hi.
  destruct (mem_str _ allowed_types); cbn [document_type document_id folio_number];
    repeat (match goal with |- context [if ?c then _ else _] => destruct c end);
    cbn [document_type document_id folio_number]; auto.
Qed.

Lemma take_take n : forall x, Py.take n (Py.take n x) = Py.take n x.
Proof. induction n as [|n IH]; intros [|a t]; simpl; try reflexivity. rewrite IH. reflexivity. Qed.

End OracleAnswerFacts.

(** X11. No field of an answer of the oracle client is empty: a missing,
    null or blank value has become "N/A". *)
Theorem oracle_answer_fields_not_empty (json_loads : string -> option json)
    (str_of_container : json -> string) (send : request -> raising json)
    (pdf_text filename_hint : string) (answer : validated) :
  query_llm_for_details json_loads str_of_container send pdf_text filename_hint
    = Ret (Some answer) ->
  folio_number answer <> "" /\ document_type answer <> "" /\ document_id answer <> "".
Proof.
  intros H. apply query_validated in H as (members & ->).
  destruct (validate_truthy str_of_container members) as (Hf & Ht & Hi).
  repeat split; intros E; rewrite E in *; discriminate.
Qed.

Lemma oracle_answer_fields_not_empty_witness :
  let answer := {| folio_number := "N/A"; document_type := "Escritura";
                   document_id := "N/A" |} in
  folio_number answer <> "" /\ document_type answer <> "" /\ document_id answer <> "".
Proof.
  apply (oracle_answer_fields_not_empty Json.loads no_containers
    (fun _ => Ret (response_with
                     (Json.dq "{'folio_number': '  ', 'document_type': 'Escritura', 'document_id': null}")))
    "text" "a.pdf").
  vm_compute. reflexivity.
Defined.

(** X12. The oracle client sends at most the first [max_chars] = 15000
    characters of the text: its answer is the answer for the text cut there,
    and two exchanges that agree on every request with the given hint and a
    text of at most that length give the same answer. *)
Theorem oracle_reads_a_bounded_prefix (json_loads : string -> option json)
    (str_of_container : json -> string) (send send' : request -> raising json)
    (pdf_text hint : string) :
  (forall req, Py.len (truncated_text req) <= max_chars ->
               filename_hint req = hint -> send req = send' req) ->
  query_llm_for_details json_loads str_of_container send pdf_text hint
  = query_llm_for_details json_loads str_of_container send' pdf_text hint
  /\ query_llm_for_details json_loads str_of_container send pdf_text hint
     = query_llm_for_details json_loads str_of_container send
         (Py.take max_chars pdf_text) hint.
Proof.
  intros H. unfold query_llm_for_details. split.
  - rewrite H; [reflexivity| |reflexivity].
    cbn [truncated_text]. rewrite len_take. lia.
  - rewrite take_take. reflexivity.
Qed.

Lemma oracle_reads_a_bounded_prefix_witness :
  query_llm_for_details Json.loads no_containers
    (fun req => if (Py.len (truncated_text req) <=? max_chars)%nat
                then Ret (response_with (Json.dq "{'document_type': 'Both'}"))
                else Raise Timeout) "text" "a.pdf"
  = query_llm_for_details Json.loads no_containers
      (fun _ => Ret (response_with (Json.dq "{'document_type': 'Both'}"))) "text" "a.pdf".
Proof.
  apply (oracle_reads_a_bounded_prefix Json.loads no_containers
           (fun req => if (Py.len (truncated_text req) <=? max_chars)%nat
                       then Ret (response_with (Json.dq "{'document_type': 'Both'}"))
                       else Raise Timeout)
           (fun _ => Ret (response_with (Json.dq "{'document_type': 'Both'}")))
           "text" "a.pdf").
  intros req Hlen _. apply Nat.leb_le in Hlen. rewrite Hlen. reflexivity.
Defined.

Section FileRowsFacts.

Lemma has_ids_truthy ids : Processor.has_ids ids = true -> ids <> "".
Proof. intros H E. subst. discriminate. Qed.

(** The rows made from an answer of the oracle. *)
Lemma llm_rows_shape filename regex_folio_number (llm_result : validated) :
  document_id llm_result <> "" ->
  let final_folio :=
    if String.eqb (folio_number llm_result) "N/A" then regex_folio_number
    else folio_number llm_result in
  let rows := Processor.llm_rows filename regex_folio_number llm_result in
  1 <= length rows <= 2
  /\ Forall (fun row =>
               Processor.Filename row = filename
               /\ Processor.Folio_Number row = final_folio
               /\ In (Processor.Type_ row) allowed_types
               /\ Processor.ID_Number row <> "") rows.
Proof.
  intros Hid. cbv zeta. unfold Processor.llm_rows.
  set (final := if negb (String.eqb (folio_number llm_result) "N/A") then _ else _).
  assert (Ef : (if String.eqb (folio_number llm_result) "N/A" then regex_folio_number
                else folio_number llm_result) = final).
  { unfold final. destruct (String.eqb _ "N/A"); reflexivity. }
  rewrite Ef. clearbody final. clear Ef.
  set (row := fun ty id => {| Processor.Filename := filename;
                              Processor.Folio_Number := final;
                              Processor.Type_ := ty; Processor.ID_Number := id |}).
  assert (Hrow : forall ty id, In ty allowed_types -> id <> "" ->
            Processor.Filename (row ty id) = filename
            /\ Processor.Folio_Number (row ty id) = final
            /\ In (Processor.Type_ (row ty id)) allowed_types
            /\ Processor.ID_Number (row ty id) <> "").
  { intros ty id Hty Hne. simpl. auto. }
  assert (Hother : In (if String.eqb (document_type llm_result) "Both" then "Both" else "N/A")
                      allowed_types).
  { destruct (String.eqb _ "Both"); simpl; tauto. }
  assert (Hna : "N/A" <> "") by discriminate.
  destruct (String.eqb (document_type llm_result) "Both"
            && negb (String.eqb (document_id llm_result) "N/A")).
  - destruct (Processor.split_semicolon (document_id llm_result)) as [[before after]|].
    + destruct (Processor.has_ids (Py.strip before)) eqn:H1;
        destruct (Processor.has_ids (Py.strip after)) eqn:H2; cbn [app negb andb length];
        (split; [lia|]); repeat (apply Forall_cons; [apply Hrow|]); try apply Forall_nil;
        try (apply has_ids_truthy; assumption); try exact Hna; simpl; tauto.
    + cbn [length]. split; [lia|]. apply Forall_cons; [apply Hrow; assumption|constructor].
  - destruct (mem_str (document_type llm_result) ["Escritura"; "Acta Fuera de Protocolo"])
      eqn:Em.
    + cbn [length]. split; [lia|]. apply Forall_cons; [apply Hrow; [|exact Hid]|constructor].
      apply mem_str_In in Em. simpl in Em |- *. tauto.
    + cbn [length]. split; [lia|]. apply Forall_cons; [apply Hrow; assumption|constructor].
Qed.

End FileRowsFacts.

(** X13. When the patterns left the Folio or the references open and the
    oracle gave an answer, the rows of the file are made from the answer
    alone, and the findings of the patterns are dropped: one or two rows,
    each with the file name, with the Folio of the answer (or that of the
    patterns if the answer has "N/A"), with one of the four allowed types
    and with an ID that is not empty. *)
Theorem oracle_answer_replaces_findings (json_loads : string -> option json)
    (str_of_container : json -> string) (send : request -> raising json)
    (filename clean_text regex_folio_number : string) (findings : list (string * string))
    (answer : validated) :
  Py.truthy clean_text = true ->
  regex_folio_number = "Not Found" \/ findings = [] ->
  query_llm_for_details json_loads str_of_container send clean_text filename
    = Ret (Some answer) ->
  let final_folio :=
    if String.eqb (folio_number answer) "N/A" then regex_folio_number
    else folio_number answer in
  exists rows,
    Processor.file_rows json_loads str_of_container send filename clean_text
      regex_folio_number findings = Ret rows
    /\ rows = Processor.llm_rows filename regex_folio_number answer
    /\ 1 <= length rows <= 2
    /\ Forall (fun row =>
                 Processor.Filename row = filename
                 /\ Processor.Folio_Number row = final_folio
                 /\ In (Processor.Type_ row) allowed_types
                 /\ Processor.ID_Number row <> "") rows.
Proof.
  intros Ht Hinc Hq. cbv zeta.
  exists (Processor.llm_rows filename regex_folio_number answer).
  split; [|split; [reflexivity|]].
  - unfold Processor.file_rows. rewrite Ht, andb_true_r.
    replace (String.eqb regex_folio_number "Not Found" || is_nil findings) with true.
    + rewrite Hq. reflexivity.
    + destruct Hinc as [->| ->]; [reflexivity|]. simpl. rewrite orb_true_r. reflexivity.
  - apply llm_rows_shape. apply query_validated in Hq as (members & ->).
    destruct (validate_truthy str_of_container members) as (_ & _ & Hi).
    intros E. rewrite E in Hi. discriminate.
Qed.

Lemma oracle_answer_replaces_findings_witness :
  Processor.file_rows Json.loads no_containers
    (fun _ => Ret (response_with
                     (Json.dq "{'document_type': 'Both', 'document_id': '12; 7/2023'}")))
    "a.pdf" "Folio 88 Escritura 12" "88" []
  = Ret [ {| Processor.Filename := "a.pdf"; Processor.Folio_Number := "88";
             Processor.Type_ := "Escritura"; Processor.ID_Number := "12" |};
          {| Processor.Filename := "a.pdf"; Processor.Folio_Number := "88";
             Processor.Type_ := "Acta Fuera de Protocolo";
             Processor.ID_Number := "7/2023" |} ].
Proof.
  destruct (oracle_answer_replaces_findings Json.loads no_containers
              (fun _ => Ret (response_with
                     (Json.dq "{'document_type': 'Both', 'document_id': '12; 7/2023'}")))
              "a.pdf" "Folio 88 Escritura 12" "88" []
              {| folio_number := "N/A"; document_type := "Both";
                 document_id := "12; 7/2023" |})
    as (rows & E & -> & _).
  - reflexivity.
  - right. reflexivity.
  - vm_compute. reflexivity.
  - exact E.
Defined.

(** ** Properties of [parse_potentially_multiple_ids] *)

Section IdsFacts.

Lemma str_le_total a b : Ids.str_le a b = true \/ Ids.str_le b a = true.
Proof.
  unfold Ids.str_le. rewrite (String.compare_antisym b a).
  destruct (String.compare a b); simpl; auto.
Qed.

Lemma str_le_trans a b c :
  Ids.str_le a b = true -> Ids.str_le b c = true -> Ids.str_le a c = true.
Proof.
  unfold Ids.str_le.
  destruct (String.compare a b) eqn:Eab; try discriminate;
    destruct (String.compare b c) eqn:Ebc; try discriminate; intros _ _.
  - apply String.compare_eq_iff in Eab, Ebc. subst. rewrite string_compare_refl. reflexivity.
  - apply String.compare_eq_iff in Eab. subst. rewrite Ebc. reflexivity.
  - apply String.compare_eq_iff in Ebc. subst. rewrite Eab. reflexivity.
  - rewrite (string_compare_lt_trans _ _ _ Eab Ebc). reflexivity.
Qed.

(** A list sorted by [str_le] that repeats nothing is strictly increasing. *)
Lemma strictly_sorted (l : list string) :
  sorted_by Ids.str_le (fun x => x) l -> NoDup l -> StronglySorted str_lt l.
Proof.
  unfold sorted_by. induction 1 as [|a l Hs IH Ha]; intros Hnd; constructor.
  - apply IH. inversion Hnd; assumption.
  - inversion Hnd as [|? ? Hnotin _]; subst.
    rewrite Forall_forall in *. intros b Hb. specialize (Ha b Hb).
    unfold Ids.str_le in Ha. unfold str_lt.
    destruct (String.compare a b) eqn:E; [|reflexivity|discriminate].
    apply String.compare_eq_iff in E. subst. contradiction.
Qed.

Lemma decimal_contains x : Py.decimal_string x = true -> contains_decimal x = true.
Proof.
  destruct x as [|a t]; [discriminate|]. simpl. intros H.
  apply andb_true_iff in H as [-> _]. reflexivity.
Qed.

Lemma str_of_int_contains z : contains_decimal (Py.str_of_int z) = true.
Proof.
  unfold Py.str_of_int. destruct z as [|p|p]; simpl.
  - reflexivity.
  - apply decimal_contains, nilzero_decimal.
  - apply decimal_contains, nilzero_decimal.
Qed.

Lemma search_from_digit fl : forall x pos pv mt cu',
  Re.search_from fl Re.d pos pv x = Some (mt, cu') -> contains_decimal x = true.
Proof.
  induction x as [|a t IH]; intros pos pv mt cu'; simpl; [discriminate|].
  unfold Re.match_here, Re.d at 1. cbn [Re.m Re.rest].
  destruct (Re.in_set fl [Re.CDigit] a) eqn:Ha.
  - intros _. rewrite (in_set_digit fl a Ha). reflexivity.
  - intros H. rewrite (IH _ _ _ _ H). apply orb_true_r.
Qed.

Lemma search_digit fl x :
  is_none (Re.search fl Re.d x) = false -> contains_decimal x = true.
Proof.
  unfold Re.search. destruct (Re.search_from fl Re.d 0 None x) as [[mt cu']|] eqn:E;
    [|discriminate].
  intros _. eapply search_from_digit, E.
Qed.

(** A match reads a prefix of what is left, and a search finds it after a
    prefix: the span of the match object delimits what was read. *)
Section Spans.

Variable fl : Re.flags.
Variable r : Re.regex.
Variable Q : string -> Prop.
Hypothesis reads :
  forall cu cu' c, Re.match_here fl r cu = Some (cu', c) ->
    exists read, Re.rest cu = (read ++ Re.rest cu')%string /\ Q read.

Lemma search_from_reads : forall x pos pv mt cu',
  Re.search_from fl r pos pv x = Some (mt, cu') ->
  exists pre read,
    x = (pre ++ read ++ Re.rest cu')%string
    /\ Re.m_start mt = pos + Py.len pre
    /\ Re.m_end mt = pos + Py.len pre + Py.len read
    /\ Q read.
Proof.
  assert (Hhere : forall x pos pv mt cu' cu1 c,
            Re.match_here fl r {| Re.prev := pv; Re.rest := x |} = Some (cu1, c) ->
            Some ({| Re.m_start := pos;
                     Re.m_end := pos + (Py.len x - Py.len (Re.rest cu1));
                     Re.m_caps := c |}, cu1) = Some (mt, cu') ->
            exists pre read,
              x = (pre ++ read ++ Re.rest cu')%string
              /\ Re.m_start mt = pos + Py.len pre
              /\ Re.m_end mt = pos + Py.len pre + Py.len read
              /\ Q read).
  { intros x pos pv mt cu' cu1 c E H. injection H as <- <-.
    apply reads in E as (read & Hrest & HQ). cbn [Re.rest] in Hrest.
    exists EmptyString, read. cbn [Re.m_start Re.m_end].
    split; [exact Hrest|]. rewrite Hrest, len_append.
    change (Py.len EmptyString) with 0. repeat split; try lia. exact HQ. }
  induction x as [|a t IH]; intros pos pv mt cu' H; simpl in H.
  - destruct (Re.match_here fl r _) as [[cu1 c]|] eqn:E; [|discriminate].
    exact (Hhere _ _ _ _ _ _ _ E H).
  - destruct (Re.match_here fl r _) as [[cu1 c]|] eqn:E.
    + exact (Hhere _ _ _ _ _ _ _ E H).
    + apply IH in H as (pre & read & Hx & Hs & He & HQ).
      exists (String a pre), read.
      split; [change (String a t = String a (pre ++ read ++ Re.rest cu')); f_equal; exact Hx|].
      change (Py.len (String a pre)) with (S (Py.len pre)). repeat split; try lia. exact HQ.
Qed.

Lemma drop_append (a b : string) : Py.drop (Py.len a) (a ++ b) = b.
Proof. induction a; simpl; [destruct b; reflexivity|exact IHa]. Qed.

Lemma drop_past (a b : string) n :
  Py.len a <= n -> Py.drop n (a ++ b) = Py.drop (n - Py.len a) b.
Proof.
  revert n. induction a as [|x a IH]; intros n Hn; simpl.
  - rewrite Nat.sub_0_r. reflexivity.
  - destruct n as [|n]; [unfold Py.len in Hn; simpl in Hn; lia|].
    simpl. apply IH. unfold Py.len in *. simpl in Hn. lia.
Qed.

Lemma app_assoc_str (a b c : string) : ((a ++ b) ++ c = a ++ b ++ c)%string.
Proof.
  induction a as [|x a IH]; [reflexivity|].
  change (String x ((a ++ b) ++ c) = String x (a ++ b ++ c)). f_equal. exact IH.
Qed.

Lemma app_empty_r (a : string) : (a ++ EmptyString = a)%string.
Proof.
  induction a as [|x a IH]; [reflexivity|].
  change (String x (a ++ EmptyString) = String x a). f_equal. exact IH.
Qed.

Lemma finditer_from_reads : forall fuel pos pv x mt,
  In mt (Re.finditer_from fuel fl r pos pv x) ->
  pos <= Re.m_start mt
  /\ Q (Py.slice (Re.m_start mt - pos) (Re.m_end mt - pos) x).
Proof.
  induction fuel as [|fuel IH]; intros pos pv x mt; simpl; [intros []|].
  destruct (Re.search_from fl r pos pv x) as [[m1 cu1]|] eqn:E; [|intros []].
  apply search_from_reads in E as (pre & read & Hx & Hs & He & HQ).
  assert (Hlater : forall pos' pv' y skipped,
            x = ((pre ++ read ++ skipped) ++ y)%string ->
            pos' = pos + Py.len (pre ++ read ++ skipped) ->
            In mt (Re.finditer_from fuel fl r pos' pv' y) ->
            pos <= Re.m_start mt
            /\ Q (Py.slice (Re.m_start mt - pos) (Re.m_end mt - pos) x)).
  { intros pos' pv' y skipped Hy Hpos Hin. apply IH in Hin as [Hle HQ'].
    split; [lia|]. unfold Py.slice in *.
    replace (Re.m_end mt - pos - (Re.m_start mt - pos))
      with (Re.m_end mt - pos' - (Re.m_start mt - pos')) by lia.
    rewrite Hy, drop_past by lia.
    replace (Re.m_start mt - pos - Py.len (pre ++ read ++ skipped))
      with (Re.m_start mt - pos') by lia.
    exact HQ'. }
  intros [<-|Hin].
  - split; [lia|]. unfold Py.slice. rewrite Hs, He, Hx.
    replace (pos + Py.len pre - pos) with (Py.len pre) by lia.
    replace (pos + Py.len pre + Py.len read - pos - Py.len pre) with (Py.len read) by lia.
    rewrite drop_append, take_append. exact HQ.
  - destruct (Re.m_start m1 <? Re.m_end m1)%nat.
    + apply (Hlater (Re.m_end m1) (Re.prev cu1) (Re.rest cu1) EmptyString); [| |exact Hin].
      * rewrite Hx, app_empty_r, app_assoc_str. reflexivity.
      * rewrite He, !len_append. change (Py.len EmptyString) with 0. lia.
    + destruct (Re.rest cu1) as [|a t] eqn:Hr; [destruct Hin|].
      apply (Hlater (S (Re.m_end m1)) (Some a) t (String a EmptyString)); [| |exact Hin].
      * rewrite Hx, !app_assoc_str. reflexivity.
      * rewrite He, !len_append. change (Py.len (String a EmptyString)) with 1. lia.
Qed.

Lemma findall_reads x :
  Forall Q (Ids.findall fl r x).
Proof.
  apply Forall_forall. intros pid Hpid. unfold Ids.findall in Hpid.
  apply in_map_iff in Hpid as (mt & <- & Hmt).
  apply finditer_from_reads in Hmt as [_ HQ]. rewrite !Nat.sub_0_r in HQ. exact HQ.
Qed.

End Spans.

Lemma id_chars_in a : Re.in_set Ids.plain Ids.id_chars a = true -> id_char a = true.
Proof.
  unfold Re.in_set, Re.in_cls, Ids.id_chars, id_char. simpl.
  destruct (Py.is_decimal a), (Py.between 65 90 (Py.code a)), (Ascii.eqb a "/"),
    (Ascii.eqb a "-"); simpl; auto.
Qed.

Lemma all_id_chars x :
  Py.all_chars (Re.in_set Ids.plain Ids.id_chars) x = true -> Py.all_chars id_char x = true.
Proof.
  induction x as [|a t IH]; simpl; [reflexivity|].
  intros H. apply andb_true_iff in H as [Ha Ht]. rewrite (id_chars_in a Ha). auto.
Qed.

(** A run found by [[\d/-]{2,}] is made of digits, slashes and hyphens. *)
Lemma id_run_reads cu cu' c :
  Re.match_here Ids.plain Ids.id_run cu = Some (cu', c) ->
  exists read, Re.rest cu = (read ++ Re.rest cu')%string /\ Py.all_chars id_char read = true.
Proof.
  unfold Re.match_here, Ids.id_run. cbn [Re.seq fold_right Re.m]. intros H.
  destruct (Re.rest cu) as [|a t] eqn:Hr; [discriminate|].
  destruct (Re.in_set Ids.plain Ids.id_chars a) eqn:Ha; [|discriminate].
  cbn [Re.rest] in H. destruct t as [|b t]; [discriminate|].
  destruct (Re.in_set Ids.plain Ids.id_chars b) eqn:Hb; [|discriminate].
  apply star_set in H as (cu1 & read & H & Hread & Hrest). cbn [Re.rest] in Hrest.
  injection H as <- _. exists (String a (String b read)).
  split; [simpl; rewrite Hrest; reflexivity|].
  simpl. rewrite (id_chars_in a Ha), (id_chars_in b Hb). apply all_id_chars, Hread.
Qed.

Lemma upper_not_lower a : Py.between 97 122 (Py.code (Py.upper a)) = false.
Proof. destruct a as [[] [] [] [] [] [] [] []]; vm_compute; reflexivity. Qed.

Lemma plausible_char_upper a :
  Re.in_set Ids.plain Ids.plausible_chars a = true ->
  Py.between 97 122 (Py.code a) = false -> id_char a = true.
Proof.
  unfold Re.in_set, Re.in_cls, Ids.plausible_chars, id_char. simpl.
  change (Py.code "A") with 65. change (Py.code "Z") with 90.
  change (Py.code "a") with 97. change (Py.code "z") with 122.
  intros H Hl. rewrite Hl in H.
  destruct (Py.is_decimal a), (Py.between 65 90 (Py.code a)), (Ascii.eqb a "/"),
    (Ascii.eqb a "-"); simpl in *; auto.
Qed.

Lemma upper_str_chars : forall x,
  Py.all_chars (fun a => negb (Py.between 97 122 (Py.code a))) (Ids.upper_str x) = true.
Proof.
  induction x as [|a t IH]; simpl; [reflexivity|].
  destruct (Py.code a =? 223)%nat; simpl; [exact IH|].
  rewrite upper_not_lower. exact IH.
Qed.

(** A string that [[\dA-Za-z/-]{2,}] matches in full and that holds no small
    letter is made of the characters of an id. *)
Lemma fullmatch_plausible x :
  is_none (Ids.fullmatch Ids.plain Ids.plausible_id x) = false ->
  Py.all_chars (fun a => negb (Py.between 97 122 (Py.code a))) x = true ->
  Py.all_chars id_char x = true.
Proof.
  unfold Ids.fullmatch.
  destruct (Re.m Ids.plain Ids.plausible_id _ _ _) as [res|] eqn:H; [|discriminate].
  intros _. unfold Ids.plausible_id in H. cbn [Re.seq fold_right Re.m Re.rest] in H.
  destruct x as [|a x]; [discriminate|].
  destruct (Re.in_set Ids.plain Ids.plausible_chars a) eqn:Ha; [|discriminate].
  cbn [Re.rest] in H. destruct x as [|b t]; [discriminate|].
  destruct (Re.in_set Ids.plain Ids.plausible_chars b) eqn:Hb; [|discriminate].
  apply star_set in H as (cu1 & read & H & Hread & Hrest). cbn [Re.rest] in Hrest.
  unfold Ids.at_end in H. destruct (Re.rest cu1); [|discriminate].
  rewrite app_empty_r in Hrest. subst t. clear H. simpl. intros Hl.
  apply andb_true_iff in Hl as [Hla Hl]. apply andb_true_iff in Hl as [Hlb Hl].
  rewrite (plausible_char_upper a Ha) by (apply negb_true_iff, Hla).
  rewrite (plausible_char_upper b Hb) by (apply negb_true_iff, Hlb). simpl.
  induction read as [|c w IH]; simpl; [reflexivity|].
  simpl in Hread, Hl. apply andb_true_iff in Hread as [Hc Hw].
  apply andb_true_iff in Hl as [Hlc Hlw].
  rewrite (plausible_char_upper c Hc) by (apply negb_true_iff, Hlc). auto.
Qed.

Lemma decimal_id_chars x :
  Py.all_chars Py.is_decimal x = true -> Py.all_chars id_char x = true.
Proof.
  induction x as [|a t IH]; simpl; [reflexivity|].
  intros H. apply andb_true_iff in H as [Ha Ht]. unfold id_char at 1. rewrite Ha. auto.
Qed.

Lemma str_of_int_id_chars z : Py.all_chars id_char (Py.str_of_int z) = true.
Proof.
  unfold Py.str_of_int. destruct z as [|p|p]; simpl.
  - reflexivity.
  - apply decimal_id_chars, decimal_string_all, nilzero_decimal.
  - apply decimal_id_chars, decimal_string_all, nilzero_decimal.
Qed.


Lemma add_plausible ids_found id_val :
  all_plausible ids_found -> plausible id_val -> all_plausible (ids_found ∪ {[ id_val ]}).
Proof.
  intros H Hid x Hx. apply elem_of_union in Hx as [Hx|Hx]; [apply H, Hx|].
  apply elem_of_singleton in Hx. subst. exact Hid.
Qed.

Lemma fold_plausible {A : Type} (f : gset string -> A -> gset string) (l : list A) :
  (forall ids x, all_plausible ids -> all_plausible (f ids x)) ->
  forall ids, all_plausible ids -> all_plausible (fold_left f l ids).
Proof.
  intros Hf. induction l as [|x l IH]; intros ids H; simpl; [exact H|].
  apply IH, Hf, H.
Qed.

Lemma add_range_plausible start end_ ids_found :
  all_plausible ids_found -> all_plausible (Ids.add_range start end_ ids_found).
Proof.
  unfold Ids.add_range. apply fold_plausible. intros ids i H.
  destruct (Py.len (Py.str_of_int i) <? 10)%nat eqn:E; [|exact H].
  apply add_plausible; [exact H|]. apply Nat.ltb_lt in E. split; [lia|].
  split; [apply str_of_int_contains|apply str_of_int_id_chars].
Qed.

Lemma add_runs_plausible part ids_found :
  all_plausible ids_found -> all_plausible (Ids.add_runs part ids_found).
Proof.
  unfold Ids.add_runs.
  pose proof (findall_reads Ids.plain Ids.id_run
                (fun read => Py.all_chars id_char read = true)
                (fun cu cu' c => id_run_reads cu cu' c) part) as Hruns.
  revert ids_found. induction Hruns as [|pid pids Hpid _ IH]; intros ids H; simpl;
    [exact H|].
  apply IH.
  destruct (Py.truthy pid && negb (is_none (Re.search Ids.plain Re.d pid))
            && (Py.len pid <? 30)%nat) eqn:E; [|exact H].
  destruct (is_none (Ids.fullmatch Ids.plain Ids.date_pattern pid)); [|exact H].
  apply andb_true_iff in E as [E Hl]. apply andb_true_iff in E as [_ Hs].
  apply add_plausible; [exact H|]. split; [apply Nat.ltb_lt, Hl|]. split; [|exact Hpid].
  apply (search_digit Ids.plain). apply negb_true_iff, Hs.
Qed.

(** The body of the loop returns, with plausible ids only. *)
Lemma part_step_plausible part ids_found :
  all_plausible ids_found ->
  exists ids', Ids.part_step part ids_found = Ret ids' /\ all_plausible ids'.
Proof.
  intros H. unfold Ids.part_step.
  set (p := Ids.upper_str (Py.strip part)).
  destruct (Ids.re_match Ids.plain Ids.range_pattern p) as [[cu' c]|] eqn:E;
    [|eexists; split; [reflexivity|apply add_runs_plausible, H]].
  apply match_here_ok in E as [_ Hset].
  destruct (Re.lookup_cap 1 c) as [g1|] eqn:E1;
    [|exfalso; apply (Hset 1); [simpl; auto|exact E1]].
  destruct (Re.lookup_cap 2 c) as [g2|] eqn:E2;
    [|exfalso; apply (Hset 2); [simpl; auto|exact E2]].
  destruct (Py.int_of_str g1) as [start|];
    [|eexists; split; [reflexivity|apply add_runs_plausible, H]].
  destruct (Py.int_of_str g2) as [end_|];
    [|eexists; split; [reflexivity|apply add_runs_plausible, H]].
  eexists. split; [reflexivity|].
  destruct (start <=? end_)%Z; [apply add_range_plausible, H|exact H].
Qed.

Lemma parts_plausible parts : forall ids_found,
  all_plausible ids_found ->
  exists ids', for_each Ids.part_step parts ids_found = Ret ids' /\ all_plausible ids'.
Proof.
  induction parts as [|part parts IH]; intros ids H; simpl; [eauto|].
  destruct (part_step_plausible part ids H) as (ids1 & -> & H1). simpl. apply IH, H1.
Qed.

Lemma fallback_plausible id_str ids_found :
  all_plausible ids_found -> all_plausible (Ids.fallback id_str ids_found).
Proof.
  intros H. unfold Ids.fallback. case_bool_decide; [|exact H].
  set (oc := Ids.upper_str (Py.strip id_str)).
  destruct (negb (is_none (Re.search Ids.plain Re.d oc))
            && negb (is_none (Ids.fullmatch Ids.plain Ids.plausible_id oc))
            && (Py.len oc <? 30)%nat) eqn:E; [|exact H].
  apply andb_true_iff in E as [E Hl]. apply andb_true_iff in E as [Hs Hf].
  apply add_plausible; [exact H|]. split; [apply Nat.ltb_lt, Hl|]. split.
  - apply (search_digit Ids.plain). apply negb_true_iff, Hs.
  - apply fullmatch_plausible; [apply negb_true_iff, Hf|apply upper_str_chars].
Qed.

Lemma contains_decimal_len x : contains_decimal x = true -> 1 <= Py.len x.
Proof. destruct x; [discriminate|]. intros _. unfold Py.len. simpl. lia. Qed.

End IdsFacts.

(** X14. [parse_potentially_multiple_ids] returns for every string, and
    its list is strictly increasing in the order of the code points, so that
    no id occurs twice; every id has between 1 and 29 characters, holds a
    decimal digit, and is made of decimal digits, capital letters A to Z,
    slashes and hyphens. *)
Theorem parsed_ids_are_sorted_and_bounded (id_str : string) :
  exists ids,
    Ids.parse_potentially_multiple_ids id_str = Ret ids
    /\ StronglySorted str_lt ids
    /\ Forall (fun id_val =>
                 1 <= Py.len id_val < 30
                 /\ contains_decimal id_val = true
                 /\ Py.all_chars id_char id_val = true) ids.
Proof.
  unfold Ids.parse_potentially_multiple_ids.
  destruct (parts_plausible (Ids.split_comma (Ids.normalize id_str)) ∅)
    as (ids1 & -> & H1).
  { intros x Hx. apply elem_of_empty in Hx. destruct Hx. }
  simpl. eexists. split; [reflexivity|].
  set (ids2 := base.filter _ (Ids.fallback id_str ids1)).
  assert (H2 : all_plausible ids2).
  { intros x Hx. apply elem_of_filter in Hx as [_ Hx].
    apply (fallback_plausible id_str ids1 H1), Hx. }
  pose proof (sort_by_perm Ids.str_le (fun x => x) (elements ids2)) as Hperm.
  split.
  - apply strictly_sorted.
    + apply sort_by_sorted; [apply str_le_total|apply str_le_trans].
    + eapply Permutation_NoDup; [symmetry; exact Hperm|]. apply NoDup_ListNoDup, NoDup_elements.
  - apply Forall_forall. intros x Hx.
    apply (Permutation_in _ Hperm) in Hx. apply list_elem_of_In, elem_of_elements in Hx.
    destruct (H2 x Hx) as (Hl & Hd & Hc). split; [|split; [exact Hd|exact Hc]].
    split; [apply contains_decimal_len, Hd|exact Hl].
Qed.

(** ** Properties of the Folio patterns of [analyze_pdfs] *)

Section RegexFolioFacts.

Variable fl : Re.flags.

(** What [[...]{lo,hi}] reads: between [lo] and [hi] characters, counting
    the iterations already done; it binds nothing. *)
Lemma rep_set l k lo n : forall count cu c x,
  Re.rep_loop (Re.m fl (Re.Set_ l)) k lo n count cu c = Some x ->
  exists cu' read, k cu' c = Some x
    /\ Re.rest cu = (read ++ Re.rest cu')%string
    /\ Py.len read <= n /\ lo <= count + Py.len read.
Proof.
  assert (Hstep : forall n' count cu c x,
    (forall count cu c x,
       Re.rep_loop (Re.m fl (Re.Set_ l)) k lo n' count cu c = Some x ->
       exists cu' read, k cu' c = Some x
         /\ Re.rest cu = (read ++ Re.rest cu')%string
         /\ Py.len read <= n' /\ lo <= count + Py.len read) ->
    Re.m fl (Re.Set_ l)
      (fun cu' c' => Re.rep_loop (Re.m fl (Re.Set_ l)) k lo n' (S count) cu' c') cu c
      = Some x ->
    exists cu' read, k cu' c = Some x
      /\ Re.rest cu = (read ++ Re.rest cu')%string
      /\ Py.len read <= S n' /\ lo <= count + Py.len read).
  { intros n' count cu c x IH H. cbn [Re.m] in H.
    destruct (Re.rest cu) as [|a t] eqn:Hr; [discriminate|].
    destruct (Re.in_set fl l a) eqn:Ha; [|discriminate].
    apply IH in H as (cu' & read & Hk & Hrest & Hn & Hlo). simpl in Hrest.
    exists cu', (String a read). split; [exact Hk|]. split; [|split].
    - simpl. rewrite Hrest. reflexivity.
    - unfold Py.len in *. simpl. lia.
    - unfold Py.len in *. simpl. lia. }
  induction n as [|n IH]; intros count cu c x H; cbn [Re.rep_loop] in H.
  - destruct (count <? lo)%nat eqn:E; [discriminate|]. apply Nat.ltb_ge in E.
    exists cu, EmptyString. repeat split; auto. unfold Py.len. simpl. lia.
  - destruct (count <? lo)%nat eqn:E.
    + apply Hstep; assumption.
    + apply orelse_some in H as [H|H]; [apply Hstep; assumption|].
      apply Nat.ltb_ge in E.
      exists cu, EmptyString. repeat split; auto.
      * unfold Py.len. simpl. lia.
      * unfold Py.len. simpl. lia.
Qed.

(** A literal reads as many characters as it has. *)
Lemma eat_read lit : forall cu cu',
  Re.eat fl lit cu = Some cu' ->
  exists read, Re.rest cu = (read ++ Re.rest cu')%string /\ Py.len read = Py.len lit.
Proof.
  induction lit as [|b lit IH]; intros cu cu' H; simpl in H.
  - injection H as <-. exists EmptyString. auto.
  - destruct (Re.rest cu) as [|a t] eqn:Hr; [discriminate|].
    destruct (Re.chr_eq fl a b); [|discriminate].
    apply IH in H as (read & Hrest & Hlen). simpl in Hrest.
    exists (String a read). split; [simpl; rewrite Hrest; reflexivity|].
    unfold Py.len in *. simpl. lia.
Qed.

(** A string that is a UUID in full has 36 characters. *)
Lemma fullmatch_uuid_len x :
  is_none (Ids.fullmatch fl RegexFolio.uuid x) = false -> Py.len x = 36.
Proof.
  unfold Ids.fullmatch. destruct (Re.m fl RegexFolio.uuid _ _ _) as [res|] eqn:H;
    [|discriminate].
  intros _. unfold RegexFolio.uuid, RegexFolio.hex in H.
  cbn [Re.seq fold_right Re.m] in H.
  repeat
    (match type of H with
     | Re.rep_loop _ _ _ _ _ ?cu _ = Some _ =>
         let cu' := fresh "cu" in let read := fresh "read" in
         let Hrest := fresh "Hrest" in let Hn := fresh "Hn" in let Hlo := fresh "Hlo" in
         apply rep_set in H as (cu' & read & H & Hrest & Hn & Hlo);
         cbn beta in H; cbn [Re.m] in H
     | match Re.eat _ ?lit ?cu with _ => _ end = Some _ =>
         let cu' := fresh "cu" in let read := fresh "read" in
         let Hrest := fresh "Hrest" in let Hlen := fresh "Hlen" in
         let E := fresh "E" in
         destruct (Re.eat fl lit cu) as [cu'|] eqn:E; [|discriminate];
         apply eat_read in E as (read & Hrest & Hlen)
     end).
  unfold Ids.at_end in H.
  match type of H with
  | match Re.rest ?cu with _ => _ end = _ => destruct (Re.rest cu) eqn:Hend; [|discriminate]
  end.
  cbn [Re.rest] in *.
  repeat match goal with
         | Hr : _ = (_ ++ _)%string |- _ =>
             apply (f_equal Py.len) in Hr; rewrite len_append in Hr
         end.
  change (Py.len "-") with 1 in *. change (Py.len "") with 0 in *. lia.
Qed.

End RegexFolioFacts.

Lemma folio_patterns_set_group pattern text mt :
  In pattern RegexFolio.FOLIO_PATTERNS ->
  RegexFolio.search_twice pattern text = Some mt ->
  exists g, Re.group mt 1 = Some g.
Proof.
  intros Hp H. apply (match_ok_group pattern mt 1).
  - unfold RegexFolio.search_twice in H.
    destruct (Re.search Re.I pattern (Py.take 3000 text)) as [mt'|] eqn:E.
    + injection H as <-. eapply search_ok, E.
    + eapply search_ok, H.
  - clear H. repeat (destruct Hp as [<-|Hp]; [simpl; tauto|]). destruct Hp.
Qed.

Lemma strip_truthy_len x : Py.truthy x = true -> 1 <= Py.len x.
Proof. destruct x; [discriminate|]. intros _. unfold Py.len. simpl. lia. Qed.

Lemma scan_shape text : forall patterns,
  (forall pattern, In pattern patterns -> In pattern RegexFolio.FOLIO_PATTERNS) ->
  exists folio,
    RegexFolio.scan patterns text = Ret folio
    /\ (1 <= Py.len folio < 20 \/ Py.len folio = 36).
Proof.
  induction patterns as [|pattern others IH]; intros Hin; simpl.
  - exists RegexFolio.NOT_FOUND. split; [reflexivity|]. left. vm_compute. lia.
  - assert (Hothers : forall p, In p others -> In p RegexFolio.FOLIO_PATTERNS)
      by (intros p Hp; apply Hin; right; exact Hp).
    destruct (RegexFolio.search_twice pattern text) as [mt|] eqn:E; [|apply IH, Hothers].
    destruct (folio_patterns_set_group pattern text mt (Hin _ (or_introl eq_refl)) E)
      as (g & ->).
    simpl. destruct (RegexFolio.acceptable (Py.strip g)) eqn:Ea; [|apply IH, Hothers].
    exists (Py.strip g). split; [reflexivity|].
    unfold RegexFolio.acceptable in Ea. apply andb_true_iff in Ea as [Ht Hl].
    apply strip_truthy_len in Ht. apply orb_true_iff in Hl as [Hl|Hu].
    + left. apply Nat.ltb_lt in Hl. lia.
    + right. apply (fullmatch_uuid_len Re.I). apply negb_true_iff, Hu.
Qed.

(** X15. The Folio that the patterns of [analyze_pdfs] give for a text is
    never empty: the search returns for every text, with "Not Found" or
    another string of fewer than 20 characters, or with a string of exactly
    36 characters, the length of a UUID. *)
Theorem regex_folio_is_short_or_a_uuid (clean_text : string) :
  exists folio,
    RegexFolio.regex_folio_number clean_text = Ret folio
    /\ (1 <= Py.len folio < 20 \/ Py.len folio = 36).
Proof. apply scan_shape. auto. Qed.

(** ** Properties of [extract_text_from_pdf] *)

Section RunFacts.

Variable fl : Re.flags.
Variable l : list Re.cls.
Variable repl : string.

Local Abbreviation p := (Re.in_set fl l).
Local Abbreviation r := (Re.Plus (Re.Set_ l)).
Local Abbreviation final := (fun (cu : Re.cursor) (c : Re.caps) => Some (cu, c)).

(** [[...]*] reads the whole run. *)
Lemma star_run n : forall x pv c,
  Py.len x <= n ->
  Re.star_loop (Re.m fl (Re.Set_ l)) final n {| Re.prev := pv; Re.rest := x |} c
  = Some (skip_run p pv x, c).
Proof.
  induction n as [|n IH]; intros x pv c Hn; cbn [Re.star_loop].
  - destruct x; [reflexivity|]. unfold Py.len in Hn. simpl in Hn. lia.
  - destruct x as [|a t]; [reflexivity|]. cbn [Re.m Re.rest skip_run].
    destruct (p a) eqn:Ha; [|reflexivity].
    unfold Re.advanced. cbn [Re.rest].
    replace (Py.len t <? Py.len (String a t))%nat with true
      by (symmetry; apply Nat.ltb_lt; unfold Py.len; simpl; lia).
    rewrite IH; [reflexivity|]. unfold Py.len in *. simpl in Hn. lia.
Qed.

Lemma match_here_run x pv :
  Re.match_here fl r {| Re.prev := pv; Re.rest := x |}
  = match x with
    | String a t => if p a then Some (skip_run p (Some a) t, []) else None
    | EmptyString => None
    end.
Proof.
  unfold Re.match_here. cbn [Re.m Re.rest]. destruct x as [|a t]; [reflexivity|].
  destruct (p a); [|reflexivity]. cbn [Re.rest]. apply star_run. lia.
Qed.

Lemma search_from_run : forall x pos pv,
  Re.search_from fl r pos pv x
  = match first_run p x with
    | None => None
    | Some (n, b, t) =>
        let cu' := skip_run p (Some b) t in
        Some ({| Re.m_start := pos + n;
                 Re.m_end := pos + n + (Py.len (String b t) - Py.len (Re.rest cu'));
                 Re.m_caps := [] |}, cu')
    end.
Proof.
  induction x as [|a t IH]; intros pos pv; cbn [Re.search_from first_run];
    rewrite match_here_run; [reflexivity|].
  destruct (p a) eqn:Ha.
  - cbv zeta. rewrite Nat.add_0_r. reflexivity.
  - rewrite IH. destruct (first_run p t) as [[[n b] t']|]; [|reflexivity].
    cbv zeta. replace (S pos + n) with (pos + S n) by lia. reflexivity.
Qed.

Lemma first_run_none x : first_run p x = None -> collapse p repl false x = x.
Proof.
  induction x as [|a t IH]; simpl; [reflexivity|].
  destruct (p a); [discriminate|].
  destruct (first_run p t) as [[[n b] t']|]; [discriminate|].
  intros _. rewrite IH; reflexivity.
Qed.

Lemma first_run_some : forall x n b t,
  first_run p x = Some (n, b, t) ->
  Py.drop n x = String b t
  /\ collapse p repl false x = (Py.take n x ++ repl ++ collapse p repl true t)%string.
Proof.
  induction x as [|a x IH]; intros n b t; simpl; [discriminate|].
  destruct (p a) eqn:Ha.
  - intros H. injection H as <- <- <-. simpl. auto.
  - destruct (first_run p x) as [[[n' b'] t']|] eqn:E; [|discriminate].
    intros H. injection H as <- <- <-.
    destruct (IH _ _ _ eq_refl) as (Hd & Hc). simpl. rewrite Hc. auto.
Qed.

Lemma skip_run_rest : forall t pv,
  exists k, Re.rest (skip_run p pv t) = Py.drop k t
            /\ k + Py.len (Re.rest (skip_run p pv t)) = Py.len t
            /\ collapse p repl true t = collapse p repl false (Re.rest (skip_run p pv t)).
Proof.
  induction t as [|a t IH]; intros pv; simpl.
  - exists 0. auto.
  - destruct (p a) eqn:Ha.
    + destruct (IH (Some a)) as (k & Hd & Hl & Hc). exists (S k). simpl.
      split; [exact Hd|]. split; [unfold Py.len in *; simpl; lia|exact Hc].
    + exists 0. simpl. rewrite Ha. auto.
Qed.

Lemma drop_drop n : forall k x, Py.drop k (Py.drop n x) = Py.drop (n + k) x.
Proof.
  induction n as [|n IH]; intros k x; simpl; [reflexivity|].
  destruct x as [|a t]; [destruct k; reflexivity|]. apply IH.
Qed.

(** Replacing the matches of [[...]+] is collapsing the runs. *)
Lemma splice_run fuel : forall x pos pv,
  Py.len x < fuel ->
  Re.splice repl pos x (Re.finditer_from fuel fl r pos pv x) = collapse p repl false x.
Proof.
  induction fuel as [|fuel IH]; intros x pos pv Hf; [lia|].
  cbn [Re.finditer_from]. rewrite search_from_run.
  destruct (first_run p x) as [[[n b] t]|] eqn:E.
  - cbv zeta. cbn [Re.m_start Re.m_end].
    destruct (first_run_some x n b t E) as (Hd & Hc).
    destruct (skip_run_rest t (Some b)) as (k & Hk & Hl & Hcc).
    set (cu' := skip_run p (Some b) t) in *.
    assert (Hlen : Py.len x = n + S (Py.len t)).
    { pose proof (len_drop n x) as Hx. rewrite Hd in Hx.
      unfold Py.len in *. simpl in Hx. simpl.
      assert (n <= String.length x).
      { destruct (Nat.le_gt_cases n (String.length x)); [assumption|]. lia. }
      lia. }
    replace (pos + n <? pos + n + (Py.len (String b t) - Py.len (Re.rest cu')))%nat
      with true
      by (symmetry; apply Nat.ltb_lt; unfold Py.len in *; simpl; lia).
    cbn [Re.splice Re.m_start Re.m_end].
    replace (pos + n - pos) with n by lia.
    replace (pos + n + (Py.len (String b t) - Py.len (Re.rest cu')) - pos)
      with (n + S k) by (unfold Py.len in *; simpl; lia).
    rewrite <- drop_drop, Hd. cbn [Py.drop]. rewrite <- Hk.
    rewrite IH by (unfold Py.len in *; lia).
    rewrite Hc, Hcc. reflexivity.
  - simpl. symmetry. apply first_run_none, E.
Qed.

Lemma sub_run x : Re.sub fl r repl x = collapse p repl false x.
Proof. unfold Re.sub, Re.finditer. apply splice_run. lia. Qed.

End RunFacts.

Section TidyFacts.

Lemma collapse_ext (p q : ascii -> bool) repl :
  (forall a, p a = q a) -> forall x b, collapse p repl b x = collapse q repl b x.
Proof.
  intros H. induction x as [|a t IH]; intros b; simpl; [reflexivity|].
  rewrite H. destruct (q a); [destruct b|]; rewrite IH; reflexivity.
Qed.

Lemma in_set_space a : Re.in_set Ids.plain [Re.CSpace] a = Py.is_space a.
Proof.
  unfold Re.in_set, Re.in_cls. simpl. rewrite !orb_false_r. reflexivity.
Qed.

Lemma collapse_spaced : forall x b, spaced b (collapse Py.is_space " " b x) = true.
Proof.
  induction x as [|a t IH]; intros b; simpl; [reflexivity|].
  destruct (Py.is_space a) eqn:Ha.
  - destruct b; [apply IH|]. simpl. apply IH.
  - simpl. rewrite Ha. apply IH.
Qed.

Lemma collapse_squeeze : forall x b, squeeze (collapse Py.is_space " " b x) = squeeze x.
Proof.
  induction x as [|a t IH]; intros b; simpl; [reflexivity|].
  destruct (Py.is_space a) eqn:Ha.
  - destruct b; [apply IH|]. simpl. apply IH.
  - simpl. rewrite Ha, IH. reflexivity.
Qed.

Lemma lstrip_spaced : forall x b,
  spaced b x = true -> spaced true (Py.lstrip_by Py.is_space x) = true.
Proof.
  induction x as [|a t IH]; intros b H; simpl; [reflexivity|].
  simpl in H. destruct (Py.is_space a) eqn:Ha.
  - apply andb_true_iff in H as [_ H]. eapply IH, H.
  - simpl. rewrite Ha. exact H.
Qed.

Lemma lstrip_squeeze : forall x, squeeze (Py.lstrip_by Py.is_space x) = squeeze x.
Proof.
  induction x as [|a t IH]; simpl; [reflexivity|].
  destruct (Py.is_space a) eqn:Ha; [exact IH|]. simpl. rewrite Ha. reflexivity.
Qed.

Lemma rstrip_tidy : forall x b,
  spaced b x = true ->
  Py.rstrip_by Py.is_space x = EmptyString
  \/ tidy_from b (Py.rstrip_by Py.is_space x) = true.
Proof.
  induction x as [|a t IH]; intros b H; [left; reflexivity|].
  cbn [Py.rstrip_by]. cbn [spaced] in H. destruct (Py.is_space a) eqn:Ha.
  - apply andb_true_iff in H as [H Ht]. apply andb_true_iff in H as [Heq Hb].
    destruct (IH true Ht) as [E|E].
    + rewrite E. left. reflexivity.
    + destruct (Py.rstrip_by Py.is_space t) as [|c w] eqn:Ew; [left; reflexivity|].
      right. cbn [tidy_from]. rewrite Ha, Heq, Hb. exact E.
  - destruct (IH false H) as [E|E].
    + rewrite E. right. simpl. rewrite Ha. reflexivity.
    + destruct (Py.rstrip_by Py.is_space t) as [|c w] eqn:Ew.
      * right. simpl. rewrite Ha. reflexivity.
      * right. cbn [tidy_from]. rewrite Ha. exact E.
Qed.

Lemma squeeze_cons a y :
  squeeze (String a y) = if Py.is_space a then squeeze y else String a (squeeze y).
Proof. reflexivity. Qed.

Lemma rstrip_squeeze : forall x, squeeze (Py.rstrip_by Py.is_space x) = squeeze x.
Proof.
  induction x as [|a t IH]; [reflexivity|]. cbn [Py.rstrip_by].
  rewrite (squeeze_cons a t), <- IH.
  destruct (Py.rstrip_by Py.is_space t) as [|c w] eqn:Ew.
  - destruct (Py.is_space a) eqn:Ha; [reflexivity|]. simpl. rewrite Ha. reflexivity.
  - rewrite squeeze_cons. reflexivity.
Qed.

(** The normal form of the white space of a text. *)
Lemma normalize_whitespace_tidy full_text :
  tidy (Text.normalize_whitespace full_text) = true
  /\ squeeze (Text.normalize_whitespace full_text) = squeeze full_text.
Proof.
  unfold Text.normalize_whitespace, Ids.whitespace_run, Re.s.
  rewrite sub_run, (collapse_ext _ Py.is_space " " in_set_space).
  unfold Py.strip. split.
  - pose proof (collapse_spaced full_text false) as Hs.
    apply lstrip_spaced in Hs. apply rstrip_tidy in Hs as [E|E].
    + rewrite E. reflexivity.
    + unfold tidy. destruct (Py.rstrip_by _ _); [reflexivity|exact E].
  - rewrite rstrip_squeeze, lstrip_squeeze, collapse_squeeze. reflexivity.
Qed.

End TidyFacts.

(** X17. The text that [extract_text_from_pdf] returns is made of words
    separated by single spaces: every white-space character in it is a
    space, no two spaces are adjacent, and it neither starts nor ends with a
    space; its characters other than white space are those of the page
    text, in the same order. *)
Theorem extracted_text_is_tidy (read_pages : string -> option string)
    (pdf_path text : string) :
  Text.extract_text_from_pdf read_pages pdf_path = Some text ->
  tidy text = true
  /\ exists full_text, read_pages pdf_path = Some full_text
                       /\ squeeze text = squeeze full_text.
Proof.
  unfold Text.extract_text_from_pdf.
  destruct (read_pages pdf_path) as [full_text|]; [|discriminate].
  intros H. injection H as <-.
  destruct (normalize_whitespace_tidy full_text) as [Ht Hs].
  split; [exact Ht|]. exists full_text. auto.
Qed.

Lemma extracted_text_is_tidy_witness :
  Text.extract_text_from_pdf
    (fun _ => Some (String "009" " Folio:  12" ++ String "010" (String "010" "Escritura   5 ")))
    "a.pdf"
  = Some "Folio: 12 Escritura 5"
  /\ tidy "Folio: 12 Escritura 5" = true.
Proof.
  split; [vm_compute; reflexivity|].
  apply (extracted_text_is_tidy
           (fun _ => Some (String "009" " Folio:  12"
                           ++ String "010" (String "010" "Escritura   5 "))) "a.pdf").
  vm_compute. reflexivity.
Defined.

Section FixedPoint.

Lemma tidy_from_spaced : forall x b, tidy_from b x = true -> spaced b x = true.
Proof.
  induction x as [|a t IH]; intros b; simpl; [reflexivity|].
  destruct (Py.is_space a); [|apply IH].
  intros H. apply andb_true_iff in H as [H Ht]. rewrite H. apply IH, Ht.
Qed.

Lemma spaced_collapse : forall x b, spaced b x = true -> collapse Py.is_space " " b x = x.
Proof.
  induction x as [|a t IH]; intros b; simpl; [reflexivity|].
  destruct (Py.is_space a).
  - intros H. apply andb_true_iff in H as [H Ht]. apply andb_true_iff in H as [Ha Hb].
    apply negb_true_iff in Hb. subst b. apply Ascii.eqb_eq in Ha. subst a.
    rewrite (IH true Ht). reflexivity.
  - intros H. rewrite (IH false H). reflexivity.
Qed.

Lemma tidy_rstrip : forall x b, tidy_from b x = true -> Py.rstrip_by Py.is_space x = x.
Proof.
  induction x as [|a t IH]; intros b; [reflexivity|]. cbn [tidy_from Py.rstrip_by].
  destruct (Py.is_space a) eqn:Ha.
  - intros H. apply andb_true_iff in H as [_ Ht]. rewrite (IH true Ht).
    destruct t; [discriminate|reflexivity].
  - intros H. rewrite (IH false H). destruct t; reflexivity.
Qed.

Lemma tidy_unchanged x : tidy x = true -> Text.normalize_whitespace x = x.
Proof.
  intros H. unfold Text.normalize_whitespace, Ids.whitespace_run, Re.s.
  rewrite sub_run, (collapse_ext _ Py.is_space " " in_set_space).
  destruct x as [|a t]; [reflexivity|]. unfold tidy in H.
  rewrite (spaced_collapse _ false).
  - unfold Py.strip. cbn [Py.lstrip_by]. cbn [tidy_from] in H.
    destruct (Py.is_space a) eqn:Ha.
    + rewrite andb_false_r in H. discriminate.
    + apply (tidy_rstrip (String a t) true). cbn [tidy_from]. rewrite Ha. exact H.
  - cbn [tidy_from] in H. cbn [spaced]. destruct (Py.is_space a).
    + rewrite andb_false_r in H. discriminate.
    + apply tidy_from_spaced, H.
Qed.

End FixedPoint.

(** X19. Normalising the white space of a text twice changes nothing more:
    the result of [normalize_whitespace] is a fixed point of it. *)
Theorem normalize_whitespace_idempotent (full_text : string) :
  Text.normalize_whitespace (Text.normalize_whitespace full_text)
  = Text.normalize_whitespace full_text.
Proof.
  apply tidy_unchanged. apply (normalize_whitespace_tidy full_text).
Qed.
